(** * QuantaLearn: the progression model of [MainApp]

    A shallow embedding of the handlers of [src/components/AuthPage.tsx]
    ([handleCreateCourse], [handleCreateLearningPath], [handleGenerateModule],
    [handleQuizSubmit], [handleMockTestSubmit], [setAppView] and the click
    handlers that lead to a quiz) over the data model of [src/types.ts],
    followed by the properties of the specification that concern them.

    Layout: the JavaScript primitives the handlers rely on, the data model,
    the handlers, and then the lemmas and theorems. *)

From Stdlib Require Import ZArith Lia Ascii String.
From Stdlib Require Import Floats.SpecFloat.
From stdpp Require Import base option list sorting strings gmap.

Local Open Scope Z_scope.

(** ** JavaScript primitives

    A JavaScript string is a sequence of 16-bit code units; the model takes
    [string], a sequence of 8-bit ones, with the same order (unit by unit, a
    proper prefix first) and the same escapes in [JSON.stringify]. *)

Module Js.

(** *** Numbers

    A JavaScript number is an IEEE-754 binary64 value.  [spec_float] is
    the executable specification of binary floating point of the standard
    library; binary64 has a 53 bit significand and [emax = 1024]. *)

Definition number : Type := spec_float.

Definition prec : Z := 53.
Definition emax : Z := 1024.

(** An integer literal, or an integer-valued number such as [score] or
    [quiz.questions.length]. *)
Definition of_Z (z : Z) : number := binary_normalize prec emax z 0 false.
Definition of_nat (n : nat) : number := of_Z (Z.of_nat n).

(** [x / y] and [x * y], rounded to nearest, ties to even. *)
Definition div (x y : number) : number := SFdiv prec emax x y.
Definition mul (x y : number) : number := SFmul prec emax x y.

(** [x >= y]; false as soon as one side is [NaN]. *)
Definition ge (x y : number) : bool := SFleb y x.

(** [Math.round(x)]: [x] itself when it is not finite or already
    integral, otherwise the integer [floor (x + 1/2)] (ties go towards
    plus infinity); a zero result keeps the sign of [x]. *)
Definition Math_round (x : number) : number :=
  match x with
  | S754_finite s m e =>
      if 0 <=? e then x
      else
        let n := if s then Z.neg m else Z.pos m in
        let r := (n + 2 ^ (- e - 1)) / 2 ^ (- e) in
        if r =? 0 then S754_zero s else of_Z r
  | _ => x
  end.

(** *** [Array.prototype.sort] without a comparator

    The elements are strings, compared code unit by code unit (a proper
    prefix comes first).  The algorithm is left to the engine; on a total
    order every algorithm returns the same array.  The model runs a merge
    sort.  The sort is in place: the caller's array is replaced by the
    returned one. *)
Definition sort (l : list string) : list string := merge_sort String.le l.

(** *** [JSON.stringify] of an array of strings

    [QuoteJSONString] of ECMA-262: the two-character escapes, [\u00xx]
    for the other control characters, every other code unit as it is. *)

Definition quotation_mark : ascii := "034"%char.
Definition reverse_solidus : ascii := "092"%char.

Definition hex_digit (n : N) : ascii :=
  ascii_of_N (if (n <? 10)%N then 48 + n else 87 + n).

Definition escaped (c : ascii) : string :=
  String reverse_solidus (String c EmptyString).

Definition quote_unit (c : ascii) : string :=
  let n := N_of_ascii c in
  if (n =? 8)%N then escaped "b"
  else if (n =? 9)%N then escaped "t"
  else if (n =? 10)%N then escaped "n"
  else if (n =? 12)%N then escaped "f"
  else if (n =? 13)%N then escaped "r"
  else if (n =? 34)%N then escaped quotation_mark
  else if (n =? 92)%N then escaped reverse_solidus
  else if (n <? 32)%N then
    String reverse_solidus
      (String "u" (String "0" (String "0"
        (String (hex_digit (n / 16)) (String (hex_digit (n mod 16)) EmptyString)))))
  else String c EmptyString.

Fixpoint quote_units (s : string) : string :=
  match s with
  | EmptyString => EmptyString
  | String c r => quote_unit c +:+ quote_units r
  end.

Definition QuoteJSONString (s : string) : string :=
  String quotation_mark (quote_units s +:+ String quotation_mark EmptyString).

(** The elements after the first one, each behind its comma, and the
    closing bracket. *)
Fixpoint stringify_rest (l : list string) : string :=
  match l with
  | [] => "]"
  | x :: r => "," +:+ QuoteJSONString x +:+ stringify_rest r
  end.

Definition JSON_stringify (l : list string) : string :=
  match l with
  | [] => "[]"
  | x :: r => "[" +:+ QuoteJSONString x +:+ stringify_rest r
  end.

(** *** Truthiness of an optional string ([!user.apiKey]) *)
Definition truthy (o : option string) : bool :=
  match o with
  | Some s => negb (String.eqb s EmptyString)
  | None => false
  end.

(** Reading one escaped code unit back; used to show that
    [JSON_stringify] never confuses two arrays. *)
Definition hex_value (c : ascii) : N :=
  let n := N_of_ascii c in
  if (n <? 58)%N then n - 48 else n - 87.

Definition unquote_unit (s : string) : option (ascii * string) :=
  match s with
  | EmptyString => None
  | String c r =>
      if Ascii.eqb c quotation_mark then None
      else if Ascii.eqb c reverse_solidus then
        match r with
        | String d r' =>
            if Ascii.eqb d "b" then Some ("008"%char, r')
            else if Ascii.eqb d "t" then Some ("009"%char, r')
            else if Ascii.eqb d "n" then Some ("010"%char, r')
            else if Ascii.eqb d "f" then Some ("012"%char, r')
            else if Ascii.eqb d "r" then Some ("013"%char, r')
            else if Ascii.eqb d quotation_mark then Some (quotation_mark, r')
            else if Ascii.eqb d reverse_solidus then Some (reverse_solidus, r')
            else
              match r' with
              | String _ (String _ (String h (String l r''))) =>
                  Some (ascii_of_N (16 * hex_value h + hex_value l), r'')
              | _ => None
              end
        | EmptyString => None
        end
      else Some (c, r)
  end.

End Js.

Global Arguments Js.of_Z : simpl never.
Global Arguments Js.of_nat : simpl never.
Global Arguments Js.ge : simpl never.
Global Arguments Js.div : simpl never.
Global Arguments Js.mul : simpl never.
Global Arguments Js.Math_round : simpl never.
Global Arguments Js.sort : simpl never.
Global Arguments Js.JSON_stringify : simpl never.

(** ** Data model ([src/types.ts]) *)

Inductive QuizType := MCQ | MSQ | FIB.

Inductive GenerationState := LOCKED | GENERATING | READY | FAILED.

Record Question := {
  question : string;
  type : QuizType;
  options : option (list string);
  correctAnswers : list string;
}.

Record Quiz := {
  Quiz_title : string;
  questions : list Question;
}.

(** A quiz is an object that several modules and courses may hold at once:
    the copies that the updaters make with [{...m}] and [{...c}] are shallow
    and share it.  The records below therefore hold a reference to it, and
    the application state holds the objects. *)
Definition ref : Type := nat.

(** [Module] of the source ([quizAttempts] is written by the handlers
    although the interface does not list it). *)
Record CourseModule := {
  Module_title : string;
  objective : string;
  content : option string;
  quiz : option ref;
  Module_isCompleted : bool;
  generationState : GenerationState;
  quizAttempts : nat;
  quizScore : option Js.number;
}.

Record Badge := {
  courseTitle : string;
  score : Js.number;
  dateAwarded : string;
}.

Record Course := {
  Course_id : string;
  Course_title : string;
  Course_description : string;
  modules : list CourseModule;
  badge : option Badge;
  unlockedModuleIndex : nat;
  Course_isCompleted : bool;
  mockTest : option ref;
  mockTestState : option GenerationState;
  mockTestScore : option Js.number;
}.

Record LearningPath := {
  Path_id : string;
  Path_title : string;
  Path_description : string;
  courses : list Course;
  unlockedCourseIndex : nat;
}.

(** What the gateway returns for an outline. *)
Record ModuleOutline := {
  mo_title : string;
  mo_objective : string;
}.

Record CourseOutline := {
  co_title : string;
  co_description : string;
  co_modules : list ModuleOutline;
}.

Record PathOutline := {
  po_title : string;
  po_description : string;
  po_courses : list CourseOutline;
}.

(** An awaited gateway call either resolves or rejects. *)
Inductive Settled (A : Type) :=
| Resolved (a : A)
| Rejected (message : string).
Arguments Resolved {A} a.
Arguments Rejected {A} message.

Inductive View :=
| dashboard | create_hub | create_topic | create_document | create_path
| path | course | module | quiz_view | quiz_results | quiz_answers
| loading_view | profile | mock_test | mock_test_results.

(** ** The state of [MainApp]: its [useState] cells, the [user] prop and
    the quiz objects. *)
Module App.

Record State := {
  apiKey : option string;
  heap : gmap ref Quiz;
  courses : list Course;
  learningPaths : list LearningPath;
  activePath : option LearningPath;
  activeCourse : option Course;
  activeModule : option (CourseModule * nat);
  view : View;
  loading : bool;
  error : option string;
  quizScore : nat * nat;
  mockTestScore : nat * nat;
}.

Definition setHeap (h : gmap ref Quiz) (s : State) : State :=
  {| apiKey := apiKey s; heap := h; courses := courses s;
     learningPaths := learningPaths s; activePath := activePath s;
     activeCourse := activeCourse s; activeModule := activeModule s;
     view := view s; loading := loading s; error := error s;
     quizScore := quizScore s; mockTestScore := mockTestScore s |}.

Definition setCourses (cs : list Course) (s : State) : State :=
  {| apiKey := apiKey s; heap := heap s; courses := cs;
     learningPaths := learningPaths s; activePath := activePath s;
     activeCourse := activeCourse s; activeModule := activeModule s;
     view := view s; loading := loading s; error := error s;
     quizScore := quizScore s; mockTestScore := mockTestScore s |}.

Definition setLearningPaths (ps : list LearningPath) (s : State) : State :=
  {| apiKey := apiKey s; heap := heap s; courses := courses s;
     learningPaths := ps; activePath := activePath s;
     activeCourse := activeCourse s; activeModule := activeModule s;
     view := view s; loading := loading s; error := error s;
     quizScore := quizScore s; mockTestScore := mockTestScore s |}.

Definition setActivePath (p : option LearningPath) (s : State) : State :=
  {| apiKey := apiKey s; heap := heap s; courses := courses s;
     learningPaths := learningPaths s; activePath := p;
     activeCourse := activeCourse s; activeModule := activeModule s;
     view := view s; loading := loading s; error := error s;
     quizScore := quizScore s; mockTestScore := mockTestScore s |}.

Definition setActiveCourse (c : option Course) (s : State) : State :=
  {| apiKey := apiKey s; heap := heap s; courses := courses s;
     learningPaths := learningPaths s; activePath := activePath s;
     activeCourse := c; activeModule := activeModule s;
     view := view s; loading := loading s; error := error s;
     quizScore := quizScore s; mockTestScore := mockTestScore s |}.

Definition setActiveModule (m : option (CourseModule * nat)) (s : State) : State :=
  {| apiKey := apiKey s; heap := heap s; courses := courses s;
     learningPaths := learningPaths s; activePath := activePath s;
     activeCourse := activeCourse s; activeModule := m;
     view := view s; loading := loading s; error := error s;
     quizScore := quizScore s; mockTestScore := mockTestScore s |}.

Definition setView (v : View) (s : State) : State :=
  {| apiKey := apiKey s; heap := heap s; courses := courses s;
     learningPaths := learningPaths s; activePath := activePath s;
     activeCourse := activeCourse s; activeModule := activeModule s;
     view := v; loading := loading s; error := error s;
     quizScore := quizScore s; mockTestScore := mockTestScore s |}.

Definition setLoading (b : bool) (s : State) : State :=
  {| apiKey := apiKey s; heap := heap s; courses := courses s;
     learningPaths := learningPaths s; activePath := activePath s;
     activeCourse := activeCourse s; activeModule := activeModule s;
     view := view s; loading := b; error := error s;
     quizScore := quizScore s; mockTestScore := mockTestScore s |}.

Definition setError (e : option string) (s : State) : State :=
  {| apiKey := apiKey s; heap := heap s; courses := courses s;
     learningPaths := learningPaths s; activePath := activePath s;
     activeCourse := activeCourse s; activeModule := activeModule s;
     view := view s; loading := loading s; error := e;
     quizScore := quizScore s; mockTestScore := mockTestScore s |}.

Definition setQuizScore (r : nat * nat) (s : State) : State :=
  {| apiKey := apiKey s; heap := heap s; courses := courses s;
     learningPaths := learningPaths s; activePath := activePath s;
     activeCourse := activeCourse s; activeModule := activeModule s;
     view := view s; loading := loading s; error := error s;
     quizScore := r; mockTestScore := mockTestScore s |}.

Definition setMockTestScore (r : nat * nat) (s : State) : State :=
  {| apiKey := apiKey s; heap := heap s; courses := courses s;
     learningPaths := learningPaths s; activePath := activePath s;
     activeCourse := activeCourse s; activeModule := activeModule s;
     view := view s; loading := loading s; error := error s;
     quizScore := quizScore s; mockTestScore := r |}.

(** [setActiveCourse] called from inside an updater, once for every course
    the updater rebuilt: the last call is the one that stays. *)
Definition setActiveCourse_each (calls : list Course) (s : State) : State :=
  match last calls with
  | Some c => setActiveCourse (Some c) s
  | None => s
  end.

Definition setActivePath_each (calls : list LearningPath) (s : State) : State :=
  match last calls with
  | Some p => setActivePath (Some p) s
  | None => s
  end.

End App.

Local Open Scope nat_scope.

Global Instance View_eq_dec : EqDecision View.
Proof. solve_decision. Defined.

Global Instance GenerationState_eq_dec : EqDecision GenerationState.
Proof. solve_decision. Defined.

(** ** [Array.prototype.findIndex]; [None] stands for [-1]. *)
Fixpoint findIndex {A : Type} (p : A → bool) (l : list A) : option nat :=
  match l with
  | [] => None
  | x :: r => if p x then Some 0 else S <$> findIndex p r
  end.

(** ** Creation ([handleCreateCourse], [handleCreateLearningPath]) *)

(** [{ ...m, isCompleted: false, generationState: LOCKED, quizAttempts: 0 }] *)
Definition newModule (m : ModuleOutline) : CourseModule :=
  {| Module_title := mo_title m; objective := mo_objective m;
     content := None; quiz := None; Module_isCompleted := false;
     generationState := LOCKED; quizAttempts := 0; quizScore := None |}.

(** [newCourse] of [handleCreateCourse]; [now] is [new Date().toISOString()]. *)
Definition newCourse (now : string) (outline : CourseOutline) : Course :=
  {| Course_id := now; Course_title := co_title outline;
     Course_description := co_description outline;
     modules := map newModule (co_modules outline);
     badge := None; unlockedModuleIndex := 0; Course_isCompleted := false;
     mockTest := None; mockTestState := None; mockTestScore := None |}.

(** A course of [newPath]: its id is the date followed by its title. *)
Definition newPathCourse (now : string) (c : CourseOutline) : Course :=
  {| Course_id := now +:+ co_title c; Course_title := co_title c;
     Course_description := co_description c;
     modules := map newModule (co_modules c);
     badge := None; unlockedModuleIndex := 0; Course_isCompleted := false;
     mockTest := None; mockTestState := None; mockTestScore := None |}.

(** [newPath] of [handleCreateLearningPath]; [now] is the date read for the
    path, [nows i] the one read while the course at index [i] is built. *)
Definition newPath (now : string) (nows : nat → string) (outline : PathOutline)
  : LearningPath :=
  {| Path_id := now; Path_title := po_title outline;
     Path_description := po_description outline;
     unlockedCourseIndex := 0;
     courses := imap (λ i c, newPathCourse (nows i) c) (po_courses outline) |}.

(** The part of [handleCreateCourse] that runs before the gateway answers.
    The boolean tells whether the gateway is called. *)
Definition handleCreateCourse_call (s : App.State) : App.State * bool :=
  if negb (Js.truthy (App.apiKey s)) then
    (App.setView profile
       (App.setError
          (Some "Please set your Gemini API key in your profile before creating a course.")
          s),
     false)
  else (App.setView loading_view (App.setError None (App.setLoading true s)), true).

(** The part that runs when the gateway has answered ([try], [catch] and
    [finally]). *)
Definition handleCreateCourse_settle
    (now : string) (r : Settled CourseOutline) (s : App.State) : App.State :=
  App.setLoading false
    match r with
    | Resolved outline =>
        let nc := newCourse now outline in
        App.setView course
          (App.setActiveCourse (Some nc) (App.setCourses (App.courses s ++ [nc]) s))
    | Rejected message => App.setView create_topic (App.setError (Some message) s)
    end.

Definition handleCreateLearningPath_call (s : App.State) : App.State * bool :=
  if negb (Js.truthy (App.apiKey s)) then
    (App.setView profile
       (App.setError
          (Some "Please set your Gemini API key in your profile before creating a path.")
          s),
     false)
  else (App.setView loading_view (App.setError None (App.setLoading true s)), true).

Definition handleCreateLearningPath_settle
    (now : string) (nows : nat → string) (r : Settled PathOutline) (s : App.State)
  : App.State :=
  App.setLoading false
    match r with
    | Resolved outline =>
        let np := newPath now nows outline in
        App.setView path
          (App.setActivePath (Some np)
             (App.setLearningPaths (App.learningPaths s ++ [np]) s))
    | Rejected message => App.setView create_path (App.setError (Some message) s)
    end.

(** ** Module generation ([handleGenerateModule]) *)

(** [{ ...m, generationState: state, content, quiz }]: the three keys are
    always written, with [undefined] for an argument that was not passed. *)
Definition setModuleState
    (state : GenerationState) (content : option string) (quiz : option ref)
    (m : CourseModule) : CourseModule :=
  {| Module_title := Module_title m; objective := objective m;
     content := content; quiz := quiz;
     Module_isCompleted := Module_isCompleted m;
     generationState := state; quizAttempts := quizAttempts m;
     quizScore := quizScore m |}.

Definition Course_withModules (ms : list CourseModule) (c : Course) : Course :=
  {| Course_id := Course_id c; Course_title := Course_title c;
     Course_description := Course_description c; modules := ms;
     badge := badge c; unlockedModuleIndex := unlockedModuleIndex c;
     Course_isCompleted := Course_isCompleted c; mockTest := mockTest c;
     mockTestState := mockTestState c; mockTestScore := mockTestScore c |}.

Definition Path_withCourses (cs : list Course) (p : LearningPath) : LearningPath :=
  {| Path_id := Path_id p; Path_title := Path_title p;
     Path_description := Path_description p; courses := cs;
     unlockedCourseIndex := unlockedCourseIndex p |}.

(** [courseUpdater] of [updateModuleState].  [updatedModules[moduleIndex] =
    ...] beyond the end of the array would extend it with an object that has
    no [title], [objective] or [isCompleted]: such a value is not a
    [Module], and the model stops there with [None]. *)
Definition generate_courseUpdater
    (activeId : string) (moduleIndex : nat)
    (state : GenerationState) (content : option string) (quiz : option ref)
    (c : Course) : option Course :=
  if String.eqb (Course_id c) activeId then
    match modules c !! moduleIndex with
    | Some m =>
        Some (Course_withModules
                (<[moduleIndex := setModuleState state content quiz m]> (modules c)) c)
    | None => None
    end
  else Some c.

Definition hasId (activeId : string) (c : Course) : bool :=
  String.eqb (Course_id c) activeId.

(** [updateModuleState]: the updater runs over the courses and over the
    courses of every learning path, and calls [setActiveCourse] on each
    course it rebuilds. *)
Definition updateModuleState
    (activeId : string) (moduleIndex : nat)
    (state : GenerationState) (content : option string) (quiz : option ref)
    (s : App.State) : option App.State :=
  let upd := generate_courseUpdater activeId moduleIndex state content quiz in
  cs ← mapM upd (App.courses s);
  ps ← mapM (λ p, pcs ← mapM upd (courses p); Some (Path_withCourses pcs p))
            (App.learningPaths s);
  Some (App.setActiveCourse_each
          (filter (λ c, hasId activeId c = true) (cs ++ concat (map courses ps)))
          (App.setLearningPaths ps (App.setCourses cs s))).

(** What the pending gateway call keeps from the render it was started in:
    [activeCourse] and [moduleIndex]. *)
Record Pending := {
  pending_course : Course;
  pending_index : nat;
}.

(** [handleGenerateModule] up to its [await].  Reading
    [activeCourse.modules[moduleIndex].title] of a module that does not exist
    throws inside the [try], which the [catch] turns into [FAILED] at once. *)
Definition handleGenerateModule_call (moduleIndex : nat) (s : App.State)
  : option (App.State * option Pending) :=
  match App.activeCourse s with
  | Some ac =>
      if Js.truthy (App.apiKey s) then
        s1 ← updateModuleState (Course_id ac) moduleIndex GENERATING None None s;
        match modules ac !! moduleIndex with
        | Some _ =>
            Some (s1, Some {| pending_course := ac; pending_index := moduleIndex |})
        | None =>
            s2 ← updateModuleState (Course_id ac) moduleIndex FAILED None None s1;
            Some (s2, None)
        end
      else Some (s, None)
  | None => Some (s, None)
  end.

(** [handleGenerateModule] after its [await]: the gateway has resolved with
    [{ content, quiz }] (the quiz is a new object) or has rejected. *)
Definition handleGenerateModule_settle
    (p : Pending) (r : Settled (string * Quiz)) (s : App.State) : option App.State :=
  match r with
  | Resolved (text, q) =>
      let l := fresh (dom (App.heap s)) in
      updateModuleState (Course_id (pending_course p)) (pending_index p)
        READY (Some text) (Some l) (App.setHeap (<[l := q]> (App.heap s)) s)
  | Rejected _ =>
      updateModuleState (Course_id (pending_course p)) (pending_index p)
        FAILED None None s
  end.

(** The whole handler when nothing else happens while the gateway works. *)
Definition handleGenerateModule
    (moduleIndex : nat) (r : Settled (string * Quiz)) (s : App.State)
  : option App.State :=
  '(s1, pending) ← handleGenerateModule_call moduleIndex s;
  match pending with
  | Some p => handleGenerateModule_settle p r s1
  | None => Some s1
  end.

(** Every course of the state: the courses, then those of the learning
    paths. *)
Definition allCourses (s : App.State) : list Course :=
  App.courses s ++ concat (map courses (App.learningPaths s)).

(** The module index exists in every course that carries the id. *)
Definition inRange (activeId : string) (moduleIndex : nat) (s : App.State) : Prop :=
  ∀ c, c ∈ allCourses s → Course_id c = activeId → moduleIndex < length (modules c).

(** ** Grading

    The loop that opens both [handleQuizSubmit] and [handleMockTestSubmit]:

      quiz.questions.forEach((q, index) => {
        const userAnswers = answers[index]?.sort() || [];
        const correctAnswers = q.correctAnswers.sort();
        if (JSON.stringify(userAnswers) === JSON.stringify(correctAnswers)) score++;
      });

    Both calls of [sort] reorder the array they are called on, so the loop
    also returns the questions and the answers as it leaves them. *)

Definition Question_withCorrectAnswers (l : list string) (q : Question) : Question :=
  {| question := question q; type := type q; options := options q;
     correctAnswers := l |}.

Fixpoint gradeFrom
    (index : nat) (qs : list Question) (answers : gmap nat (list string)) (score : nat)
  : nat * list Question * gmap nat (list string) :=
  match qs with
  | [] => (score, [], answers)
  | q :: rest =>
      let userAnswers := from_option Js.sort [] (answers !! index) in
      let answers1 :=
        from_option (λ a, <[index := Js.sort a]> answers) answers (answers !! index) in
      let correct := Js.sort (correctAnswers q) in
      let score1 :=
        if String.eqb (Js.JSON_stringify userAnswers) (Js.JSON_stringify correct)
        then S score else score in
      let '(score2, rest2, answers2) := gradeFrom (S index) rest answers1 score1 in
      (score2, Question_withCorrectAnswers correct q :: rest2, answers2)
  end.

Record Graded := {
  graded_score : nat;
  graded_quiz : Quiz;
  graded_answers : gmap nat (list string);
}.

Definition gradeLoop (qz : Quiz) (answers : gmap nat (list string)) : Graded :=
  let '(sc, qs, ans) := gradeFrom 0 (questions qz) answers 0 in
  {| graded_score := sc;
     graded_quiz := {| Quiz_title := Quiz_title qz; questions := qs |};
     graded_answers := ans |}.

(** [Math.round((score / quiz.questions.length) * 100)] *)
Definition percentageOf (score total : nat) : Js.number :=
  Js.Math_round (Js.mul (Js.div (Js.of_nat score) (Js.of_nat total)) (Js.of_Z 100)).

(** [m.quizAttempts || 0] *)
Definition or_zero (n : nat) : nat := if n =? 0 then 0 else n.

(** ** Module quiz ([handleQuizSubmit]) *)

(** [{ ...m, isCompleted: true, quizScore: percentage, quizAttempts: 0 }] *)
Definition passModule (percentage : Js.number) (m : CourseModule) : CourseModule :=
  {| Module_title := Module_title m; objective := objective m;
     content := content m; quiz := quiz m; Module_isCompleted := true;
     generationState := generationState m; quizAttempts := 0;
     quizScore := Some percentage |}.

(** [{ ...m, quizAttempts: (m.quizAttempts || 0) + 1 }] *)
Definition failModule (m : CourseModule) : CourseModule :=
  {| Module_title := Module_title m; objective := objective m;
     content := content m; quiz := quiz m;
     Module_isCompleted := Module_isCompleted m;
     generationState := generationState m;
     quizAttempts := or_zero (quizAttempts m) + 1;
     quizScore := quizScore m |}.

(** [courseUpdater] of [handleQuizSubmit], without its call of
    [setActiveCourse]. *)
Definition quiz_courseUpdater
    (activeId : string) (activeIndex : nat) (percentage : Js.number) (c : Course)
  : Course :=
  if negb (String.eqb (Course_id c) activeId) then c
  else
    let updatedModules :=
      if Js.ge percentage (Js.of_Z 80) then
        imap (λ i m, if i =? activeIndex then passModule percentage m else m) (modules c)
      else
        imap (λ i m, if i =? activeIndex then failModule m else m) (modules c) in
    let newUnlockedIndex :=
      if Js.ge percentage (Js.of_Z 80) && (unlockedModuleIndex c =? activeIndex)
      then unlockedModuleIndex c + 1 else unlockedModuleIndex c in
    let isCourseComplete := forallb Module_isCompleted updatedModules in
    {| Course_id := Course_id c; Course_title := Course_title c;
       Course_description := Course_description c; modules := updatedModules;
       badge := badge c; unlockedModuleIndex := newUnlockedIndex;
       Course_isCompleted := if isCourseComplete then true else Course_isCompleted c;
       mockTest := mockTest c; mockTestState := mockTestState c;
       mockTestScore := mockTestScore c |}.

(** The function given to [prevPaths.map] in [handleQuizSubmit], without its
    calls of [setActiveCourse] and [setActivePath]. *)
Definition quiz_pathUpdater
    (activePathId activeId : string) (activeIndex : nat) (percentage : Js.number)
    (p : LearningPath) : LearningPath :=
  if negb (String.eqb (Path_id p) activePathId) then p
  else
    let updatedPathCourses :=
      map (quiz_courseUpdater activeId activeIndex percentage) (courses p) in
    let currentCourseIndex := findIndex (hasId activeId) updatedPathCourses in
    let newUnlockedCourseIndex :=
      match currentCourseIndex with
      | Some i =>
          if from_option Course_isCompleted false (updatedPathCourses !! i)
             && (i =? unlockedCourseIndex p)
          then unlockedCourseIndex p + 1 else unlockedCourseIndex p
      | None => unlockedCourseIndex p
      end in
    {| Path_id := Path_id p; Path_title := Path_title p;
       Path_description := Path_description p; courses := updatedPathCourses;
       unlockedCourseIndex := newUnlockedCourseIndex |}.

Definition hasPathId (activePathId : string) (p : LearningPath) : bool :=
  String.eqb (Path_id p) activePathId.

Definition handleQuizSubmit (answers : gmap nat (list string)) (s : App.State)
  : App.State :=
  match App.activeModule s, App.activeCourse s with
  | Some (activeModule, activeIndex), Some ac =>
      match quiz activeModule with
      | Some l =>
          match App.heap s !! l with
          | Some qz =>
              let g := gradeLoop qz answers in
              let total := length (questions (graded_quiz g)) in
              let percentage := percentageOf (graded_score g) total in
              let upd := quiz_courseUpdater (Course_id ac) activeIndex percentage in
              let s1 := App.setHeap (<[l := graded_quiz g]> (App.heap s)) s in
              let s2 := App.setQuizScore (graded_score g, total) s1 in
              let cs := map upd (App.courses s2) in
              let s3 :=
                App.setActiveCourse_each
                  (filter (λ c, hasId (Course_id ac) c = true) cs)
                  (App.setCourses cs s2) in
              let s4 :=
                match App.activePath s with
                | Some ap =>
                    let pupd :=
                      quiz_pathUpdater (Path_id ap) (Course_id ac) activeIndex percentage in
                    let ps := map pupd (App.learningPaths s3) in
                    let touched := filter (λ p, hasPathId (Path_id ap) p = true) ps in
                    App.setActivePath_each touched
                      (App.setActiveCourse_each
                         (filter (λ c, hasId (Course_id ac) c = true)
                                 (concat (map courses touched)))
                         (App.setLearningPaths ps s3))
                | None => s3
                end in
              App.setView quiz_results s4
          | None => s
          end
      | None => s
      end
  | _, _ => s
  end.

(** ** Mock test ([handleMockTestSubmit], [getBadgeStyling]) *)

(** [newBadge]; [today] is [new Date().toLocaleDateString()]. *)
Definition newBadgeOf (title : string) (today : string) (percentage : Js.number)
  : option Badge :=
  if Js.ge percentage (Js.of_Z 70) then
    if Js.ge percentage (Js.of_Z 80) then
      Some {| courseTitle := title; score := percentage; dateAwarded := today |}
    else None
  else None.

(** [{ ...c, mockTestScore: percentage, ...(newBadge && { badge: newBadge }) }] *)
Definition mock_courseUpdater
    (activeId : string) (percentage : Js.number) (newBadge : option Badge) (c : Course)
  : Course :=
  if String.eqb (Course_id c) activeId then
    {| Course_id := Course_id c; Course_title := Course_title c;
       Course_description := Course_description c; modules := modules c;
       badge := match newBadge with Some b => Some b | None => badge c end;
       unlockedModuleIndex := unlockedModuleIndex c;
       Course_isCompleted := Course_isCompleted c; mockTest := mockTest c;
       mockTestState := mockTestState c; mockTestScore := Some percentage |}
  else c.

Definition handleMockTestSubmit
    (today : string) (answers : gmap nat (list string)) (s : App.State) : App.State :=
  match App.activeCourse s with
  | Some ac =>
      match mockTest ac with
      | Some l =>
          match App.heap s !! l with
          | Some qz =>
              let g := gradeLoop qz answers in
              let total := length (questions (graded_quiz g)) in
              let percentage := percentageOf (graded_score g) total in
              let newBadge := newBadgeOf (Course_title ac) today percentage in
              let upd := mock_courseUpdater (Course_id ac) percentage newBadge in
              let s1 := App.setHeap (<[l := graded_quiz g]> (App.heap s)) s in
              let s2 := App.setMockTestScore (graded_score g, total) s1 in
              let cs := map upd (App.courses s2) in
              let ps :=
                map (λ p, Path_withCourses (map upd (courses p)) p)
                    (App.learningPaths s2) in
              App.setView mock_test_results
                (App.setActiveCourse_each
                   (filter (λ c, hasId (Course_id ac) c = true)
                           (cs ++ concat (map courses ps)))
                   (App.setLearningPaths ps (App.setCourses cs s2)))
          | None => s
          end
      | None => s
      end
  | None => s
  end.

Inductive BadgeName := Gold | Silver | Bronze.

(** [getBadgeStyling(score).name] *)
Definition getBadgeStyling (sc : Js.number) : BadgeName :=
  if Js.ge sc (Js.of_Z 90) then Gold
  else if Js.ge sc (Js.of_Z 85) then Silver
  else Bronze.

(** ** Navigation: [setAppView] and the clicks that lead to a quiz *)

Definition keepsCourse (v : View) : bool :=
  match v with
  | course | module | quiz_view | quiz_results | quiz_answers
  | mock_test | mock_test_results => true
  | _ => false
  end.

Definition setAppView (newView : View) (s : App.State) : App.State :=
  let s1 :=
    if negb (keepsCourse newView)
    then App.setActiveModule None (App.setActiveCourse None s) else s in
  let s2 := if bool_decide (newView ≠ path) then App.setActivePath None s1 else s1 in
  let s3 := if bool_decide (newView = dashboard) then App.setActivePath None s2 else s2 in
  App.setView newView s3.

Definition setViewAndActiveModule (m : CourseModule) (index : nat) (s : App.State)
  : App.State :=
  App.setView module (App.setActiveModule (Some (m, index)) s).

(** The path card of [Dashboard]:
    [setActivePath(path); setView('path')], where [setView] is [setAppView]. *)
Definition Dashboard_pathClick (p : LearningPath) (s : App.State) : App.State :=
  setAppView path (App.setActivePath (Some p) s).

(** The course card of [Dashboard]. *)
Definition Dashboard_courseClick (c : Course) (s : App.State) : App.State :=
  setAppView course (App.setActiveCourse (Some c) s).

(** [handleCourseClick] of [PathView], which is mounted in the view [path]
    while a path is active. *)
Definition PathView_handleCourseClick (index : nat) (s : App.State) : App.State :=
  match App.activePath s with
  | Some ap =>
      match courses ap !! index with
      | Some c =>
          if bool_decide (App.view s = path) && (index <=? unlockedCourseIndex ap)
          then setAppView course (App.setActiveCourse (Some c) s)
          else s
      | None => s
      end
  | None => s
  end.

(** The click on a module row of [CourseView]. *)
Definition CourseView_moduleClick (index : nat) (s : App.State) : App.State :=
  match App.activeCourse s with
  | Some ac =>
      match modules ac !! index with
      | Some m =>
          if bool_decide (App.view s = course)
             && bool_decide (generationState m = READY)
          then setAppView module (setViewAndActiveModule m index s)
          else s
      | None => s
      end
  | None => s
  end.

(** The button of [ModuleView] that starts the quiz. *)
Definition ModuleView_startQuiz (s : App.State) : App.State :=
  if bool_decide (App.view s = module) && bool_decide (is_Some (App.activeModule s))
  then setAppView quiz_view s else s.

(** The submit button of [QuizView], mounted in the view [quiz] when the
    active module has a quiz. *)
Definition QuizView_submit (answers : gmap nat (list string)) (s : App.State)
  : App.State :=
  if bool_decide (App.view s = quiz_view) then handleQuizSubmit answers s else s.

(** ** Mock test generation ([handleGenerateMockTest]) *)

(** [{ ...c, mockTestState: state }] *)
Definition Course_withMockTestState (st : GenerationState) (c : Course) : Course :=
  {| Course_id := Course_id c; Course_title := Course_title c;
     Course_description := Course_description c; modules := modules c;
     badge := badge c; unlockedModuleIndex := unlockedModuleIndex c;
     Course_isCompleted := Course_isCompleted c; mockTest := mockTest c;
     mockTestState := Some st; mockTestScore := mockTestScore c |}.

(** [{ ...c, mockTest: mockTestQuiz, mockTestState: READY }] *)
Definition Course_withMockTest (l : ref) (c : Course) : Course :=
  {| Course_id := Course_id c; Course_title := Course_title c;
     Course_description := Course_description c; modules := modules c;
     badge := badge c; unlockedModuleIndex := unlockedModuleIndex c;
     Course_isCompleted := Course_isCompleted c; mockTest := Some l;
     mockTestState := Some READY; mockTestScore := mockTestScore c |}.

(** The three updaters of [handleGenerateMockTest] rebuild the courses with
    the id of the active course, in the courses and in every learning path,
    and call [setActiveCourse] on each. *)
Definition updateActiveCourse (activeId : string) (f : Course → Course) (s : App.State)
  : App.State :=
  let upd c := if String.eqb (Course_id c) activeId then f c else c in
  let cs := map upd (App.courses s) in
  let ps := map (λ p, Path_withCourses (map upd (courses p)) p) (App.learningPaths s) in
  App.setActiveCourse_each
    (filter (λ c, hasId activeId c = true) (cs ++ concat (map courses ps)))
    (App.setLearningPaths ps (App.setCourses cs s)).

Definition handleGenerateMockTest_call (s : App.State) : App.State * option Course :=
  match App.activeCourse s with
  | Some ac =>
      if Js.truthy (App.apiKey s) then
        (updateActiveCourse (Course_id ac) (Course_withMockTestState GENERATING) s,
         Some ac)
      else (s, None)
  | None => (s, None)
  end.

Definition handleGenerateMockTest_settle
    (ac : Course) (r : Settled Quiz) (s : App.State) : App.State :=
  match r with
  | Resolved q =>
      let l := fresh (dom (App.heap s)) in
      updateActiveCourse (Course_id ac) (Course_withMockTest l)
        (App.setHeap (<[l := q]> (App.heap s)) s)
  | Rejected _ => updateActiveCourse (Course_id ac) (Course_withMockTestState FAILED) s
  end.

(** ** The events of [MainApp]

    Every way in which the state changes: the clicks of the components
    (all of which receive [setAppView] as their [setView]), the handlers,
    and the gateway answering.  A click is taken with any argument, also
    one the component would not offer. *)
Inductive Event :=
| Navigate (v : View)
| Sidebar_course (c : Course)
| Sidebar_path (p : LearningPath)
| Sidebar_dashboard
| Breadcrumbs_dashboard
| Breadcrumbs_path
| Breadcrumbs_course
| Dashboard_path (p : LearningPath)
| Dashboard_course (c : Course)
| PathView_course (index : nat)
| CourseView_module (index : nat)
| CourseView_generateModule (index : nat)
| GenerateModule_settled (p : Pending) (r : Settled (string * Quiz))
| CourseView_generateMockTest
| GenerateMockTest_settled (ac : Course) (r : Settled Quiz)
| ModuleView_quiz
| QuizView_submitted (answers : gmap nat (list string))
| MockTestView_submitted (today : string) (answers : gmap nat (list string))
| QuizResultsView_showAnswers
| CreateCourse_called
| CreateCourse_settled (now : string) (r : Settled CourseOutline)
| CreateLearningPath_called
| CreateLearningPath_settled (now : string) (nows : nat → string) (r : Settled PathOutline)
| ProfileView_apiKey (key : option string).

Definition setApiKey (key : option string) (s : App.State) : App.State :=
  {| App.apiKey := key; App.heap := App.heap s; App.courses := App.courses s;
     App.learningPaths := App.learningPaths s; App.activePath := App.activePath s;
     App.activeCourse := App.activeCourse s; App.activeModule := App.activeModule s;
     App.view := App.view s; App.loading := App.loading s; App.error := App.error s;
     App.quizScore := App.quizScore s; App.mockTestScore := App.mockTestScore s |}.

Definition step (e : Event) (s : App.State) : option App.State :=
  match e with
  | Navigate v => Some (setAppView v s)
  | Sidebar_course c =>
      Some (setAppView course (App.setActiveCourse (Some c) (App.setActivePath None s)))
  | Sidebar_path p =>
      Some (setAppView path (App.setActivePath (Some p) (App.setActiveCourse None s)))
  | Sidebar_dashboard | Breadcrumbs_dashboard =>
      Some (setAppView dashboard (App.setActivePath None (App.setActiveCourse None s)))
  | Breadcrumbs_path => Some (setAppView path (App.setActiveCourse None s))
  | Breadcrumbs_course => Some (setAppView course s)
  | Dashboard_path p => Some (Dashboard_pathClick p s)
  | Dashboard_course c => Some (Dashboard_courseClick c s)
  | PathView_course index => Some (PathView_handleCourseClick index s)
  | CourseView_module index => Some (CourseView_moduleClick index s)
  | CourseView_generateModule index => fst <$> handleGenerateModule_call index s
  | GenerateModule_settled p r => handleGenerateModule_settle p r s
  | CourseView_generateMockTest => Some (handleGenerateMockTest_call s).1
  | GenerateMockTest_settled ac r => Some (handleGenerateMockTest_settle ac r s)
  | ModuleView_quiz => Some (ModuleView_startQuiz s)
  | QuizView_submitted answers => Some (QuizView_submit answers s)
  | MockTestView_submitted today answers =>
      Some (if bool_decide (App.view s = mock_test)
            then handleMockTestSubmit today answers s else s)
  | QuizResultsView_showAnswers => Some (App.setView quiz_answers s)
  | CreateCourse_called => Some (handleCreateCourse_call s).1
  | CreateCourse_settled now r => Some (handleCreateCourse_settle now r s)
  | CreateLearningPath_called => Some (handleCreateLearningPath_call s).1
  | CreateLearningPath_settled now nows r =>
      Some (handleCreateLearningPath_settle now nows r s)
  | ProfileView_apiKey key => Some (setApiKey key s)
  end.

Fixpoint run (es : list Event) (s : App.State) : option App.State :=
  match es with
  | [] => Some s
  | e :: rest => step e s ≫= run rest
  end.

(** In the quiz view no learning path is active. *)
Definition quizHasNoPath (s : App.State) : Prop :=
  App.view s = quiz_view → App.activePath s = None.

(** ** The specification's reading of grading

    These definitions follow the words of the specification, not the code;
    the theorems compare the two. *)

(** The selection submitted for a question; nothing submitted is the empty
    selection. *)
Definition submitted (answers : gmap nat (list string)) (index : nat) : list string :=
  default [] (answers !! index).

(** "the submitted set and [correctAnswers] are each sorted and compared" *)
Definition exactlyMatches
    (answers : gmap nat (list string)) (index : nat) (q : Question) : bool :=
  bool_decide (Js.sort (submitted answers index) = Js.sort (correctAnswers q)).

(** "score = count of exactly-matching questions" *)
Definition spec_score (qs : list Question) (answers : gmap nat (list string)) : nat :=
  length (filter (λ iq, exactlyMatches answers iq.1 iq.2 = true) (imap pair qs)).

(** "percentage = round(100 * score / totalQuestions)" on exact fractions,
    a half rounded up: the floor of [100 * score / total + 1/2]. *)
Definition spec_percentage (score total : nat) : Z :=
  ((200 * Z.of_nat score + Z.of_nat total) / (2 * Z.of_nat total))%Z.

(** [x < y] on numbers, for the specification's "percentage < 80". *)
Definition Js_lt (x y : Js.number) : bool := SFltb x y.

(** A question as the grading loop leaves it. *)
Definition sortedQuestion (q : Question) : Question :=
  Question_withCorrectAnswers (Js.sort (correctAnswers q)) q.

(** The matching questions counted from [index] on. *)
Fixpoint countFrom
    (index : nat) (qs : list Question) (answers : gmap nat (list string)) : nat :=
  match qs with
  | [] => 0
  | q :: rest =>
      (if exactlyMatches answers index q then 1 else 0) + countFrom (S index) rest answers
  end.

(** A run of gradings on one course: module quizzes and mock tests, each
    with the id of the course that was active, and what the handler had
    computed. *)
Inductive Grading :=
| ModuleQuiz (activeId : string) (activeIndex : nat) (percentage : Js.number)
| MockTest (activeId : string) (percentage : Js.number) (newBadge : option Badge).

Definition grade (c : Course) (g : Grading) : Course :=
  match g with
  | ModuleQuiz activeId activeIndex percentage =>
      quiz_courseUpdater activeId activeIndex percentage c
  | MockTest activeId percentage newBadge =>
      mock_courseUpdater activeId percentage newBadge c
  end.

Definition gradeAll (c : Course) (gs : list Grading) : Course := foldl grade c gs.

Definition allModulesCompleted (c : Course) : bool :=
  forallb Module_isCompleted (modules c).

(** [isCompleted] tells the truth about the modules: the invariant of the
    gradings. *)
Definition completionAgrees (c : Course) : Prop :=
  Course_isCompleted c = allModulesCompleted c.

(** Mock tests submitted one after the other. *)
Definition submitMockTests
    (s : App.State) (l : list (string * gmap nat (list string))) : App.State :=
  foldl (λ st ta, handleMockTestSubmit ta.1 ta.2 st) s l.

Global Instance spec_float_eq_dec : EqDecision spec_float.
Proof. solve_decision. Defined.

(** ** Scenarios

    Concrete states on which the handlers are run in the examples,
    witnesses and counterexamples below. *)

Definition emptyState : App.State :=
  {| App.apiKey := Some "key"; App.heap := ∅; App.courses := [];
     App.learningPaths := []; App.activePath := None; App.activeCourse := None;
     App.activeModule := None; App.view := dashboard; App.loading := false;
     App.error := None; App.quizScore := (0, 0); App.mockTestScore := (0, 0) |}.

(** A single-select question whose answer is [a]. *)
Definition questionA : Question :=
  {| question := "Which one?"; type := MCQ; options := Some ["a"; "b"];
     correctAnswers := ["a"] |}.

(** A multi-select question whose answers the gateway listed as [b], [a]. *)
Definition questionBA : Question :=
  {| question := "Which ones?"; type := MSQ; options := Some ["a"; "b"; "c"];
     correctAnswers := ["b"; "a"] |}.

(** The first [n] questions answered with [a], the others left open. *)
Definition firstRight (n : nat) : gmap nat (list string) :=
  list_to_map ((λ i, (i, ["a"])) <$> seq 0 n).

Definition doneModule (title : string) (q : option ref) : CourseModule :=
  {| Module_title := title; objective := "objective"; content := Some "text";
     quiz := q; Module_isCompleted := true; generationState := READY;
     quizAttempts := 0; quizScore := Some (Js.of_Z 100) |}.

Definition readyModule (title : string) (q : option ref) : CourseModule :=
  {| Module_title := title; objective := "objective"; content := Some "text";
     quiz := q; Module_isCompleted := false; generationState := READY;
     quizAttempts := 0; quizScore := None |}.

(** A finished course whose mock test (the quiz object [7]) is ready. *)
Definition finishedCourse : Course :=
  {| Course_id := "2024-01-01T00:00:00.000Z"; Course_title := "Algebra";
     Course_description := "Groups and rings";
     modules := [doneModule "Groups" None]; badge := None;
     unlockedModuleIndex := 1; Course_isCompleted := true;
     mockTest := Some 7; mockTestState := Some READY; mockTestScore := None |}.

(** The same course after a first mock test with every answer right. *)
Definition awardedCourse : Course :=
  {| Course_id := "2024-01-01T00:00:00.000Z"; Course_title := "Algebra";
     Course_description := "Groups and rings";
     modules := [doneModule "Groups" None];
     badge := Some {| courseTitle := "Algebra"; score := Js.of_Z 100;
                      dateAwarded := "1/1/2024" |};
     unlockedModuleIndex := 1; Course_isCompleted := true;
     mockTest := Some 7; mockTestState := Some READY;
     mockTestScore := Some (Js.of_Z 100) |}.

(** The state in which the mock test of the course [c], the quiz [qz], is
    open. *)
Definition mockTestState_of (c : Course) (qz : Quiz) : App.State :=
  App.setView mock_test
    (App.setActiveCourse (Some c)
       (App.setCourses [c] (App.setHeap {[ 7 := qz ]} emptyState))).

(** A mock test of forty questions. *)
Definition quiz40 : Quiz :=
  {| Quiz_title := "Mock test"; questions := replicate 40 questionA |}.

(** A mock test of five questions. *)
Definition quiz5 : Quiz :=
  {| Quiz_title := "Mock test"; questions := replicate 5 questionA |}.

(** A module quiz of four questions, the second one multi-select. *)
Definition quiz4 : Quiz :=
  {| Quiz_title := "Quiz";
     questions := [questionA; questionBA; questionA; questionA] |}.

(** Every question right; the options of the second question picked in the
    order [a], [b]. *)
Definition answers4of4 : gmap nat (list string) :=
  {[ 0 := ["a"]; 1 := ["a"; "b"]; 2 := ["a"]; 3 := ["a"] ]}.

(** The second question with one of its two options only. *)
Definition answers3of4 : gmap nat (list string) :=
  {[ 0 := ["a"]; 1 := ["a"]; 2 := ["a"]; 3 := ["a"] ]}.

(** A course of two modules: the first is generated (its quiz is the object
    [3]), the second is still locked. *)
Definition twoModuleCourse : Course :=
  {| Course_id := "2024-02-02T00:00:00.000Z"; Course_title := "Linear algebra";
     Course_description := "Vectors and matrices";
     modules := [readyModule "Vectors" (Some 3);
                 newModule {| mo_title := "Matrices"; mo_objective := "objective" |}];
     badge := None; unlockedModuleIndex := 0; Course_isCompleted := false;
     mockTest := None; mockTestState := None; mockTestScore := None |}.

(** The quiz of the first module of [twoModuleCourse] is open. *)
Definition quizState : App.State :=
  App.setView quiz_view
    (App.setActiveModule (Some (readyModule "Vectors" (Some 3), 0))
       (App.setActiveCourse (Some twoModuleCourse)
          (App.setCourses [twoModuleCourse]
             (App.setHeap {[ 3 := quiz4 ]} emptyState)))).

(** An outline without modules, and one with two. *)
Definition emptyOutline : CourseOutline :=
  {| co_title := "Empty"; co_description := "Nothing to learn"; co_modules := [] |}.

Definition twoModuleOutline : CourseOutline :=
  {| co_title := "Linear algebra"; co_description := "Vectors and matrices";
     co_modules := [ {| mo_title := "Vectors"; mo_objective := "objective" |};
                     {| mo_title := "Matrices"; mo_objective := "objective" |} ] |}.

(** [questionBA] with its answers in the other order, and the quiz with
    it. *)
Definition questionAB : Question :=
  {| question := "Which ones?"; type := MSQ; options := Some ["a"; "b"; "c"];
     correctAnswers := ["a"; "b"] |}.

Definition quiz4_sorted : Quiz :=
  {| Quiz_title := "Quiz";
     questions := [questionA; questionAB; questionA; questionA] |}.

(** [answers4of4] with the second selection in the other order. *)
Definition answers4of4_swapped : gmap nat (list string) :=
  {[ 0 := ["a"]; 1 := ["b"; "a"]; 2 := ["a"]; 3 := ["a"] ]}.

(** A learning path of two courses of one module each; the module of the
    first course is generated, its quiz is the object [3]. *)
Definition basicsCourse : Course :=
  {| Course_id := "2024-04-04T00:00:00.000ZBasics"; Course_title := "Basics";
     Course_description := "First steps";
     modules := [readyModule "Introduction" (Some 3)];
     badge := None; unlockedModuleIndex := 0; Course_isCompleted := false;
     mockTest := None; mockTestState := None; mockTestScore := None |}.

Definition advancedCourse : Course :=
  {| Course_id := "2024-04-04T00:00:00.000ZAdvanced"; Course_title := "Advanced";
     Course_description := "Next steps";
     modules := [newModule {| mo_title := "Depth"; mo_objective := "objective" |}];
     badge := None; unlockedModuleIndex := 0; Course_isCompleted := false;
     mockTest := None; mockTestState := None; mockTestScore := None |}.

Definition demoPath : LearningPath :=
  {| Path_id := "2024-04-04T00:00:00.000Z"; Path_title := "Mathematics";
     Path_description := "From the basics on";
     courses := [basicsCourse; advancedCourse]; unlockedCourseIndex := 0 |}.

(** The dashboard of a user who owns [demoPath]. *)
Definition pathHome : App.State :=
  App.setLearningPaths [demoPath] (App.setHeap {[ 3 := quiz4 ]} emptyState).

(** From the dashboard to the quiz of the first module of the first course
    of the path, click by click. *)
Definition pathQuizOpen : App.State :=
  ModuleView_startQuiz
    (CourseView_moduleClick 0
       (PathView_handleCourseClick 0
          (Dashboard_pathClick demoPath pathHome))).

(** A course whose only module is generated and completed, opened in the
    course view. *)
Definition readyCourse : Course :=
  {| Course_id := "2024-05-05T00:00:00.000Z"; Course_title := "Geometry";
     Course_description := "Points and lines";
     modules := [doneModule "Points" (Some 3)];
     badge := None; unlockedModuleIndex := 1; Course_isCompleted := true;
     mockTest := None; mockTestState := None; mockTestScore := None |}.

Definition readyCourseOpen : App.State :=
  App.setView course
    (App.setActiveCourse (Some readyCourse)
       (App.setCourses [readyCourse] (App.setHeap {[ 3 := quiz4 ]} emptyState))).

(** The same with the course as it is right after its creation. *)
Definition newCourseOpen : App.State :=
  handleCreateCourse_settle "2024-02-02T00:00:00.000Z" (Resolved twoModuleOutline)
    emptyState.

(** ** The result views ([QuizResultsView], [MockTestResultsView])

    What the two views derive from their props: [MainApp] passes them the
    score kept by the handler, the attempts of [activeModule] and the badge
    of [activeCourse]. *)

(** [Math.round((score / totalQuestions) * 100)] of [QuizResultsView]. *)
Definition QuizResultsView_percentage (s : App.State) : Js.number :=
  percentageOf (App.quizScore s).1 (App.quizScore s).2.

(** [passed = percentage >= 80] *)
Definition QuizResultsView_passed (s : App.State) : bool :=
  Js.ge (QuizResultsView_percentage s) (Js.of_Z 80).

(** [attempts={activeModule?.module.quizAttempts || 0}] *)
Definition QuizResultsView_attempts (s : App.State) : nat :=
  match App.activeModule s with
  | Some (m, _) => or_zero (quizAttempts m)
  | None => 0
  end.

(** [!passed && attempts >= 3]: the offer to show the correct answers. *)
Definition QuizResultsView_offersAnswers (s : App.State) : bool :=
  negb (QuizResultsView_passed s) && (3 <=? QuizResultsView_attempts s).

Definition MockTestResultsView_percentage (s : App.State) : Js.number :=
  percentageOf (App.mockTestScore s).1 (App.mockTestScore s).2.

(** [passed = percentage >= 70] *)
Definition MockTestResultsView_passed (s : App.State) : bool :=
  Js.ge (MockTestResultsView_percentage s) (Js.of_Z 70).

(** The badge named under "You Passed!": [passed] and
    [badge={activeCourse?.badge}] is there. *)
Definition MockTestResultsView_badge (s : App.State) : option BadgeName :=
  if MockTestResultsView_passed s then
    b ← (App.activeCourse s ≫= badge); Some (getBadgeStyling (score b))
  else None.

(** Module quizzes submitted one after the other. *)
Definition submitQuizzes (s : App.State) (l : list (gmap nat (list string)))
  : App.State :=
  foldl (λ st answers, handleQuizSubmit answers st) s l.

(** Every module below [unlockedModuleIndex] is completed. *)
Definition unlockedPrefixCompleted (c : Course) : Prop :=
  ∀ i m, i < unlockedModuleIndex c → modules c !! i = Some m →
         Module_isCompleted m = true.

(** The module quizzes of a run address modules that exist. *)
Definition addressesModules (n : nat) (g : Grading) : Prop :=
  match g with
  | ModuleQuiz _ activeIndex _ => activeIndex < n
  | MockTest _ _ _ => True
  end.

(** ** Ticking options ([handleAnswerChange] of [QuizView]) *)

(** [Array.prototype.includes] on strings. *)
Definition includes (l : list string) (x : string) : bool :=
  existsb (String.eqb x) l.

(** The updater given to [setAnswers]: a multi-select option is taken out
    when it is ticked and put at the end when it is not; any other kind of
    question holds the last option chosen. *)
Definition handleAnswerChange
    (qIndex : nat) (answer : string) (ty : QuizType)
    (prev : gmap nat (list string)) : gmap nat (list string) :=
  match ty with
  | MSQ =>
      let currentAnswers := default [] (prev !! qIndex) in
      if includes currentAnswers answer
      then <[qIndex := filter (λ a, a ≠ answer) currentAnswers]> prev
      else <[qIndex := currentAnswers ++ [answer]]> prev
  | _ => <[qIndex := [answer]]> prev
  end.

(** The options of one multi-select question ticked one after the other,
    from an untouched quiz. *)
Definition tickAll (qIndex : nat) (clicks : list string) : gmap nat (list string) :=
  foldl (λ answers a, handleAnswerChange qIndex a MSQ answers) ∅ clicks.

(** The tests of the handlers and of the views on the percentage, read on
    the score: [percentage >= 80] is [score / total >= 79.5 %], and so on. *)
Definition thresholds_agree (sc total : nat) : Prop :=
  (Js.ge (percentageOf sc total) (Js.of_Z 80) = bool_decide (159 * total ≤ 200 * sc))
  ∧ (Js.ge (percentageOf sc total) (Js.of_Z 70) = bool_decide (139 * total ≤ 200 * sc))
  ∧ (Js.ge (percentageOf sc total) (Js.of_Z 85) = bool_decide (169 * total ≤ 200 * sc))
  ∧ (Js.ge (percentageOf sc total) (Js.of_Z 90) = bool_decide (179 * total ≤ 200 * sc)).

(** ** Progress in the learning paths *)

(** What [PathView] locks its courses by: for each learning path, its id
    and its [unlockedCourseIndex]. *)
Definition pathProgress (s : App.State) : list (string * nat) :=
  (λ p, (Path_id p, unlockedCourseIndex p)) <$> App.learningPaths s.

(** ** Generated modules *)

(** A module holds a text and a quiz exactly when it is [READY]. *)
Definition moduleConsistent (m : CourseModule) : Prop :=
  match generationState m with
  | READY => is_Some (content m) ∧ is_Some (quiz m)
  | _ => content m = None ∧ quiz m = None
  end.

Definition courseConsistent (c : Course) : Prop := Forall moduleConsistent (modules c).

Definition coursesConsistent (s : App.State) : Prop :=
  Forall courseConsistent (allCourses s).

(** ** What [MainApp] renders ([renderContent]) *)

(** The component that fills the main area; a quiz is named by its object. *)
Inductive Rendered :=
| ApiKeySetup
| WorldLoader
| ErrorMessage (message : string)
| Dashboard
| ProfileView
| CreationHub
| TopicCreator
| PathCreator
| DocumentCreator
| PathView (p : LearningPath)
| CourseView (c : Course)
| ModuleView (m : CourseModule)
| QuizView (l : ref) (isMockTest : bool)
| QuizResultsView
| QuizAnswersView (l : ref)
| MockTestResultsView.

(** [renderContent]: the loader first, then the error, then the component
    of the view; a view whose component cannot be mounted falls through to
    the dashboard. *)
Definition renderContent (s : App.State) : Rendered :=
  if App.loading s || bool_decide (App.view s = loading_view) then WorldLoader
  else if Js.truthy (App.error s) then ErrorMessage (default EmptyString (App.error s))
  else
    match App.view s with
    | dashboard => Dashboard
    | profile => ProfileView
    | create_hub => CreationHub
    | create_topic => TopicCreator
    | create_path => PathCreator
    | create_document => DocumentCreator
    | path => match App.activePath s with Some p => PathView p | None => Dashboard end
    | course => match App.activeCourse s with Some c => CourseView c | None => Dashboard end
    | module =>
        match App.activeModule s with Some (m, _) => ModuleView m | None => Dashboard end
    | quiz_view =>
        match App.activeModule s ≫= (λ a, quiz a.1) with
        | Some l => QuizView l false
        | None => Dashboard
        end
    | quiz_results => QuizResultsView
    | quiz_answers =>
        match App.activeModule s ≫= (λ a, quiz a.1) with
        | Some l => QuizAnswersView l
        | None => Dashboard
        end
    | mock_test =>
        match App.activeCourse s ≫= mockTest with
        | Some l => QuizView l true
        | None => Dashboard
        end
    | mock_test_results => MockTestResultsView
    | loading_view => Dashboard
    end.

(** [MainApp] returns [ApiKeySetup] alone while the user has no API key. *)
Definition MainApp_render (s : App.State) : Rendered :=
  if negb (Js.truthy (App.apiKey s)) then ApiKeySetup else renderContent s.

(** [handleCreateCourse] is handed to [TopicCreator] and [DocumentCreator],
    [handleCreateLearningPath] to [PathCreator]. *)
Definition offersCourseCreation (r : Rendered) : bool :=
  match r with TopicCreator | DocumentCreator => true | _ => false end.

Definition offersPathCreation (r : Rendered) : bool :=
  match r with PathCreator => true | _ => false end.

(** ** A session: the state with the calls that are under way

    The creators call the creation handlers when they are submitted:
    [TopicCreator] and [PathCreator] at once, [DocumentCreator] at once for
    a pasted text and after the file has been read for a file; submitted
    empty, they set the error.  The handler that [DocumentCreator] calls
    after the read is the one of the render in which the file was
    submitted, with the API key of that render.  The gateway answers a
    creation that was started. *)
Record Session := {
  pendingReads : list (option string);
  pendingCourses : nat;
  pendingPaths : nat;
  app : App.State;
}.

Inductive SessionEvent :=
| Ui (e : Event)
| Creator_submittedEmpty
| DocumentCreator_submittedFile
| FileRead_resolved (i : nat)
| FileRead_rejected (i : nat) (message : string).

Definition Session_withApp (s : App.State) (σ : Session) : Session :=
  {| pendingReads := pendingReads σ; pendingCourses := pendingCourses σ;
     pendingPaths := pendingPaths σ; app := s |}.

Definition Session_step (e : SessionEvent) (σ : Session) : option Session :=
  let s := app σ in
  match e with
  | Ui CreateCourse_called =>
      if offersCourseCreation (MainApp_render s) then
        let r := handleCreateCourse_call s in
        Some {| pendingReads := pendingReads σ;
                pendingCourses := pendingCourses σ + (if r.2 then 1 else 0);
                pendingPaths := pendingPaths σ; app := r.1 |}
      else None
  | Ui CreateLearningPath_called =>
      if offersPathCreation (MainApp_render s) then
        let r := handleCreateLearningPath_call s in
        Some {| pendingReads := pendingReads σ; pendingCourses := pendingCourses σ;
                pendingPaths := pendingPaths σ + (if r.2 then 1 else 0); app := r.1 |}
      else None
  | Ui (CreateCourse_settled now r) =>
      match pendingCourses σ with
      | S n =>
          s' ← step (CreateCourse_settled now r) s;
          Some {| pendingReads := pendingReads σ; pendingCourses := n;
                  pendingPaths := pendingPaths σ; app := s' |}
      | 0 => None
      end
  | Ui (CreateLearningPath_settled now nows r) =>
      match pendingPaths σ with
      | S n =>
          s' ← step (CreateLearningPath_settled now nows r) s;
          Some {| pendingReads := pendingReads σ; pendingCourses := pendingCourses σ;
                  pendingPaths := n; app := s' |}
      | 0 => None
      end
  | Ui e' => s' ← step e' s; Some (Session_withApp s' σ)
  | Creator_submittedEmpty =>
      match MainApp_render s with
      | TopicCreator =>
          Some (Session_withApp
                  (App.setError (Some "Please provide a course topic or exam name.") s) σ)
      | PathCreator =>
          Some (Session_withApp
                  (App.setError (Some "Please provide a major goal (e.g., GATE 2025).") s) σ)
      | DocumentCreator =>
          Some (Session_withApp
                  (App.setError (Some "Please upload a file or paste some text.") s) σ)
      | _ => None
      end
  | DocumentCreator_submittedFile =>
      match MainApp_render s with
      | DocumentCreator =>
          Some {| pendingReads := pendingReads σ ++ [App.apiKey s];
                  pendingCourses := pendingCourses σ; pendingPaths := pendingPaths σ;
                  app := s |}
      | _ => None
      end
  | FileRead_resolved i =>
      key ← pendingReads σ !! i;
      let r := handleCreateCourse_call (setApiKey key s) in
      Some {| pendingReads := delete i (pendingReads σ);
              pendingCourses := pendingCourses σ + (if r.2 then 1 else 0);
              pendingPaths := pendingPaths σ;
              app := setApiKey (App.apiKey s) r.1 |}
  | FileRead_rejected i message =>
      _ ← pendingReads σ !! i;
      Some {| pendingReads := delete i (pendingReads σ);
              pendingCourses := pendingCourses σ; pendingPaths := pendingPaths σ;
              app := App.setError (Some ("Failed to process file: " +:+ message)) s |}
  end.

Fixpoint Session_run (es : list SessionEvent) (σ : Session) : option Session :=
  match es with
  | [] => Some σ
  | e :: rest => Session_step e σ ≫= Session_run rest
  end.

(** Nothing is under way, and an error is set. *)
Definition errorShown (σ : Session) : Prop :=
  pendingReads σ = [] ∧ pendingCourses σ = 0 ∧ pendingPaths σ = 0
  ∧ App.loading (app σ) = false ∧ Js.truthy (App.error (app σ)) = true.

(** The session that starts in [s]. *)
Definition Session_of (s : App.State) : Session :=
  {| pendingReads := []; pendingCourses := 0; pendingPaths := 0; app := s |}.

(** No file is being read, and [loading] is set exactly while one creation
    is under way. *)
Definition creationsAgree (σ : Session) : Prop :=
  pendingReads σ = []
  ∧ pendingCourses σ + pendingPaths σ = if App.loading (app σ) then 1 else 0.

(** The events that call a creation handler, and those by which the
    gateway answers a creation. *)
Definition startsCreation (e : SessionEvent) : bool :=
  match e with
  | Ui CreateCourse_called | Ui CreateLearningPath_called | FileRead_resolved _ => true
  | _ => false
  end.

Definition settlesCreation (e : SessionEvent) : bool :=
  match e with
  | Ui (CreateCourse_settled _ _) | Ui (CreateLearningPath_settled _ _ _) => true
  | _ => false
  end.

(** The files under way were submitted with an API key. *)
Definition readsHaveKeys (σ : Session) : Prop :=
  Forall (λ key, Js.truthy key = true) (pendingReads σ).

(** ** The quiz form ([QuizView]) *)










(** The user owns two courses; the first module of the new one is being
    generated while the other course is open. *)
Definition otherCourseOpen : App.State :=
  Dashboard_courseClick readyCourse
    (App.setCourses [newCourse "2024-02-02T00:00:00.000Z" twoModuleOutline; readyCourse]
       (App.setHeap {[ 3 := quiz4 ]} emptyState)).

(** * The accounts ([useAuth]) *)

Module Auth.

(** [User] of [types.ts]. *)
Record User := {
  User_id : string;
  User_email : string;
  User_name : option string;
  User_age : option Js.number;
  User_bio : option string;
  User_apiKey : option string;
}.

(** [AuthUser]: a user and a password. *)
Record AuthUser := {
  account : User;
  AuthUser_password : option string;
}.

(** [Partial<User>]: for each key, whether the object has it, and then its
    value, which for an optional key may be [undefined]. *)
Record Partial := {
  with_id : option string;
  with_email : option string;
  with_name : option (option string);
  with_age : option (option Js.number);
  with_bio : option (option string);
  with_apiKey : option (option string);
}.

(** [{ ...user, ...updatedUserData }]: a key of the second object wins,
    also when its value is [undefined]. *)
Definition merge (u : User) (d : Partial) : User :=
  {| User_id := default (User_id u) (with_id d);
     User_email := default (User_email u) (with_email d);
     User_name := default (User_name u) (with_name d);
     User_age := default (User_age u) (with_age d);
     User_bio := default (User_bio u) (with_bio d);
     User_apiKey := default (User_apiKey u) (with_apiKey d) |}.

(** ** What [localStorage] gives back

    The storage holds the text that [JSON.stringify] made of a value, and
    [JSON.parse] reads it back.  Strings come back as they were and a key
    that was [undefined] is missing.  A number that is not finite comes back
    as [null], which the application reads like a missing age and which
    stands as [None] here; the negative zero comes back as zero. *)
Definition JSON_number (x : Js.number) : option Js.number :=
  match x with
  | S754_finite _ _ _ => Some x
  | S754_zero _ => Some (S754_zero false)
  | _ => None
  end.

Definition JSON_User (u : User) : User :=
  {| User_id := User_id u; User_email := User_email u; User_name := User_name u;
     User_age := User_age u ≫= JSON_number;
     User_bio := User_bio u; User_apiKey := User_apiKey u |}.

Definition JSON_AuthUser (a : AuthUser) : AuthUser :=
  {| account := JSON_User (account a); AuthUser_password := AuthUser_password a |}.

(** The two keys of [localStorage]; [None] is a key that is not there. *)
Record Storage := {
  quanta_users_db : option (list AuthUser);
  quanta_user : option User;
}.

(** The [user] cell of [AuthProvider] and the storage. *)
Record State := {
  user : option User;
  localStorage : Storage;
}.

(** [JSON.parse(localStorage.getItem(USERS_DB_KEY) || '[]')] *)
Definition users_db (st : State) : list AuthUser :=
  default [] (quanta_users_db (localStorage st)).

Inductive Outcome :=
| Returns (st : State)
| Throws (message : string).

(** The effect that runs when [AuthProvider] is mounted. *)
Definition mount (storage : Storage) : State :=
  {| user := quanta_user storage; localStorage := storage |}.

Definition login (email password : string) (st : State) : Outcome :=
  match
    find (λ u, bool_decide (User_email (account u) = email)
               && bool_decide (AuthUser_password u = Some password))
         (users_db st)
  with
  | Some foundUser =>
      let userToStore := account foundUser in
      Returns
        {| user := Some userToStore;
           localStorage :=
             {| quanta_users_db := quanta_users_db (localStorage st);
                quanta_user := Some (JSON_User userToStore) |} |}
  | None => Throws "Invalid email or password."
  end.

(** [now] is [new Date().toISOString()]. *)
Definition signup (name email password now : string) (st : State) : Outcome :=
  let db := users_db st in
  match find (λ u, bool_decide (User_email (account u) = email)) db with
  | Some _ => Throws "An account with this email already exists."
  | None =>
      let newUser :=
        {| account := {| User_id := now; User_email := email; User_name := Some name;
                         User_age := None; User_bio := None; User_apiKey := None |};
           AuthUser_password := Some password |} in
      Returns
        {| user := user st;
           localStorage :=
             {| quanta_users_db := Some (JSON_AuthUser <$> (db ++ [newUser]));
                quanta_user := quanta_user (localStorage st) |} |}
  end.

Definition logout (st : State) : State :=
  {| user := None;
     localStorage := {| quanta_users_db := quanta_users_db (localStorage st);
                        quanta_user := None |} |}.

Definition updateUser (updatedUserData : Partial) (st : State) : State :=
  match user st with
  | None => st
  | Some u =>
      let updatedUser := merge u updatedUserData in
      let db := users_db st in
      {| user := Some updatedUser;
         localStorage :=
           {| quanta_user := Some (JSON_User updatedUser);
              quanta_users_db :=
                match findIndex (λ a, bool_decide (User_id (account a) = User_id u)) db with
                | Some userIndex =>
                    let oldPassword := db !! userIndex ≫= AuthUser_password in
                    Some (JSON_AuthUser
                            <$> <[userIndex := {| account := updatedUser;
                                                  AuthUser_password := oldPassword |}]> db)
                | None => quanta_users_db (localStorage st)
                end |} |}
  end.

(** What [handleSave] of [ProfileView] hands to [updateUser]; [age] is
    [age ? Number(age) : undefined]. *)
Definition ProfileView_handleSave
    (name : string) (age : option Js.number) (bio apiKey : string) : Partial :=
  {| with_id := None; with_email := None; with_name := Some (Some name);
     with_age := Some age; with_bio := Some (Some bio);
     with_apiKey := Some (Some apiKey) |}.

(** What [handleSaveKey] of [ApiKeySetup] hands to [updateUser]. *)
Definition ApiKeySetup_handleSaveKey (apiKey : string) : Partial :=
  {| with_id := None; with_email := None; with_name := None; with_age := None;
     with_bio := None; with_apiKey := Some (Some apiKey) |}.

Definition emails (db : list AuthUser) : list string := (λ a, User_email (account a)) <$> db.

Definition ids (db : list AuthUser) : list string := (λ a, User_id (account a)) <$> db.

(** An empty browser, and one in which Ada has signed up and logged in. *)
Definition noStorage : State :=
  {| user := None; localStorage := {| quanta_users_db := None; quanta_user := None |} |}.

Definition ada : User :=
  {| User_id := "2024-06-06T00:00:00.000Z"; User_email := "ada@example.org";
     User_name := Some "Ada"; User_age := None; User_bio := None;
     User_apiKey := None |}.

Definition adaLoggedIn : State :=
  {| user := Some ada;
     localStorage :=
       {| quanta_users_db := Some [ {| account := ada; AuthUser_password := Some "secret" |} ];
          quanta_user := Some ada |} |}.

End Auth.

(** * Properties *)

(** ** The JavaScript primitives *)

Example round_57_49 :
  Js.Math_round (Js.mul (Js.div (Js.of_Z 23) (Js.of_Z 40)) (Js.of_Z 100)) = Js.of_Z 57.
Proof. vm_compute. reflexivity. Qed.

Example round_half_up :
  Js.Math_round (Js.div (Js.of_Z 5) (Js.of_Z 2)) = Js.of_Z 3
  ∧ Js.Math_round (Js.div (Js.of_Z (-5)) (Js.of_Z 2)) = Js.of_Z (-2)
  ∧ Js.Math_round (Js.div (Js.of_Z (-1)) (Js.of_Z 4)) = S754_zero true
  ∧ Js.Math_round (Js.div (Js.of_Z 0) (Js.of_Z 0)) = S754_nan.
Proof. vm_compute. done. Qed.

Example nan_is_not_ge : Js.ge (Js.div (Js.of_Z 0) (Js.of_Z 0)) (Js.of_Z 80) = false.
Proof. reflexivity. Qed.

Example sort_by_code_unit : Js.sort ["b"; "a"; "ab"; "B"] = ["B"; "a"; "ab"; "b"].
Proof. vm_compute. reflexivity. Qed.

Example stringify_escapes :
  Js.JSON_stringify [String Js.quotation_mark "a"; String "010"%char "b"]
  = String "[" (String Js.quotation_mark (String Js.reverse_solidus
      (String Js.quotation_mark (String "a" (String Js.quotation_mark
        (String "," (String Js.quotation_mark (String Js.reverse_solidus
          (String "n" (String "b" (String Js.quotation_mark "]"))))))))))).
Proof. reflexivity. Qed.

Section SortFacts.

Lemma sort_Permutation (l : list string) : Js.sort l ≡ₚ l.
Proof. apply merge_sort_Permutation. Qed.

Lemma sort_Sorted (l : list string) : Sorted String.le (Js.sort l).
Proof. apply Sorted_merge_sort, _. Qed.

(** Whatever algorithm the engine runs, a sorted rearrangement of [l] is
    [Js.sort l]. *)
Lemma sort_unique (l k : list string) :
  Sorted String.le k → k ≡ₚ l → k = Js.sort l.
Proof.
  intros Hk Hperm.
  apply (Sorted_unique String.le); [done | apply sort_Sorted |].
  by rewrite sort_Permutation.
Qed.

Lemma sort_eq_iff (l k : list string) : Js.sort l = Js.sort k ↔ l ≡ₚ k.
Proof.
  split.
  - intros Heq. by rewrite <- (sort_Permutation l), Heq, sort_Permutation.
  - intros Hperm. apply sort_unique; [apply sort_Sorted |].
    by rewrite sort_Permutation.
Qed.

Lemma sort_idemp (l : list string) : Js.sort (Js.sort l) = Js.sort l.
Proof. apply sort_eq_iff, sort_Permutation. Qed.

Lemma sort_length (l : list string) : length (Js.sort l) = length l.
Proof. apply Permutation_length, sort_Permutation. Qed.

(** On selections without a repeated option, being a rearrangement is
    having the same elements. *)
Lemma NoDup_Permutation_iff (l k : list string) :
  NoDup l → NoDup k → (l ≡ₚ k ↔ ∀ x, x ∈ l ↔ x ∈ k).
Proof.
  intros Hl Hk. split.
  - intros Hperm x. by rewrite Hperm.
  - intros Hsame. by apply NoDup_Permutation.
Qed.

End SortFacts.

Section JsonFacts.

Lemma append_assoc (a b c : string) : (a +:+ b) +:+ c = a +:+ (b +:+ c).
Proof. induction a as [|x a IH]; [done | exact (f_equal (String x) IH)]. Qed.

Lemma unquote_quote_unit (c : ascii) (r : string) :
  Js.unquote_unit (Js.quote_unit c +:+ r) = Some (c, r).
Proof.
  destruct c as [b0 b1 b2 b3 b4 b5 b6 b7].
  destruct b0, b1, b2, b3, b4, b5, b6, b7; reflexivity.
Qed.

Lemma unquote_quotation_mark (r : string) :
  Js.unquote_unit (String Js.quotation_mark r) = None.
Proof. reflexivity. Qed.

(** The escaped form of a string, followed by the closing quotation mark,
    determines the string and what follows. *)
Lemma quote_units_inj (s1 s2 r1 r2 : string) :
  Js.quote_units s1 +:+ String Js.quotation_mark r1
  = Js.quote_units s2 +:+ String Js.quotation_mark r2 →
  s1 = s2 ∧ r1 = r2.
Proof.
  revert s2. induction s1 as [|c1 s1 IH]; intros [|c2 s2];
    cbn [Js.quote_units]; intros Heq.
  - by injection Heq.
  - apply (f_equal Js.unquote_unit) in Heq.
    rewrite append_assoc, unquote_quote_unit in Heq. discriminate.
  - apply (f_equal Js.unquote_unit) in Heq.
    rewrite append_assoc, unquote_quote_unit in Heq. discriminate.
  - apply (f_equal Js.unquote_unit) in Heq.
    rewrite !append_assoc, !unquote_quote_unit in Heq.
    injection Heq as -> Hrest. by destruct (IH _ Hrest) as [-> ->].
Qed.

Lemma QuoteJSONString_app (x t : string) :
  Js.QuoteJSONString x +:+ t
  = String Js.quotation_mark (Js.quote_units x +:+ String Js.quotation_mark t).
Proof.
  unfold Js.QuoteJSONString.
  change (String ?c ?a +:+ ?b) with (String c (a +:+ b)).
  by rewrite append_assoc.
Qed.

Lemma QuoteJSONString_inj (x y t1 t2 : string) :
  Js.QuoteJSONString x +:+ t1 = Js.QuoteJSONString y +:+ t2 → x = y ∧ t1 = t2.
Proof.
  rewrite !QuoteJSONString_app. intros Heq. injection Heq as Heq.
  by apply quote_units_inj.
Qed.

Lemma stringify_rest_cons (x : string) (l : list string) :
  Js.stringify_rest (x :: l)
  = String "," (Js.QuoteJSONString x +:+ Js.stringify_rest l).
Proof. reflexivity. Qed.

Lemma stringify_rest_inj (l k : list string) :
  Js.stringify_rest l = Js.stringify_rest k → l = k.
Proof.
  revert k. induction l as [|x l IH]; intros [|y k];
    rewrite ?stringify_rest_cons; intros Heq; try done.
  assert (Js.QuoteJSONString x +:+ Js.stringify_rest l
          = Js.QuoteJSONString y +:+ Js.stringify_rest k) as Hq by congruence.
  apply QuoteJSONString_inj in Hq as [-> Hq]. by rewrite (IH _ Hq).
Qed.

Lemma JSON_stringify_cons (x : string) (l : list string) :
  Js.JSON_stringify (x :: l)
  = String "[" (Js.QuoteJSONString x +:+ Js.stringify_rest l).
Proof. reflexivity. Qed.

(** [JSON.stringify] tells any two arrays of strings apart, so comparing
    the two texts with [===] compares the arrays element by element. *)
Lemma JSON_stringify_inj (l k : list string) :
  Js.JSON_stringify l = Js.JSON_stringify k → l = k.
Proof.
  destruct l as [|x l], k as [|y k]; rewrite ?JSON_stringify_cons;
    intros Heq; try done.
  assert (Js.QuoteJSONString x +:+ Js.stringify_rest l
          = Js.QuoteJSONString y +:+ Js.stringify_rest k) as Hq by congruence.
  apply QuoteJSONString_inj in Hq as [-> Hq].
  by rewrite (stringify_rest_inj _ _ Hq).
Qed.

Lemma stringify_eqb (l k : list string) :
  String.eqb (Js.JSON_stringify l) (Js.JSON_stringify k) = bool_decide (l = k).
Proof.
  case_bool_decide as Hlk.
  - subst. apply String.eqb_refl.
  - apply String.eqb_neq. intros Heq. by apply Hlk, JSON_stringify_inj.
Qed.

End JsonFacts.

(** ** The grading loop *)

Section GradingFacts.

Implicit Types (answers : gmap nat (list string)) (qs : list Question).

Lemma userAnswers_sorted answers (index : nat) :
  from_option Js.sort [] (answers !! index) = Js.sort (submitted answers index).
Proof. unfold submitted. by destruct (answers !! index). Qed.

Lemma countFrom_ext (index : nat) qs answers answers' :
  (∀ j, index ≤ j → answers !! j = answers' !! j) →
  countFrom index qs answers = countFrom index qs answers'.
Proof.
  revert index. induction qs as [|q qs IH]; intros index Hsame; simpl; [done |].
  unfold exactlyMatches, submitted. rewrite (Hsame index) by lia.
  f_equal. apply IH. intros j Hj. apply Hsame. lia.
Qed.

(** The loop counts the exactly-matching questions and leaves every
    [correctAnswers], and every submitted selection it met, sorted. *)
Lemma gradeFrom_spec (index : nat) qs answers (score : nat) :
  ∃ answers',
    gradeFrom index qs answers score
    = (score + countFrom index qs answers, map sortedQuestion qs, answers')
    ∧ ∀ j, answers' !! j
           = if bool_decide (index ≤ j < index + length qs)
             then Js.sort <$> answers !! j else answers !! j.
Proof.
  revert index answers score.
  induction qs as [|q qs IH]; intros index answers score.
  - exists answers. split; [simpl; f_equal; f_equal; lia |].
    intros j. case_bool_decide; [simpl in *; lia | done].
  - cbn [gradeFrom].
    set (answers1 := from_option _ _ _).
    set (score1 := if String.eqb _ _ then _ else _).
    assert (Hlook : ∀ j, answers1 !! j
              = if bool_decide (j = index) then Js.sort <$> answers !! j
                else answers !! j).
    { intros j. subst answers1. destruct (answers !! index) as [a|] eqn:Ha; simpl.
      - case_bool_decide as Hj.
        + subst j. by rewrite lookup_insert_eq, Ha.
        + by rewrite lookup_insert_ne.
      - case_bool_decide as Hj; [subst j; by rewrite Ha | done]. }
    destruct (IH (S index) answers1 score1) as (answers' & -> & Hans).
    exists answers'. split.
    + do 2 f_equal.
      rewrite (countFrom_ext (S index) qs answers1 answers).
      2:{ intros j Hj. rewrite Hlook. case_bool_decide; [lia | done]. }
      subst score1. rewrite userAnswers_sorted, stringify_eqb.
      cbn [countFrom]. unfold exactlyMatches. case_bool_decide; lia.
    + intros j. rewrite Hans, Hlook. cbn [length].
      repeat case_bool_decide; try lia; done.
Qed.

Lemma spec_score_countFrom_gen (k : nat) qs answers :
  length (filter (λ iq : nat * Question, exactlyMatches answers iq.1 iq.2 = true)
                 (imap (λ i q, (k + i, q)) qs))
  = countFrom k qs answers.
Proof.
  revert k. induction qs as [|q qs IH]; intros k; [done |].
  cbn [imap countFrom]. rewrite filter_cons. cbn [fst snd].
  rewrite Nat.add_0_r.
  rewrite (imap_ext _ (λ i q0, (S k + i, q0))) by (intros; simpl; f_equal; lia).
  destruct (exactlyMatches answers k q) eqn:Hm.
  - rewrite decide_True by done. cbn [length]. by rewrite IH.
  - rewrite decide_False by done. by rewrite IH.
Qed.

Lemma spec_score_countFrom qs answers :
  spec_score qs answers = countFrom 0 qs answers.
Proof. apply (spec_score_countFrom_gen 0). Qed.

Lemma gradeLoop_score (qz : Quiz) answers :
  graded_score (gradeLoop qz answers) = spec_score (questions qz) answers.
Proof.
  unfold gradeLoop.
  destruct (gradeFrom_spec 0 (questions qz) answers 0) as (answers' & -> & _).
  by rewrite spec_score_countFrom.
Qed.

Lemma gradeLoop_quiz (qz : Quiz) answers :
  graded_quiz (gradeLoop qz answers)
  = {| Quiz_title := Quiz_title qz;
       questions := map sortedQuestion (questions qz) |}.
Proof.
  unfold gradeLoop.
  by destruct (gradeFrom_spec 0 (questions qz) answers 0) as (answers' & -> & _).
Qed.

Lemma gradeLoop_total (qz : Quiz) answers :
  length (questions (graded_quiz (gradeLoop qz answers))) = length (questions qz).
Proof. rewrite gradeLoop_quiz. simpl. apply length_map. Qed.

Lemma exactlyMatches_Permutation answers (index : nat) (q : Question) :
  exactlyMatches answers index q = true
  ↔ submitted answers index ≡ₚ correctAnswers q.
Proof.
  unfold exactlyMatches. rewrite bool_decide_eq_true. apply sort_eq_iff.
Qed.

End GradingFacts.

(** ** Numbers *)

Section NumberFacts.

Lemma SFcompare_antisym (x y : spec_float) :
  SFcompare y x = option_map CompOpp (SFcompare x y).
Proof.
  destruct x as [s1|s1| |s1 m1 e1], y as [s2|s2| |s2 m2 e2]; simpl; try done;
    destruct s1; try destruct s2; simpl; try done.
  - rewrite (Z.compare_antisym e1 e2).
    destruct (e1 ?= e2)%Z; simpl; try done.
    rewrite (Pos.compare_cont_antisym m2 m1 Eq). simpl.
    by destruct (Pos.compare_cont Eq m1 m2).
  - rewrite (Z.compare_antisym e1 e2).
    destruct (e1 ?= e2)%Z; simpl; try done.
    by rewrite (Pos.compare_cont_antisym m1 m2 Eq).
Qed.

(** "percentage < 80" excludes "percentage >= 80". *)
Lemma lt_not_ge (x y : Js.number) : Js_lt x y = true → Js.ge x y = false.
Proof.
  unfold Js_lt, Js.ge, SFltb, SFleb. rewrite (SFcompare_antisym x y).
  by destruct (SFcompare x y) as [[]|].
Qed.

(** On quizzes of fewer than forty questions the binary64 computation of
    the handlers returns the exact percentage, a half rounded up. *)
Lemma percentageOf_table :
  Forall (λ total,
    Forall (λ sc, percentageOf sc total = Js.of_Z (spec_percentage sc total))
           (seq 0 (S total)))
    (seq 1 39).
Proof. apply (bool_decide_unpack _). vm_compute. exact I. Qed.

Lemma percentageOf_exact (sc total : nat) :
  0 < total < 40 → sc ≤ total →
  percentageOf sc total = Js.of_Z (spec_percentage sc total).
Proof.
  intros Htotal Hsc.
  pose proof percentageOf_table as Htab.
  rewrite Forall_forall in Htab.
  specialize (Htab total). rewrite Forall_forall in Htab.
  apply Htab; apply elem_of_seq; lia.
Qed.

(** An empty quiz has no percentage: [0 / 0] is [NaN], which is neither
    [>= 80] nor [>= 70]. *)
Lemma percentageOf_empty : percentageOf 0 0 = S754_nan.
Proof. reflexivity. Qed.

End NumberFacts.

(** ** The projections of a state after the handlers *)

Section StateFacts.

Lemma setActiveCourse_each_courses (l : list Course) (s : App.State) :
  App.courses (App.setActiveCourse_each l s) = App.courses s.
Proof. unfold App.setActiveCourse_each. by destruct (last l). Qed.

Lemma setActiveCourse_each_learningPaths (l : list Course) (s : App.State) :
  App.learningPaths (App.setActiveCourse_each l s) = App.learningPaths s.
Proof. unfold App.setActiveCourse_each. by destruct (last l). Qed.

Lemma setActiveCourse_each_heap (l : list Course) (s : App.State) :
  App.heap (App.setActiveCourse_each l s) = App.heap s.
Proof. unfold App.setActiveCourse_each. by destruct (last l). Qed.

Lemma setActiveCourse_each_quizScore (l : list Course) (s : App.State) :
  App.quizScore (App.setActiveCourse_each l s) = App.quizScore s.
Proof. unfold App.setActiveCourse_each. by destruct (last l). Qed.

Lemma setActiveCourse_each_mockTestScore (l : list Course) (s : App.State) :
  App.mockTestScore (App.setActiveCourse_each l s) = App.mockTestScore s.
Proof. unfold App.setActiveCourse_each. by destruct (last l). Qed.

Lemma setActivePath_each_courses (l : list LearningPath) (s : App.State) :
  App.courses (App.setActivePath_each l s) = App.courses s.
Proof. unfold App.setActivePath_each. by destruct (last l). Qed.

Lemma setActivePath_each_learningPaths (l : list LearningPath) (s : App.State) :
  App.learningPaths (App.setActivePath_each l s) = App.learningPaths s.
Proof. unfold App.setActivePath_each. by destruct (last l). Qed.

Lemma setActivePath_each_heap (l : list LearningPath) (s : App.State) :
  App.heap (App.setActivePath_each l s) = App.heap s.
Proof. unfold App.setActivePath_each. by destruct (last l). Qed.

Lemma setActivePath_each_quizScore (l : list LearningPath) (s : App.State) :
  App.quizScore (App.setActivePath_each l s) = App.quizScore s.
Proof. unfold App.setActivePath_each. by destruct (last l). Qed.

End StateFacts.

Ltac state_proj :=
  repeat first
    [ progress simpl
    | rewrite setActiveCourse_each_courses
    | rewrite setActiveCourse_each_learningPaths
    | rewrite setActiveCourse_each_heap
    | rewrite setActiveCourse_each_quizScore
    | rewrite setActiveCourse_each_mockTestScore
    | rewrite setActivePath_each_courses
    | rewrite setActivePath_each_learningPaths
    | rewrite setActivePath_each_heap
    | rewrite setActivePath_each_quizScore ].

(** ** A module quiz is submitted *)

Section QuizSubmit.

Context (s : App.State) (answers : gmap nat (list string)).
Context (activeModule : CourseModule) (activeIndex : nat) (ac : Course).
Context (l : ref) (qz : Quiz).
Hypothesis Hmodule : App.activeModule s = Some (activeModule, activeIndex).
Hypothesis Hcourse : App.activeCourse s = Some ac.
Hypothesis Hquiz : quiz activeModule = Some l.
Hypothesis Hheap : App.heap s !! l = Some qz.

Let percentage : Js.number :=
  percentageOf (spec_score (questions qz) answers) (length (questions qz)).

Lemma handleQuizSubmit_courses :
  App.courses (handleQuizSubmit answers s)
  = map (quiz_courseUpdater (Course_id ac) activeIndex percentage) (App.courses s).
Proof.
  unfold handleQuizSubmit. rewrite Hmodule, Hcourse, Hquiz, Hheap.
  rewrite gradeLoop_total, gradeLoop_score.
  destruct (App.activePath s); by state_proj.
Qed.

Lemma handleQuizSubmit_quizScore :
  App.quizScore (handleQuizSubmit answers s)
  = (spec_score (questions qz) answers, length (questions qz)).
Proof.
  unfold handleQuizSubmit. rewrite Hmodule, Hcourse, Hquiz, Hheap.
  rewrite gradeLoop_total, gradeLoop_score.
  destruct (App.activePath s); by state_proj.
Qed.

Lemma handleQuizSubmit_heap :
  App.heap (handleQuizSubmit answers s)
  = <[l := {| Quiz_title := Quiz_title qz;
              questions := map sortedQuestion (questions qz) |}]> (App.heap s).
Proof.
  unfold handleQuizSubmit. rewrite Hmodule, Hcourse, Hquiz, Hheap.
  rewrite gradeLoop_quiz.
  destruct (App.activePath s); by state_proj.
Qed.

Lemma handleQuizSubmit_learningPaths :
  App.learningPaths (handleQuizSubmit answers s)
  = match App.activePath s with
    | Some ap =>
        map (quiz_pathUpdater (Path_id ap) (Course_id ac) activeIndex percentage)
            (App.learningPaths s)
    | None => App.learningPaths s
    end.
Proof.
  unfold handleQuizSubmit. rewrite Hmodule, Hcourse, Hquiz, Hheap.
  rewrite gradeLoop_total, gradeLoop_score.
  destruct (App.activePath s); by state_proj.
Qed.

End QuizSubmit.

(** ** A mock test is submitted *)

Section MockTestSubmit.

Context (s : App.State) (today : string) (answers : gmap nat (list string)).
Context (ac : Course) (l : ref) (qz : Quiz).
Hypothesis Hcourse : App.activeCourse s = Some ac.
Hypothesis Htest : mockTest ac = Some l.
Hypothesis Hheap : App.heap s !! l = Some qz.

Let percentage : Js.number :=
  percentageOf (spec_score (questions qz) answers) (length (questions qz)).

Lemma handleMockTestSubmit_courses :
  App.courses (handleMockTestSubmit today answers s)
  = map (mock_courseUpdater (Course_id ac) percentage
           (newBadgeOf (Course_title ac) today percentage))
        (App.courses s).
Proof.
  unfold handleMockTestSubmit. rewrite Hcourse, Htest, Hheap.
  rewrite gradeLoop_total, gradeLoop_score. by state_proj.
Qed.

Lemma handleMockTestSubmit_learningPaths :
  App.learningPaths (handleMockTestSubmit today answers s)
  = map (λ p, Path_withCourses
                (map (mock_courseUpdater (Course_id ac) percentage
                        (newBadgeOf (Course_title ac) today percentage))
                     (courses p)) p)
        (App.learningPaths s).
Proof.
  unfold handleMockTestSubmit. rewrite Hcourse, Htest, Hheap.
  rewrite gradeLoop_total, gradeLoop_score. by state_proj.
Qed.

Lemma handleMockTestSubmit_mockTestScore :
  App.mockTestScore (handleMockTestSubmit today answers s)
  = (spec_score (questions qz) answers, length (questions qz)).
Proof.
  unfold handleMockTestSubmit. rewrite Hcourse, Htest, Hheap.
  rewrite gradeLoop_total, gradeLoop_score. by state_proj.
Qed.

Lemma handleMockTestSubmit_heap :
  App.heap (handleMockTestSubmit today answers s)
  = <[l := {| Quiz_title := Quiz_title qz;
              questions := map sortedQuestion (questions qz) |}]> (App.heap s).
Proof.
  unfold handleMockTestSubmit. rewrite Hcourse, Htest, Hheap.
  rewrite gradeLoop_quiz. by state_proj.
Qed.

End MockTestSubmit.

(** ** Grading: score and percentage *)

Lemma countFrom_le (index : nat) (qs : list Question) (answers : gmap nat (list string)) :
  countFrom index qs answers ≤ length qs.
Proof.
  revert index. induction qs as [|q qs IH]; intros index; simpl; [done |].
  specialize (IH (S index)). destruct (exactlyMatches answers index q); lia.
Qed.

Lemma spec_score_le (qs : list Question) (answers : gmap nat (list string)) :
  spec_score qs answers ≤ length qs.
Proof. rewrite spec_score_countFrom. apply countFrom_le. Qed.

Example grade_23_of_40 :
  graded_score (gradeLoop quiz40 (firstRight 23)) = 23.
Proof. vm_compute. reflexivity. Qed.

Example percentage_7_of_10 : percentageOf 7 10 = Js.of_Z 70.
Proof. vm_compute. reflexivity. Qed.

Example percentage_3_of_4 : percentageOf 3 4 = Js.of_Z 75.
Proof. vm_compute. reflexivity. Qed.

(** C1, as the specification states it, fails on the percentage: on a
    mock test of forty questions with twenty-three exact matches the exact
    percentage is 57.5, which rounds to 58, while the handler computes
    [23 / 40] and then [* 100] in binary64, obtains 57.49999999999999 and
    stores 57. *)
Lemma C1_percentage_counterexample :
  let s' := handleMockTestSubmit "1/1/2024" (firstRight 23) (mockTestState_of finishedCourse quiz40) in
  App.mockTestScore s' = (23, 40)
  ∧ mockTestScore <$> App.courses s' = [Some (Js.of_Z 57)]
  ∧ spec_percentage 23 40 = 58%Z
  ∧ percentageOf 23 40 ≠ Js.of_Z (spec_percentage 23 40).
Proof. vm_compute. repeat split; discriminate. Qed.

(** C1 (amended): grading, in the module quiz and in the mock test alike,
    counts the questions whose sorted submitted selection equals the sorted
    [correctAnswers]: the two hold the same options, each as often (for
    selections without a repeated option: the same set), so a partly right
    selection counts for nothing.  [score] is that count, and the percentage
    is [Math.round((score / total) * 100)] evaluated in binary64, which is
    the exact [100 * score / total] with a half rounded up on every quiz of
    one to thirty-nine questions. *)
Theorem C1_grading_score_and_percentage
    (qz : Quiz) (answers : gmap nat (list string)) :
  let sc := spec_score (questions qz) answers in
  let total := length (questions qz) in
  let percentage := percentageOf sc total in
  graded_score (gradeLoop qz answers) = sc
  ∧ (∀ i q, exactlyMatches answers i q = true
            ↔ submitted answers i ≡ₚ correctAnswers q)
  ∧ (∀ i q, NoDup (submitted answers i) → NoDup (correctAnswers q) →
            (exactlyMatches answers i q = true
             ↔ ∀ x, x ∈ submitted answers i ↔ x ∈ correctAnswers q))
  ∧ (∀ s m idx ac l,
        App.activeModule s = Some (m, idx) → App.activeCourse s = Some ac →
        quiz m = Some l → App.heap s !! l = Some qz →
        App.quizScore (handleQuizSubmit answers s) = (sc, total)
        ∧ App.courses (handleQuizSubmit answers s)
          = map (quiz_courseUpdater (Course_id ac) idx percentage) (App.courses s))
  ∧ (∀ s today ac l,
        App.activeCourse s = Some ac → mockTest ac = Some l →
        App.heap s !! l = Some qz →
        App.mockTestScore (handleMockTestSubmit today answers s) = (sc, total)
        ∧ App.courses (handleMockTestSubmit today answers s)
          = map (mock_courseUpdater (Course_id ac) percentage
                   (newBadgeOf (Course_title ac) today percentage))
                (App.courses s))
  ∧ (0 < total < 40 → percentage = Js.of_Z (spec_percentage sc total)).
Proof.
  intros sc total percentage. split; [apply gradeLoop_score |].
  split; [intros; apply exactlyMatches_Permutation |].
  split.
  { intros i q Hsel Hcorrect. rewrite exactlyMatches_Permutation.
    by apply NoDup_Permutation_iff. }
  split.
  { intros s m idx ac l Hm Hc Hq Hh. split.
    - by apply (handleQuizSubmit_quizScore s answers m idx ac l qz).
    - by apply (handleQuizSubmit_courses s answers m idx ac l qz). }
  split.
  { intros s today ac l Hc Ht Hh. split.
    - by apply (handleMockTestSubmit_mockTestScore s today answers ac l qz).
    - by apply (handleMockTestSubmit_courses s today answers ac l qz). }
  intros Htotal. apply percentageOf_exact; [done | apply spec_score_le].
Qed.

(** C1 at work: a mock test of five questions, four of them right. *)
Lemma C1_grading_witness :
  let qz := quiz5 in
  let answers := firstRight 4 in
  let s := mockTestState_of finishedCourse quiz5 in
  (NoDup (submitted answers 0) ∧ NoDup (correctAnswers questionA))
  ∧ (App.activeCourse s = Some finishedCourse ∧ mockTest finishedCourse = Some 7
     ∧ App.heap s !! 7 = Some qz)
  ∧ 0 < length (questions qz) < 40
  ∧ App.mockTestScore (handleMockTestSubmit "1/1/2024" answers s) = (4, 5)
  ∧ percentageOf (spec_score (questions qz) answers) (length (questions qz))
    = Js.of_Z 80
  ∧ (exactlyMatches answers 0 questionA = true
     ↔ ∀ x, x ∈ submitted answers 0 ↔ x ∈ correctAnswers questionA).
Proof.
  intros qz answers s.
  pose proof (C1_grading_score_and_percentage qz answers)
    as (_ & _ & Hset & _ & Hmock & Hpct).
  assert (Hnd : NoDup (submitted answers 0) ∧ NoDup (correctAnswers questionA)).
  { split; vm_compute; apply NoDup_singleton. }
  assert (Hst : App.activeCourse s = Some finishedCourse
                ∧ mockTest finishedCourse = Some 7 ∧ App.heap s !! 7 = Some qz).
  { repeat split; vm_compute; reflexivity. }
  assert (Hlen : 0 < length (questions qz) < 40) by (vm_compute; lia).
  destruct Hnd as [Hn1 Hn2], Hst as (Hs1 & Hs2 & Hs3).
  destruct (Hmock s "1/1/2024" finishedCourse 7 Hs1 Hs2 Hs3) as [Hscore _].
  split; [exact (conj Hn1 Hn2) |].
  split; [exact (conj Hs1 (conj Hs2 Hs3)) |].
  split; [exact Hlen |].
  split; [rewrite Hscore; vm_compute; reflexivity |].
  split; [etrans; [exact (Hpct Hlen) | vm_compute; reflexivity] |].
  exact (Hset 0 questionA Hn1 Hn2).
Defined.


(** ** Module quiz: pass and fail *)

Section QuizUpdaterFacts.

Context (activeId : string) (activeIndex : nat) (percentage : Js.number).

Lemma or_zero_id (n : nat) : or_zero n = n.
Proof. unfold or_zero. by destruct n. Qed.

Lemma quiz_courseUpdater_other (c : Course) :
  Course_id c ≠ activeId →
  quiz_courseUpdater activeId activeIndex percentage c = c.
Proof.
  intros Hne. unfold quiz_courseUpdater.
  by rewrite (proj2 (String.eqb_neq _ _) Hne).
Qed.

Lemma quiz_courseUpdater_id (c : Course) :
  Course_id (quiz_courseUpdater activeId activeIndex percentage c) = Course_id c.
Proof. unfold quiz_courseUpdater. by destruct (String.eqb _ _). Qed.

Lemma quiz_courseUpdater_modules (c : Course) :
  Course_id c = activeId →
  modules (quiz_courseUpdater activeId activeIndex percentage c)
  = imap (λ i m, if i =? activeIndex
                 then (if Js.ge percentage (Js.of_Z 80)
                       then passModule percentage m else failModule m)
                 else m) (modules c).
Proof.
  intros Hid. unfold quiz_courseUpdater. rewrite Hid, String.eqb_refl. simpl.
  destruct (Js.ge percentage (Js.of_Z 80)); apply imap_ext; intros i m _;
    by destruct (i =? activeIndex).
Qed.

Lemma quiz_courseUpdater_lookup (c : Course) (j : nat) :
  Course_id c = activeId →
  modules (quiz_courseUpdater activeId activeIndex percentage c) !! j
  = (λ m, if bool_decide (j = activeIndex)
          then (if Js.ge percentage (Js.of_Z 80)
                then passModule percentage m else failModule m)
          else m) <$> modules c !! j.
Proof.
  intros Hid. rewrite quiz_courseUpdater_modules, list_lookup_imap by done.
  destruct (modules c !! j); simpl; [|done].
  case_bool_decide as Hj.
  - by rewrite (proj2 (Nat.eqb_eq _ _) Hj).
  - by rewrite (proj2 (Nat.eqb_neq _ _) Hj).
Qed.

Lemma quiz_courseUpdater_unlocked (c : Course) :
  Course_id c = activeId →
  unlockedModuleIndex (quiz_courseUpdater activeId activeIndex percentage c)
  = if Js.ge percentage (Js.of_Z 80) && bool_decide (unlockedModuleIndex c = activeIndex)
    then unlockedModuleIndex c + 1 else unlockedModuleIndex c.
Proof.
  intros Hid. unfold quiz_courseUpdater. rewrite Hid, String.eqb_refl. simpl.
  destruct (Js.ge percentage (Js.of_Z 80)); simpl; [|done].
  case_bool_decide as Hj.
  - by rewrite (proj2 (Nat.eqb_eq _ _) Hj).
  - by rewrite (proj2 (Nat.eqb_neq _ _) Hj).
Qed.

Lemma quiz_courseUpdater_isCompleted (c : Course) :
  Course_id c = activeId →
  Course_isCompleted (quiz_courseUpdater activeId activeIndex percentage c)
  = allModulesCompleted (quiz_courseUpdater activeId activeIndex percentage c)
    || Course_isCompleted c.
Proof.
  intros Hid. unfold allModulesCompleted, quiz_courseUpdater.
  rewrite Hid, String.eqb_refl. simpl. by destruct (forallb _ _).
Qed.

Lemma quiz_courseUpdater_frame (c : Course) :
  let c' := quiz_courseUpdater activeId activeIndex percentage c in
  Course_title c' = Course_title c ∧ Course_description c' = Course_description c
  ∧ badge c' = badge c ∧ mockTest c' = mockTest c
  ∧ mockTestState c' = mockTestState c ∧ mockTestScore c' = mockTestScore c
  ∧ length (modules c') = length (modules c).
Proof.
  unfold quiz_courseUpdater. destruct (String.eqb _ _); simpl; [|done].
  repeat split. destruct (Js.ge _ _); by rewrite length_imap.
Qed.

End QuizUpdaterFacts.

(** A module quiz is graded, read in the courses.  For every course of
    the courses that carries the id of
    the active course: with [percentage >= 80] the graded module becomes
    completed, its [quizScore] is the percentage and its [quizAttempts] is 0,
    and [unlockedModuleIndex] grows by one exactly when it pointed at the
    graded module; otherwise (in particular with [percentage < 80]) the
    graded module has one more attempt and is unchanged apart from that,
    and [unlockedModuleIndex] stays.  No other module changes and
    [unlockedModuleIndex] never decreases. *)
Theorem module_quiz_pass_and_fail_in_courses
    (s : App.State) (answers : gmap nat (list string))
    (activeModule : CourseModule) (activeIndex : nat) (ac : Course)
    (l : ref) (qz : Quiz) :
  App.activeModule s = Some (activeModule, activeIndex) →
  App.activeCourse s = Some ac →
  quiz activeModule = Some l →
  App.heap s !! l = Some qz →
  let percentage :=
    percentageOf (spec_score (questions qz) answers) (length (questions qz)) in
  let s' := handleQuizSubmit answers s in
  ∀ (k : nat) (c : Course),
    App.courses s !! k = Some c → Course_id c = Course_id ac →
    ∃ c', App.courses s' !! k = Some c'
      ∧ (Js.ge percentage (Js.of_Z 80) = true →
           (∀ m, modules c !! activeIndex = Some m →
              ∃ m', modules c' !! activeIndex = Some m'
                ∧ Module_isCompleted m' = true
                ∧ quizScore m' = Some percentage
                ∧ quizAttempts m' = 0
                ∧ Module_title m' = Module_title m ∧ objective m' = objective m
                ∧ content m' = content m ∧ quiz m' = quiz m
                ∧ generationState m' = generationState m)
           ∧ (unlockedModuleIndex c = activeIndex →
                unlockedModuleIndex c' = unlockedModuleIndex c + 1)
           ∧ (unlockedModuleIndex c ≠ activeIndex →
                unlockedModuleIndex c' = unlockedModuleIndex c))
      ∧ (Js.ge percentage (Js.of_Z 80) = false →
           (∀ m, modules c !! activeIndex = Some m →
              ∃ m', modules c' !! activeIndex = Some m'
                ∧ quizAttempts m' = quizAttempts m + 1
                ∧ Module_isCompleted m' = Module_isCompleted m
                ∧ quizScore m' = quizScore m
                ∧ Module_title m' = Module_title m ∧ objective m' = objective m
                ∧ content m' = content m ∧ quiz m' = quiz m
                ∧ generationState m' = generationState m)
           ∧ unlockedModuleIndex c' = unlockedModuleIndex c)
      ∧ (Js_lt percentage (Js.of_Z 80) = true →
           Js.ge percentage (Js.of_Z 80) = false)
      ∧ (∀ j, j ≠ activeIndex → modules c' !! j = modules c !! j)
      ∧ unlockedModuleIndex c ≤ unlockedModuleIndex c'.
Proof.
  intros Hm Hc Hq Hh percentage s' k c Hk Hid.
  exists (quiz_courseUpdater (Course_id ac) activeIndex percentage c).
  split.
  { subst s'. rewrite (handleQuizSubmit_courses s answers _ _ _ _ _ Hm Hc Hq Hh).
    by rewrite list_lookup_fmap, Hk. }
  pose proof (quiz_courseUpdater_lookup (Course_id ac) activeIndex percentage c)
    as Hlook.
  pose proof (quiz_courseUpdater_unlocked (Course_id ac) activeIndex percentage c Hid)
    as Hunl.
  split; [intros Hpass; split; [|split] |].
  - intros m Hmod. eexists. split.
    + rewrite Hlook, Hmod by done. simpl. by rewrite bool_decide_true, Hpass.
    + done.
  - intros Hfront. rewrite Hunl, Hpass. by rewrite bool_decide_true.
  - intros Hfront. rewrite Hunl, Hpass. by rewrite bool_decide_false.
  - split; [intros Hfail; split |].
    + intros m Hmod. eexists. split.
      * rewrite Hlook, Hmod by done. simpl. by rewrite bool_decide_true, Hfail.
      * simpl. by rewrite or_zero_id.
    + by rewrite Hunl, Hfail.
    + split; [apply lt_not_ge |]. split.
      * intros j Hj. rewrite Hlook by done.
        destruct (modules c !! j); simpl; [|done]. by rewrite bool_decide_false.
      * rewrite Hunl. destruct (_ && _); lia.
Qed.

(** On the scenario of the specification: four of four right on the first
    module of a course of two. *)
Lemma module_quiz_pass_and_fail_witness :
  (App.activeModule quizState = Some (readyModule "Vectors" (Some 3), 0)
   ∧ App.activeCourse quizState = Some twoModuleCourse
   ∧ quiz (readyModule "Vectors" (Some 3)) = Some 3
   ∧ App.heap quizState !! 3 = Some quiz4
   ∧ App.courses quizState !! 0 = Some twoModuleCourse)
  ∧ ∃ c', App.courses (handleQuizSubmit answers4of4 quizState) !! 0 = Some c'
      ∧ unlockedModuleIndex twoModuleCourse ≤ unlockedModuleIndex c'.
Proof.
  assert (H1 : App.activeModule quizState = Some (readyModule "Vectors" (Some 3), 0))
    by reflexivity.
  assert (H2 : App.activeCourse quizState = Some twoModuleCourse) by reflexivity.
  assert (H3 : quiz (readyModule "Vectors" (Some 3)) = Some 3) by reflexivity.
  assert (H4 : App.heap quizState !! 3 = Some quiz4) by (vm_compute; reflexivity).
  assert (H5 : App.courses quizState !! 0 = Some twoModuleCourse) by reflexivity.
  split; [exact (conj H1 (conj H2 (conj H3 (conj H4 H5)))) |].
  destruct (module_quiz_pass_and_fail_in_courses quizState answers4of4 _ _ _ _ _
              H1 H2 H3 H4 0 twoModuleCourse H5 eq_refl)
    as (c' & Hc' & _ & _ & _ & _ & Hle).
  exists c'. exact (conj Hc' Hle).
Defined.

Example module_quiz_4_of_4 :
  let s' := handleQuizSubmit answers4of4 quizState in
  App.quizScore s' = (4, 4)
  ∧ (λ c, (unlockedModuleIndex c, Course_isCompleted c,
           (λ m, (Module_isCompleted m, quizScore m, quizAttempts m)) <$> modules c))
      <$> App.courses s'
    = [(1, false, [(true, Some (Js.of_Z 100), 0); (false, None, 0)])].
Proof. vm_compute. done. Qed.

Example module_quiz_3_of_4 :
  let s' := handleQuizSubmit answers3of4 quizState in
  App.quizScore s' = (3, 4)
  ∧ percentageOf 3 4 = Js.of_Z 75
  ∧ (λ c, (unlockedModuleIndex c, Course_isCompleted c,
           (λ m, (Module_isCompleted m, quizScore m, quizAttempts m)) <$> modules c))
      <$> App.courses s'
    = [(0, false, [(false, None, 1); (false, None, 0)])].
Proof. vm_compute. done. Qed.

(** C2 on the code: the rules of the module quiz are not applied to a
    course that was opened from a learning path.  The user opens the path
    from the dashboard, its first course, the module, and the quiz.  With
    every answer right (100, [percentage >= 80]) the module is not
    completed, no [quizScore] is stored and [unlockedModuleIndex] stays at
    0, in the learning paths and in the active course alike; with three of
    four right (75, [percentage < 80]) no attempt is counted.  The courses
    hold no course with the id, and [setAppView] has dropped the active
    path, so neither updater of the handler reaches the course, although
    the result view is opened with the score.  The same submissions on the
    same course, were it among the courses, are recorded as the claim
    says. *)
Theorem C2_path_course_quiz_not_recorded :
  let s := pathQuizOpen in
  let progress (c : Course) :=
    (unlockedModuleIndex c, Course_isCompleted c,
     (λ m, (Module_isCompleted m, quizScore m, quizAttempts m)) <$> modules c) in
  let stored (t : App.State) :=
    (λ p, progress <$> courses p) <$> App.learningPaths t in
  let passed := QuizView_submit answers4of4 s in
  let failed := QuizView_submit answers3of4 s in
  (App.view s = quiz_view
   ∧ App.activeCourse s = Some basicsCourse
   ∧ App.activeModule s = Some (readyModule "Introduction" (Some 3), 0)
   ∧ App.courses s = []
   ∧ stored s = [[(0, false, [(false, None, 0)]); (0, false, [(false, None, 0)])]])
  ∧ (App.quizScore passed = (4, 4)
     ∧ percentageOf 4 4 = Js.of_Z 100
     ∧ Js.ge (percentageOf 4 4) (Js.of_Z 80) = true
     ∧ App.view passed = quiz_results
     ∧ App.courses passed = []
     ∧ stored passed = stored s
     ∧ progress <$> App.activeCourse passed = Some (0, false, [(false, None, 0)]))
  ∧ (App.quizScore failed = (3, 4)
     ∧ percentageOf 3 4 = Js.of_Z 75
     ∧ Js_lt (percentageOf 3 4) (Js.of_Z 80) = true
     ∧ App.view failed = quiz_results
     ∧ App.courses failed = []
     ∧ stored failed = stored s
     ∧ progress <$> App.activeCourse failed = Some (0, false, [(false, None, 0)]))
  ∧ progress <$> App.courses (QuizView_submit answers4of4 (App.setCourses [basicsCourse] s))
    = [(1, true, [(true, Some (Js.of_Z 100), 0)])]
  ∧ progress <$> App.courses (QuizView_submit answers3of4 (App.setCourses [basicsCourse] s))
    = [(0, false, [(false, None, 1)])].
Proof. vm_compute. repeat split. Qed.

(** ** Mock test: score and badge *)

Section MockUpdaterFacts.

Context (activeId : string) (percentage : Js.number) (newBadge : option Badge).

Lemma mock_courseUpdater_other (c : Course) :
  Course_id c ≠ activeId → mock_courseUpdater activeId percentage newBadge c = c.
Proof.
  intros Hne. unfold mock_courseUpdater.
  by rewrite (proj2 (String.eqb_neq _ _) Hne).
Qed.

Lemma mock_courseUpdater_score (c : Course) :
  Course_id c = activeId →
  mockTestScore (mock_courseUpdater activeId percentage newBadge c) = Some percentage.
Proof.
  intros Hid. unfold mock_courseUpdater. by rewrite Hid, String.eqb_refl.
Qed.

Lemma mock_courseUpdater_badge (c : Course) :
  Course_id c = activeId →
  badge (mock_courseUpdater activeId percentage newBadge c)
  = match newBadge with Some b => Some b | None => badge c end.
Proof.
  intros Hid. unfold mock_courseUpdater. by rewrite Hid, String.eqb_refl.
Qed.

Lemma mock_courseUpdater_badge_kept (c : Course) :
  is_Some (badge c) →
  is_Some (badge (mock_courseUpdater activeId percentage newBadge c)).
Proof.
  intros Hb. unfold mock_courseUpdater.
  destruct (String.eqb _ _); simpl; [|done]. by destruct newBadge.
Qed.

Lemma mock_courseUpdater_frame (c : Course) :
  let c' := mock_courseUpdater activeId percentage newBadge c in
  Course_id c' = Course_id c ∧ modules c' = modules c
  ∧ Course_isCompleted c' = Course_isCompleted c
  ∧ unlockedModuleIndex c' = unlockedModuleIndex c ∧ mockTest c' = mockTest c.
Proof. unfold mock_courseUpdater. by destruct (String.eqb _ _). Qed.

End MockUpdaterFacts.

Section ThresholdFacts.

(** Against two positive constants of the same exponent, the comparison
    with the larger one decides the comparison with the smaller one. *)
Lemma ge_weaken (x : Js.number) (a b : positive) (e : Z) :
  (b <= a)%positive →
  Js.ge x (S754_finite false a e) = true → Js.ge x (S754_finite false b e) = true.
Proof.
  intros Hba. unfold Js.ge, SFleb.
  destruct x as [sx|sx| |sx m ex]; simpl; try done.
  destruct sx; simpl; [done |].
  destruct (e ?= ex)%Z; try done.
  rewrite !Pos.compare_cont_spec. simpl.
  destruct (Pos.compare_spec a m), (Pos.compare_spec b m); try done; lia.
Qed.

Lemma ge_80_70 (x : Js.number) :
  Js.ge x (Js.of_Z 80) = true → Js.ge x (Js.of_Z 70) = true.
Proof. by apply ge_weaken. Qed.

Lemma ge_90_85 (x : Js.number) :
  Js.ge x (Js.of_Z 90) = true → Js.ge x (Js.of_Z 85) = true.
Proof. by apply ge_weaken. Qed.

Lemma ge_85_80 (x : Js.number) :
  Js.ge x (Js.of_Z 85) = true → Js.ge x (Js.of_Z 80) = true.
Proof. by apply ge_weaken. Qed.

Lemma newBadgeOf_Some (title today : string) (percentage : Js.number) :
  Js.ge percentage (Js.of_Z 80) = true →
  newBadgeOf title today percentage
  = Some {| courseTitle := title; score := percentage; dateAwarded := today |}.
Proof.
  intros Hge. unfold newBadgeOf. by rewrite (ge_80_70 _ Hge), Hge.
Qed.

Lemma newBadgeOf_None (title today : string) (percentage : Js.number) :
  Js.ge percentage (Js.of_Z 80) = false → newBadgeOf title today percentage = None.
Proof.
  intros Hge. unfold newBadgeOf. rewrite Hge.
  by destruct (Js.ge percentage (Js.of_Z 70)).
Qed.

End ThresholdFacts.


(** C3: a mock test is graded.  The percentage is stored as
    [mockTestScore] (so it is on a pass, [percentage >= 70]); a badge is
    created exactly when [percentage >= 80], and then it is the badge of the
    course; with [percentage] below 80 (70 to 79 included) none is created
    and the badge of the course is left as it was.  The tier shown for a
    badge is Gold from 90, Silver from 85, Bronze otherwise. *)
Theorem C3_mock_test_score_and_badge
    (s : App.State) (today : string) (answers : gmap nat (list string))
    (ac : Course) (l : ref) (qz : Quiz) :
  App.activeCourse s = Some ac →
  mockTest ac = Some l →
  App.heap s !! l = Some qz →
  let percentage :=
    percentageOf (spec_score (questions qz) answers) (length (questions qz)) in
  let newBadge := newBadgeOf (Course_title ac) today percentage in
  let s' := handleMockTestSubmit today answers s in
  (is_Some newBadge ↔ Js.ge percentage (Js.of_Z 80) = true)
  ∧ (Js.ge percentage (Js.of_Z 70) = true →
     Js.ge percentage (Js.of_Z 80) = false → newBadge = None)
  ∧ (∀ (k : nat) (c : Course),
       App.courses s !! k = Some c → Course_id c = Course_id ac →
       ∃ c', App.courses s' !! k = Some c'
         ∧ (Js.ge percentage (Js.of_Z 70) = true → mockTestScore c' = Some percentage)
         ∧ (Js.ge percentage (Js.of_Z 80) = true →
            badge c' = Some {| courseTitle := Course_title ac; score := percentage;
                               dateAwarded := today |})
         ∧ (Js.ge percentage (Js.of_Z 80) = false → badge c' = badge c))
  ∧ (∀ sc : Js.number,
       (Js.ge sc (Js.of_Z 90) = true → getBadgeStyling sc = Gold)
       ∧ (Js.ge sc (Js.of_Z 90) = false → Js.ge sc (Js.of_Z 85) = true →
          getBadgeStyling sc = Silver)
       ∧ (Js.ge sc (Js.of_Z 85) = false → getBadgeStyling sc = Bronze)).
Proof.
  intros Hc Ht Hh percentage newBadge s'.
  split.
  { subst newBadge. split.
    - intros Hsome. destruct (Js.ge percentage (Js.of_Z 80)) eqn:Hge; [done |].
      rewrite newBadgeOf_None in Hsome by done. by destruct Hsome.
    - intros Hge. by rewrite newBadgeOf_Some. }
  split; [intros _ Hlow; by apply newBadgeOf_None |].
  split.
  - intros k c Hk Hid.
    exists (mock_courseUpdater (Course_id ac) percentage newBadge c). split.
    { subst s'. rewrite (handleMockTestSubmit_courses s today answers _ _ _ Hc Ht Hh).
      by rewrite list_lookup_fmap, Hk. }
    split; [intros _; by apply mock_courseUpdater_score |].
    rewrite mock_courseUpdater_badge by done. subst newBadge. split.
    + intros Hge. by rewrite newBadgeOf_Some.
    + intros Hge. by rewrite newBadgeOf_None.
  - intros sc. unfold getBadgeStyling. split; [by intros -> |].
    split; [by intros -> -> |].
    intros H85. destruct (Js.ge sc (Js.of_Z 90)) eqn:H90; [|by rewrite H85].
    by rewrite (ge_90_85 _ H90) in H85.
Qed.

(** C3 on the scenario of the specification with five questions: four of
    five right is 80, a pass with a Bronze badge. *)
Lemma C3_mock_test_witness :
  let s := mockTestState_of finishedCourse quiz5 in
  (App.activeCourse s = Some finishedCourse ∧ mockTest finishedCourse = Some 7
   ∧ App.heap s !! 7 = Some quiz5 ∧ App.courses s !! 0 = Some finishedCourse)
  ∧ ∃ c', App.courses (handleMockTestSubmit "1/1/2024" (firstRight 4) s) !! 0 = Some c'
      ∧ mockTestScore c' = Some (Js.of_Z 80)
      ∧ badge c' = Some {| courseTitle := "Algebra"; score := Js.of_Z 80;
                           dateAwarded := "1/1/2024" |}
      ∧ getBadgeStyling (Js.of_Z 80) = Bronze.
Proof.
  intros s.
  assert (H1 : App.activeCourse s = Some finishedCourse) by reflexivity.
  assert (H2 : mockTest finishedCourse = Some 7) by reflexivity.
  assert (H3 : App.heap s !! 7 = Some quiz5) by (vm_compute; reflexivity).
  assert (H4 : App.courses s !! 0 = Some finishedCourse) by reflexivity.
  split; [exact (conj H1 (conj H2 (conj H3 H4))) |].
  destruct (C3_mock_test_score_and_badge s "1/1/2024" (firstRight 4) _ _ _ H1 H2 H3)
    as (_ & _ & Hcourse & Htier).
  destruct (Hcourse 0 finishedCourse H4 eq_refl) as (c' & Hc' & Hscore & Hbadge & _).
  assert (Hpct : percentageOf (spec_score (questions quiz5) (firstRight 4))
                   (length (questions quiz5)) = Js.of_Z 80)
    by (vm_compute; reflexivity).
  rewrite Hpct in Hscore, Hbadge.
  exists c'. split; [exact Hc' |].
  split; [apply Hscore; vm_compute; reflexivity |].
  split; [apply Hbadge; vm_compute; reflexivity |].
  apply (Htier (Js.of_Z 80)); vm_compute; reflexivity.
Defined.

Example mock_test_8_of_10 :
  percentageOf 8 10 = Js.of_Z 80 ∧ getBadgeStyling (percentageOf 8 10) = Bronze.
Proof. vm_compute. done. Qed.

Example mock_test_75_has_no_badge :
  newBadgeOf "Algebra" "1/1/2024" (percentageOf 3 4) = None.
Proof. vm_compute. done. Qed.

(** C10: the mock test handler stores the percentage as [mockTestScore] of
    every course with the id of the active course, in the courses and in
    the learning paths, whatever the percentage is and whatever was stored
    before: a failed attempt replaces a higher earlier score. *)
Theorem C10_mock_test_score_always_written
    (s : App.State) (today : string) (answers : gmap nat (list string))
    (ac : Course) (l : ref) (qz : Quiz) :
  App.activeCourse s = Some ac →
  mockTest ac = Some l →
  App.heap s !! l = Some qz →
  let percentage :=
    percentageOf (spec_score (questions qz) answers) (length (questions qz)) in
  let s' := handleMockTestSubmit today answers s in
  (∀ (k : nat) (c : Course),
     App.courses s !! k = Some c → Course_id c = Course_id ac →
     ∃ c', App.courses s' !! k = Some c' ∧ mockTestScore c' = Some percentage)
  ∧ (∀ (i k : nat) (p : LearningPath) (c : Course),
       App.learningPaths s !! i = Some p → courses p !! k = Some c →
       Course_id c = Course_id ac →
       ∃ p' c', App.learningPaths s' !! i = Some p' ∧ courses p' !! k = Some c'
         ∧ mockTestScore c' = Some percentage).
Proof.
  intros Hc Ht Hh percentage s'. split.
  - intros k c Hk Hid. eexists. split.
    + subst s'. rewrite (handleMockTestSubmit_courses s today answers _ _ _ Hc Ht Hh).
      by rewrite list_lookup_fmap, Hk.
    + by apply mock_courseUpdater_score.
  - intros i k p c Hi Hk Hid. eexists _, _. split; [|split].
    + subst s'.
      rewrite (handleMockTestSubmit_learningPaths s today answers _ _ _ Hc Ht Hh).
      by rewrite list_lookup_fmap, Hi.
    + simpl. by rewrite list_lookup_fmap, Hk.
    + by apply mock_courseUpdater_score.
Qed.

(** C10 at work: the course holds a score of 100; an attempt with two of
    five right fails and leaves 40. *)
Lemma C10_mock_test_witness :
  let s := mockTestState_of awardedCourse quiz5 in
  (App.activeCourse s = Some awardedCourse ∧ mockTest awardedCourse = Some 7
   ∧ App.heap s !! 7 = Some quiz5 ∧ App.courses s !! 0 = Some awardedCourse)
  ∧ mockTestScore awardedCourse = Some (Js.of_Z 100)
  ∧ ∃ c', App.courses (handleMockTestSubmit "2/1/2024" (firstRight 2) s) !! 0 = Some c'
      ∧ mockTestScore c' = Some (Js.of_Z 40)
      ∧ Js.ge (Js.of_Z 40) (Js.of_Z 70) = false.
Proof.
  intros s.
  assert (H1 : App.activeCourse s = Some awardedCourse) by reflexivity.
  assert (H2 : mockTest awardedCourse = Some 7) by reflexivity.
  assert (H3 : App.heap s !! 7 = Some quiz5) by (vm_compute; reflexivity).
  assert (H4 : App.courses s !! 0 = Some awardedCourse) by reflexivity.
  split; [exact (conj H1 (conj H2 (conj H3 H4))) |].
  split; [reflexivity |].
  destruct (C10_mock_test_score_always_written s "2/1/2024" (firstRight 2) _ _ _
              H1 H2 H3) as [Hcourses _].
  destruct (Hcourses 0 awardedCourse H4 eq_refl) as (c' & Hc' & Hscore).
  exists c'. split; [exact Hc' |].
  split; [etrans; [exact Hscore | vm_compute; reflexivity] | vm_compute; reflexivity].
Defined.

(** ** Mock test: the badge over repeated attempts *)

Lemma handleMockTestSubmit_keeps_badge
    (today : string) (answers : gmap nat (list string)) (s : App.State)
    (k : nat) (c : Course) :
  App.courses s !! k = Some c → is_Some (badge c) →
  ∃ c', App.courses (handleMockTestSubmit today answers s) !! k = Some c'
    ∧ is_Some (badge c').
Proof.
  intros Hk Hb.
  destruct (App.activeCourse s) as [ac|] eqn:Hc;
    [|exists c; unfold handleMockTestSubmit; by rewrite Hc].
  destruct (mockTest ac) as [l|] eqn:Ht;
    [|exists c; unfold handleMockTestSubmit; by rewrite Hc, Ht].
  destruct (App.heap s !! l) as [qz|] eqn:Hh;
    [|exists c; unfold handleMockTestSubmit; by rewrite Hc, Ht, Hh].
  eexists. split.
  - rewrite (handleMockTestSubmit_courses s today answers _ _ _ Hc Ht Hh).
    by rewrite list_lookup_fmap, Hk.
  - by apply mock_courseUpdater_badge_kept.
Qed.

Lemma submitMockTests_keeps_badge
    (attempts : list (string * gmap nat (list string))) (s : App.State)
    (k : nat) (c : Course) :
  App.courses s !! k = Some c → is_Some (badge c) →
  ∃ c', App.courses (submitMockTests s attempts) !! k = Some c' ∧ is_Some (badge c').
Proof.
  revert s c. induction attempts as [|[today answers] attempts IH]; intros s c Hk Hb.
  - by exists c.
  - destruct (handleMockTestSubmit_keeps_badge today answers s k c Hk Hb)
      as (c1 & Hk1 & Hb1).
    exact (IH _ c1 Hk1 Hb1).
Qed.

(** C4, as the specification states it, fails: a badge is overwritten by a
    lower later score as soon as that score is 80 or more.  Five of five
    right earns the badge with 100; a second attempt with four of five right
    replaces it by a badge with 80. *)
Lemma C4_lower_score_counterexample :
  let s1 := handleMockTestSubmit "1/1/2024" (firstRight 5)
              (mockTestState_of finishedCourse quiz5) in
  let s2 := handleMockTestSubmit "2/1/2024" (firstRight 4) s1 in
  badge <$> App.courses s1
  = [Some {| courseTitle := "Algebra"; score := Js.of_Z 100;
             dateAwarded := "1/1/2024" |}]
  ∧ badge <$> App.courses s2
    = [Some {| courseTitle := "Algebra"; score := Js.of_Z 80;
               dateAwarded := "2/1/2024" |}]
  ∧ Js_lt (Js.of_Z 80) (Js.of_Z 100) = true.
Proof. vm_compute. done. Qed.

(** C4 (amended): over any run of mock tests a course that has a badge
    keeps having one; a single grading leaves the badge of every course as it
    was unless [percentage >= 80], and with [percentage >= 80] it replaces
    the badge of the active course by a new one that carries the new
    percentage, whether higher or lower than the old one. *)
Theorem C4_badge_kept_below_80 (s : App.State) :
  (∀ (attempts : list (string * gmap nat (list string))) (k : nat) (c : Course),
     App.courses s !! k = Some c → is_Some (badge c) →
     ∃ c', App.courses (submitMockTests s attempts) !! k = Some c'
       ∧ is_Some (badge c'))
  ∧ (∀ (today : string) (answers : gmap nat (list string))
       (ac : Course) (l : ref) (qz : Quiz),
       App.activeCourse s = Some ac → mockTest ac = Some l →
       App.heap s !! l = Some qz →
       let percentage :=
         percentageOf (spec_score (questions qz) answers) (length (questions qz)) in
       ∀ (k : nat) (c : Course),
         App.courses s !! k = Some c →
         ∃ c', App.courses (handleMockTestSubmit today answers s) !! k = Some c'
           ∧ (Js.ge percentage (Js.of_Z 80) = false → badge c' = badge c)
           ∧ (Course_id c ≠ Course_id ac → badge c' = badge c)
           ∧ (Js.ge percentage (Js.of_Z 80) = true → Course_id c = Course_id ac →
              badge c' = Some {| courseTitle := Course_title ac;
                                 score := percentage; dateAwarded := today |})).
Proof.
  split.
  - intros attempts k c. apply submitMockTests_keeps_badge.
  - intros today answers ac l qz Hc Ht Hh percentage k c Hk.
    eexists. split.
    { rewrite (handleMockTestSubmit_courses s today answers _ _ _ Hc Ht Hh).
      by rewrite list_lookup_fmap, Hk. }
    split; [|split].
    + intros Hlow. destruct (decide (Course_id c = Course_id ac)) as [Hid|Hid].
      * rewrite mock_courseUpdater_badge by done.
        fold percentage. by rewrite newBadgeOf_None.
      * by rewrite mock_courseUpdater_other.
    + intros Hid. by rewrite mock_courseUpdater_other.
    + intros Hge Hid. rewrite mock_courseUpdater_badge by done.
      fold percentage. by rewrite newBadgeOf_Some.
Qed.

(** C4 at work: the course holds a badge with 100; attempts with two and
    then three of five right leave it in place. *)
Lemma C4_badge_witness :
  let s := mockTestState_of awardedCourse quiz5 in
  (App.courses s !! 0 = Some awardedCourse ∧ is_Some (badge awardedCourse))
  ∧ (App.activeCourse s = Some awardedCourse ∧ mockTest awardedCourse = Some 7
     ∧ App.heap s !! 7 = Some quiz5)
  ∧ (∃ c', App.courses
             (submitMockTests s [("2/1/2024", firstRight 2); ("3/1/2024", firstRight 3)])
           !! 0 = Some c' ∧ is_Some (badge c'))
  ∧ (∃ c', App.courses (handleMockTestSubmit "2/1/2024" (firstRight 3) s) !! 0 = Some c'
       ∧ badge c' = badge awardedCourse).
Proof.
  intros s.
  assert (H0 : App.courses s !! 0 = Some awardedCourse) by reflexivity.
  assert (Hb : is_Some (badge awardedCourse)) by (eexists; reflexivity).
  assert (H1 : App.activeCourse s = Some awardedCourse) by reflexivity.
  assert (H2 : mockTest awardedCourse = Some 7) by reflexivity.
  assert (H3 : App.heap s !! 7 = Some quiz5) by (vm_compute; reflexivity).
  destruct (C4_badge_kept_below_80 s) as [Hrun Hstep].
  split; [exact (conj H0 Hb) |].
  split; [exact (conj H1 (conj H2 H3)) |].
  split; [exact (Hrun _ 0 awardedCourse H0 Hb) |].
  destruct (Hstep "2/1/2024" (firstRight 3) _ _ _ H1 H2 H3 0 awardedCourse H0)
    as (c' & Hc' & Hlow & _).
  exists c'. split; [exact Hc' |]. apply Hlow. vm_compute. reflexivity.
Defined.


(** ** Completion of a course *)

Section CompletionFacts.

Lemma allModulesCompleted_iff (c : Course) :
  allModulesCompleted c = true ↔ ∀ m, m ∈ modules c → Module_isCompleted m = true.
Proof.
  unfold allModulesCompleted. rewrite forallb_forall.
  split; intros H m Hm; apply H; by apply list_elem_of_In.
Qed.

Lemma forallb_imap_mono (f : nat → CourseModule → CourseModule) (ms : list CourseModule) :
  (∀ i m, Module_isCompleted m = true → Module_isCompleted (f i m) = true) →
  forallb Module_isCompleted ms = true →
  forallb Module_isCompleted (imap f ms) = true.
Proof.
  revert f. induction ms as [|m ms IH]; intros f Hf; simpl; [done |].
  rewrite !andb_true_iff. intros [Hm Hms]. split; [by apply Hf |].
  apply IH; [|done]. intros i m'. apply Hf.
Qed.

(** Grading never takes the completion of a module back. *)
Lemma quiz_courseUpdater_all_mono
    (activeId : string) (activeIndex : nat) (percentage : Js.number) (c : Course) :
  allModulesCompleted c = true →
  allModulesCompleted (quiz_courseUpdater activeId activeIndex percentage c) = true.
Proof.
  intros Hall. unfold quiz_courseUpdater.
  destruct (negb (String.eqb _ _)); [done |].
  unfold allModulesCompleted. cbn [modules].
  destruct (Js.ge _ _); apply forallb_imap_mono; try done;
    intros i m Hm; by destruct (i =? activeIndex).
Qed.

Lemma grade_completionAgrees (c : Course) (g : Grading) :
  completionAgrees c → completionAgrees (grade c g).
Proof.
  unfold completionAgrees. intros Hinv. destruct g as [aid idx pct|aid pct nb]; simpl.
  - destruct (decide (Course_id c = aid)) as [Hid|Hid].
    + rewrite quiz_courseUpdater_isCompleted by done. rewrite Hinv.
      destruct (allModulesCompleted c) eqn:Hall.
      * by rewrite (quiz_courseUpdater_all_mono aid idx pct c Hall).
      * by rewrite orb_false_r.
    + by rewrite quiz_courseUpdater_other.
  - unfold allModulesCompleted.
    destruct (mock_courseUpdater_frame aid pct nb c) as (_ & -> & -> & _). done.
Qed.

Lemma gradeAll_completionAgrees (gs : list Grading) (c : Course) :
  completionAgrees c → completionAgrees (gradeAll c gs).
Proof.
  revert c. induction gs as [|g gs IH]; intros c Hinv; [done |].
  apply (IH (grade c g)). by apply grade_completionAgrees.
Qed.

Lemma newCourse_completionAgrees (now : string) (outline : CourseOutline) :
  co_modules outline ≠ [] → completionAgrees (newCourse now outline).
Proof.
  unfold completionAgrees, allModulesCompleted. simpl.
  by destruct (co_modules outline).
Qed.

Lemma newPathCourse_completionAgrees (now : string) (outline : CourseOutline) :
  co_modules outline ≠ [] → completionAgrees (newPathCourse now outline).
Proof.
  unfold completionAgrees, allModulesCompleted. simpl.
  by destruct (co_modules outline).
Qed.

End CompletionFacts.

(** C7, as the specification states it, fails at creation: a course made
    from an outline without modules has [isCompleted = false] although
    every one of its (zero) modules is completed. *)
Lemma C7_empty_course_counterexample :
  let s' := handleCreateCourse_settle "2024-03-03T00:00:00.000Z"
              (Resolved emptyOutline) emptyState in
  let c := newCourse "2024-03-03T00:00:00.000Z" emptyOutline in
  App.courses s' = [c]
  ∧ ¬ (Course_isCompleted c = true
       ↔ ∀ m, m ∈ modules c → Module_isCompleted m = true).
Proof.
  split; [reflexivity |].
  intros [_ Hall]. discriminate Hall. intros m Hm. by apply elem_of_nil in Hm.
Qed.

(** C7 (amended): for every course created with at least one module, alone
    or inside a learning path, and after any run of gradings,
    [isCompleted] is true exactly when every module is completed. *)
Theorem C7_completed_iff_all_modules
    (now : string) (outline : CourseOutline) (gs : list Grading) :
  co_modules outline ≠ [] →
  (let c := gradeAll (newCourse now outline) gs in
   Course_isCompleted c = true ↔ ∀ m, m ∈ modules c → Module_isCompleted m = true)
  ∧ (let c := gradeAll (newPathCourse now outline) gs in
     Course_isCompleted c = true ↔ ∀ m, m ∈ modules c → Module_isCompleted m = true).
Proof.
  intros Hne. split; intros c; rewrite <- allModulesCompleted_iff.
  - assert (Hinv : completionAgrees c)
      by (by apply gradeAll_completionAgrees, newCourse_completionAgrees).
    by rewrite Hinv.
  - assert (Hinv : completionAgrees c)
      by (by apply gradeAll_completionAgrees, newPathCourse_completionAgrees).
    by rewrite Hinv.
Qed.

(** C7 at work: a course of two modules whose quizzes are passed one after
    the other, with a failed attempt in between. *)
Lemma C7_completed_witness :
  let now := "2024-02-02T00:00:00.000Z" in
  let gs := [ModuleQuiz now 0 (Js.of_Z 100); ModuleQuiz now 1 (Js.of_Z 60);
             ModuleQuiz now 1 (Js.of_Z 80)] in
  let c := gradeAll (newCourse now twoModuleOutline) gs in
  co_modules twoModuleOutline ≠ []
  ∧ Course_isCompleted c = true
  ∧ (Course_isCompleted c = true ↔ ∀ m, m ∈ modules c → Module_isCompleted m = true).
Proof.
  intros now gs c.
  assert (Hne : co_modules twoModuleOutline ≠ []) by discriminate.
  split; [exact Hne |].
  split; [vm_compute; reflexivity |].
  exact (proj1 (C7_completed_iff_all_modules now twoModuleOutline gs Hne)).
Defined.


(** ** Grading does not depend on the order of the options *)

Lemma countFrom_Permutation
    (index : nat) (qs qs' : list Question) (answers answers' : gmap nat (list string)) :
  Forall2 (λ q q', correctAnswers q ≡ₚ correctAnswers q') qs qs' →
  (∀ i, option_Forall2 (≡ₚ) (answers !! i) (answers' !! i)) →
  countFrom index qs answers = countFrom index qs' answers'.
Proof.
  intros Hqs Hans. revert index.
  induction Hqs as [|q q' qs qs' Hq _ IH]; intros index; simpl; [done |].
  rewrite IH. f_equal. unfold exactlyMatches, submitted.
  assert (Hsel : default [] (answers !! index) ≡ₚ default [] (answers' !! index))
    by (destruct (Hans index); done).
  apply sort_eq_iff in Hsel, Hq. by rewrite Hsel, Hq.
Qed.

(** C9: let the answers of every question be submitted in another order,
    and let every [correctAnswers] be listed in another order: the score is
    the same, and so is the percentage. *)
Theorem C9_grading_order_independent
    (qz qz' : Quiz) (answers answers' : gmap nat (list string)) :
  Forall2 (λ q q', correctAnswers q ≡ₚ correctAnswers q') (questions qz) (questions qz') →
  (∀ i, option_Forall2 (≡ₚ) (answers !! i) (answers' !! i)) →
  graded_score (gradeLoop qz answers) = graded_score (gradeLoop qz' answers')
  ∧ percentageOf (graded_score (gradeLoop qz answers))
      (length (questions (graded_quiz (gradeLoop qz answers))))
    = percentageOf (graded_score (gradeLoop qz' answers'))
        (length (questions (graded_quiz (gradeLoop qz' answers')))).
Proof.
  intros Hqs Hans.
  assert (Hscore : graded_score (gradeLoop qz answers)
                   = graded_score (gradeLoop qz' answers')).
  { rewrite !gradeLoop_score, !spec_score_countFrom.
    by apply countFrom_Permutation. }
  split; [done |].
  by rewrite Hscore, !gradeLoop_total, (Forall2_length _ _ _ Hqs).
Qed.

(** C9 at work: the quiz of four questions with the answers of its second
    question listed as [b], [a] or as [a], [b], and that question answered
    with [a], [b] or with [b], [a]. *)
Lemma C9_order_witness :
  (Forall2 (λ q q', correctAnswers q ≡ₚ correctAnswers q')
     (questions quiz4) (questions quiz4_sorted)
   ∧ ∀ i, option_Forall2 (≡ₚ) (answers4of4 !! i) (answers4of4_swapped !! i))
  ∧ graded_score (gradeLoop quiz4 answers4of4) = 4
  ∧ graded_score (gradeLoop quiz4 answers4of4)
    = graded_score (gradeLoop quiz4_sorted answers4of4_swapped).
Proof.
  assert (Hqs : Forall2 (λ q q', correctAnswers q ≡ₚ correctAnswers q')
                  (questions quiz4) (questions quiz4_sorted)).
  { repeat constructor. }
  assert (Hans : ∀ i, option_Forall2 (≡ₚ) (answers4of4 !! i) (answers4of4_swapped !! i)).
  { intros i. unfold answers4of4, answers4of4_swapped.
    destruct (decide (i = 0)) as [->|]; [repeat constructor |].
    destruct (decide (i = 1)) as [->|]; [repeat constructor |].
    destruct (decide (i = 2)) as [->|]; [repeat constructor |].
    destruct (decide (i = 3)) as [->|]; [repeat constructor |].
    rewrite !lookup_insert_ne, !lookup_singleton_ne by done. constructor. }
  split; [exact (conj Hqs Hans) |].
  split; [vm_compute; reflexivity |].
  exact (proj1 (C9_grading_order_independent _ _ _ _ Hqs Hans)).
Defined.

(** ** What grading does to the quiz object *)

Lemma sortedQuestion_keeps (q : Question) :
  question (sortedQuestion q) = question q
  ∧ type (sortedQuestion q) = type q
  ∧ options (sortedQuestion q) = options q
  ∧ correctAnswers (sortedQuestion q) ≡ₚ correctAnswers q
  ∧ Sorted String.le (correctAnswers (sortedQuestion q)).
Proof.
  repeat split; simpl; [apply sort_Permutation | apply sort_Sorted].
Qed.

(** Both handlers leave the quiz they grade with every [correctAnswers]
    sorted: the same options, in another order as soon as the gateway had not
    listed them sorted.  Title, question texts, types and options stay, and
    so does every other quiz object. *)
Lemma grading_keeps_quiz_up_to_order
    (s : App.State) (answers : gmap nat (list string)) (l : ref) (qz : Quiz) :
  App.heap s !! l = Some qz →
  (∀ m idx ac,
     App.activeModule s = Some (m, idx) → App.activeCourse s = Some ac →
     quiz m = Some l →
     ∃ qz', App.heap (handleQuizSubmit answers s) !! l = Some qz'
       ∧ Quiz_title qz' = Quiz_title qz
       ∧ questions qz' = map sortedQuestion (questions qz)
       ∧ ∀ l', l' ≠ l → App.heap (handleQuizSubmit answers s) !! l' = App.heap s !! l')
  ∧ (∀ today ac,
       App.activeCourse s = Some ac → mockTest ac = Some l →
       ∃ qz', App.heap (handleMockTestSubmit today answers s) !! l = Some qz'
         ∧ Quiz_title qz' = Quiz_title qz
         ∧ questions qz' = map sortedQuestion (questions qz)
         ∧ ∀ l', l' ≠ l →
             App.heap (handleMockTestSubmit today answers s) !! l' = App.heap s !! l').
Proof.
  intros Hh. split.
  - intros m idx ac Hm Hc Hq.
    rewrite (handleQuizSubmit_heap s answers m idx ac l qz Hm Hc Hq Hh).
    eexists. split; [apply lookup_insert_eq |]. repeat split.
    intros l' Hne. by rewrite lookup_insert_ne.
  - intros today ac Hc Ht.
    rewrite (handleMockTestSubmit_heap s today answers ac l qz Hc Ht Hh).
    eexists. split; [apply lookup_insert_eq |]. repeat split.
    intros l' Hne. by rewrite lookup_insert_ne.
Qed.

(** C8 on the code: the quiz of four questions lists the answers of its
    second question as [b], [a]; after the module quiz has been graded the
    same object, still held by the module of the course, lists them as [a],
    [b].  The mock test handler does the same to its quiz. *)
Theorem C8_grading_reorders_correctAnswers :
  let s' := handleQuizSubmit answers4of4 quizState in
  let t' := handleMockTestSubmit "1/1/2024" answers4of4
              (mockTestState_of finishedCourse quiz4) in
  App.heap quizState !! 3 = Some quiz4
  ∧ App.heap s' !! 3 = Some quiz4_sorted
  ∧ App.heap t' !! 7 = Some quiz4_sorted
  ∧ quiz4_sorted ≠ quiz4
  ∧ correctAnswers <$> questions quiz4 = [["a"]; ["b"; "a"]; ["a"]; ["a"]]
  ∧ correctAnswers <$> questions quiz4_sorted = [["a"]; ["a"; "b"]; ["a"]; ["a"]]
  ∧ (λ c, quiz <$> modules c) <$> App.courses s' = [[Some 3; None]].
Proof. vm_compute. repeat split; discriminate. Qed.

(** ** Learning paths *)

Section PathFacts.

Lemma setAppView_activePath (v : View) (s : App.State) :
  v ≠ path → App.activePath (setAppView v s) = None.
Proof.
  intros Hv. unfold setAppView. rewrite (bool_decide_true (v ≠ path)) by done.
  destruct (bool_decide (v = dashboard)), (negb (keepsCourse v)); reflexivity.
Qed.

(** Without an active path the module quiz leaves the learning paths as
    they are. *)
Lemma handleQuizSubmit_without_activePath
    (answers : gmap nat (list string)) (s : App.State) :
  App.activePath s = None →
  App.learningPaths (handleQuizSubmit answers s) = App.learningPaths s.
Proof.
  intros Hnone. unfold handleQuizSubmit.
  destruct (App.activeModule s) as [[m idx]|]; [|done].
  destruct (App.activeCourse s) as [ac|]; [|done].
  destruct (quiz m) as [l|]; [|done].
  destruct (App.heap s !! l) as [qz|]; [|done].
  rewrite Hnone. by state_proj.
Qed.

Lemma setAppView_view (v : View) (s : App.State) : App.view (setAppView v s) = v.
Proof. reflexivity. Qed.

Lemma setAppView_learningPaths (v : View) (s : App.State) :
  App.learningPaths (setAppView v s) = App.learningPaths s.
Proof.
  unfold setAppView.
  destruct (bool_decide (v = dashboard)), (bool_decide (v ≠ path)),
    (negb (keepsCourse v)); reflexivity.
Qed.

(** No path is active in the quiz that the button of the module view opens,
    whatever the state it is pressed in; so the quiz submitted from there
    never reaches a learning path. *)
Lemma module_view_quiz_skips_paths
    (answers : gmap nat (list string)) (s : App.State) :
  App.view s = module → is_Some (App.activeModule s) →
  let s1 := ModuleView_startQuiz s in
  App.view s1 = quiz_view
  ∧ App.activePath s1 = None
  ∧ App.learningPaths (QuizView_submit answers s1) = App.learningPaths s.
Proof.
  intros Hview Hmod s1. subst s1. unfold ModuleView_startQuiz.
  rewrite !bool_decide_true by done. cbn [andb].
  split; [apply setAppView_view |].
  assert (Hnone : App.activePath (setAppView quiz_view s) = None)
    by (by apply setAppView_activePath).
  split; [done |]. unfold QuizView_submit.
  rewrite setAppView_view, bool_decide_true by done.
  by rewrite handleQuizSubmit_without_activePath, setAppView_learningPaths.
Qed.

(** With an active path, the path of that id is rebuilt: its courses go
    through the course updater, and [unlockedCourseIndex] grows by one
    exactly when the first course with the id of the active course is
    completed afterwards and sits at [unlockedCourseIndex]. *)
Lemma quiz_pathUpdater_spec
    (activePathId activeId : string) (activeIndex : nat) (percentage : Js.number)
    (p : LearningPath) :
  Path_id p = activePathId →
  let p' := quiz_pathUpdater activePathId activeId activeIndex percentage p in
  let cs' := map (quiz_courseUpdater activeId activeIndex percentage) (courses p) in
  courses p' = cs'
  ∧ (unlockedCourseIndex p' = unlockedCourseIndex p + 1
     ↔ ∃ i c', findIndex (hasId activeId) cs' = Some i ∧ cs' !! i = Some c'
               ∧ Course_isCompleted c' = true ∧ i = unlockedCourseIndex p)
  ∧ (unlockedCourseIndex p' = unlockedCourseIndex p
     ∨ unlockedCourseIndex p' = unlockedCourseIndex p + 1).
Proof.
  intros Hid p' cs'. subst p'. unfold quiz_pathUpdater.
  rewrite Hid, String.eqb_refl. cbn [negb courses unlockedCourseIndex]. fold cs'.
  split; [done |].
  destruct (findIndex (hasId activeId) cs') as [i|] eqn:Hfind.
  - destruct (cs' !! i) as [c'|] eqn:Hc'; cbn [from_option].
    + destruct (Course_isCompleted c') eqn:Hdone; cbn [andb].
      * destruct (Nat.eqb_spec i (unlockedCourseIndex p)) as [Hi|Hi].
        -- split; [|by right]. split; [|done]. intros _. by exists i, c'.
        -- split; [|by left]. split; [lia |]. intros (j & c2 & Hj & _ & _ & Hji).
           congruence.
      * split; [|by left]. split; [lia |]. intros (j & c2 & Hj & Hc2 & Hd & _).
        congruence.
    + cbn [andb]. split; [|by left]. split; [lia |].
      intros (j & c2 & Hj & Hc2 & _). congruence.
  - split; [|by left]. split; [lia |]. intros (j & c2 & Hj & _). congruence.
Qed.

End PathFacts.


(** C6 on the code: the user opens the learning path from the dashboard,
    opens its first course, opens the module, starts the quiz and answers
    every question right.  [setAppView] has dropped the active path on the
    way, so the handler skips the learning paths: the copy of the course in
    the path is not graded and [unlockedCourseIndex] stays at 0.  Had the
    path still been active, the same submission would have completed the
    course in the path and moved [unlockedCourseIndex] to 1. *)
Theorem C6_path_course_quiz_not_propagated :
  let s := pathQuizOpen in
  let s' := QuizView_submit answers4of4 s in
  App.view s = quiz_view
  ∧ App.activeCourse s = Some basicsCourse
  ∧ App.activeModule s = Some (readyModule "Introduction" (Some 3), 0)
  ∧ App.activePath s = None
  ∧ App.quizScore s' = (4, 4)
  ∧ App.view s' = quiz_results
  ∧ App.learningPaths s' = [demoPath]
  ∧ App.courses s' = []
  ∧ (λ p, (unlockedCourseIndex p, Course_isCompleted <$> courses p))
      <$> App.learningPaths
            (handleQuizSubmit answers4of4 (App.setActivePath (Some demoPath) s))
    = [(1, [true; false])].
Proof. vm_compute. repeat split. Qed.

(** ** Module generation *)

Section GenerationFacts.

Context (activeId : string) (moduleIndex : nat).

Lemma setModuleState_twice
    (st1 st2 : GenerationState) (c1 c2 : option string) (q1 q2 : option ref)
    (m : CourseModule) :
  setModuleState st2 c2 q2 (setModuleState st1 c1 q1 m) = setModuleState st2 c2 q2 m.
Proof. reflexivity. Qed.

Lemma generate_courseUpdater_id
    (st : GenerationState) (text : option string) (q : option ref) (c c' : Course) :
  generate_courseUpdater activeId moduleIndex st text q c = Some c' →
  Course_id c' = Course_id c ∧ length (modules c') = length (modules c).
Proof.
  unfold generate_courseUpdater. destruct (String.eqb _ _).
  - destruct (modules c !! moduleIndex); [|done].
    intros [= <-]. simpl. by rewrite length_insert.
  - by intros [= <-].
Qed.

Lemma generate_courseUpdater_lookup
    (st : GenerationState) (text : option string) (q : option ref)
    (c c' : Course) (m : CourseModule) :
  generate_courseUpdater activeId moduleIndex st text q c = Some c' →
  Course_id c = activeId → modules c !! moduleIndex = Some m →
  modules c' !! moduleIndex = Some (setModuleState st text q m)
  ∧ ∀ j, j ≠ moduleIndex → modules c' !! j = modules c !! j.
Proof.
  unfold generate_courseUpdater. intros Hupd Hid Hm.
  rewrite Hid, String.eqb_refl, Hm in Hupd. injection Hupd as <-. simpl. split.
  - apply list_lookup_insert_eq. by apply lookup_lt_Some in Hm.
  - intros j Hj. by apply list_lookup_insert_ne.
Qed.

Lemma generate_courseUpdater_is_Some
    (st : GenerationState) (text : option string) (q : option ref) (c : Course) :
  (Course_id c = activeId → moduleIndex < length (modules c)) →
  is_Some (generate_courseUpdater activeId moduleIndex st text q c).
Proof.
  intros Hrange. unfold generate_courseUpdater.
  destruct (String.eqb_spec (Course_id c) activeId) as [Hid|Hid]; [|by eexists].
  destruct (lookup_lt_is_Some_2 (modules c) moduleIndex (Hrange Hid)) as [m ->].
  by eexists.
Qed.

Lemma elem_of_concat {A : Type} (x : A) (ls : list (list A)) :
  x ∈ concat ls ↔ ∃ l, l ∈ ls ∧ x ∈ l.
Proof.
  rewrite list_elem_of_In, in_concat.
  split; intros (l & Hl & Hx); exists l; split; by apply list_elem_of_In.
Qed.

Lemma mapM_paths_Forall2
    (upd : Course → option Course) (ps ps' : list LearningPath) :
  mapM (λ p, pcs ← mapM upd (courses p); Some (Path_withCourses pcs p)) ps = Some ps' →
  Forall2 (λ c c', upd c = Some c')
    (concat (map courses ps)) (concat (map courses ps')).
Proof.
  rewrite mapM_Some. induction 1 as [|p p' ps ps' Hp _ IH]; simpl; [constructor |].
  apply Forall2_app; [|done].
  destruct (mapM upd (courses p)) as [pcs|] eqn:Hpcs; simpl in Hp; [|done].
  injection Hp as <-. simpl. by apply mapM_Some.
Qed.

Lemma updateModuleState_allCourses
    (st : GenerationState) (text : option string) (q : option ref)
    (s s' : App.State) :
  updateModuleState activeId moduleIndex st text q s = Some s' →
  Forall2 (λ c c', generate_courseUpdater activeId moduleIndex st text q c = Some c')
    (allCourses s) (allCourses s')
  ∧ App.heap s' = App.heap s.
Proof.
  unfold updateModuleState, allCourses.
  destruct (mapM _ (App.courses s)) as [cs|] eqn:Hcs; simpl; [|done].
  destruct (mapM _ (App.learningPaths s)) as [ps|] eqn:Hps; simpl; [|done].
  intros [= <-]. state_proj. split; [|done].
  apply Forall2_app; [by apply mapM_Some | by apply mapM_paths_Forall2].
Qed.

Lemma updateModuleState_is_Some
    (st : GenerationState) (text : option string) (q : option ref) (s : App.State) :
  inRange activeId moduleIndex s →
  is_Some (updateModuleState activeId moduleIndex st text q s).
Proof.
  intros Hrange. unfold updateModuleState.
  assert (Hcs : is_Some (mapM (generate_courseUpdater activeId moduleIndex st text q)
                           (App.courses s))).
  { apply mapM_is_Some, Forall_forall. intros c Hc.
    apply generate_courseUpdater_is_Some, Hrange.
    unfold allCourses. apply elem_of_app. by left. }
  destruct Hcs as [cs ->]. simpl.
  assert (Hps : is_Some
            (mapM (λ p, pcs ← mapM (generate_courseUpdater activeId moduleIndex st text q)
                                   (courses p);
                        Some (Path_withCourses pcs p)) (App.learningPaths s))).
  { apply mapM_is_Some, Forall_forall. intros p Hp. simpl.
    assert (Hpcs : is_Some (mapM (generate_courseUpdater activeId moduleIndex st text q)
                              (courses p))).
    { apply mapM_is_Some, Forall_forall. intros c Hc.
      apply generate_courseUpdater_is_Some, Hrange.
      unfold allCourses. apply elem_of_app. right.
      apply elem_of_concat. exists (courses p). split; [|done].
      by apply list_elem_of_fmap_2. }
    destruct Hpcs as [pcs ->]. by eexists. }
  destruct Hps as [ps ->]. by eexists.
Qed.

Lemma updateModuleState_inRange
    (st : GenerationState) (text : option string) (q : option ref)
    (s s' : App.State) :
  updateModuleState activeId moduleIndex st text q s = Some s' →
  inRange activeId moduleIndex s → inRange activeId moduleIndex s'.
Proof.
  intros Hupd Hrange c' Hc' Hid.
  destruct (updateModuleState_allCourses _ _ _ _ _ Hupd) as [Hall _].
  apply list_elem_of_lookup in Hc' as [k Hk].
  destruct (Forall2_lookup_r _ _ _ _ _ Hall Hk) as (c & Hc & Hcc').
  destruct (generate_courseUpdater_id _ _ _ _ _ Hcc') as [Hid' Hlen].
  rewrite Hlen. apply Hrange; [|congruence].
  apply list_elem_of_lookup. by exists k.
Qed.

(** One call of [updateModuleState], read at one module. *)
Lemma updateModuleState_module
    (st : GenerationState) (text : option string) (q : option ref)
    (s s' : App.State) (k : nat) (c : Course) (m : CourseModule) :
  updateModuleState activeId moduleIndex st text q s = Some s' →
  allCourses s !! k = Some c → Course_id c = activeId →
  modules c !! moduleIndex = Some m →
  ∃ c', allCourses s' !! k = Some c'
    ∧ Course_id c' = activeId
    ∧ modules c' !! moduleIndex = Some (setModuleState st text q m)
    ∧ ∀ j, j ≠ moduleIndex → modules c' !! j = modules c !! j.
Proof.
  intros Hupd Hk Hid Hm.
  destruct (updateModuleState_allCourses _ _ _ _ _ Hupd) as [Hall _].
  destruct (Forall2_lookup_l _ _ _ _ _ Hall Hk) as (c' & Hc' & Hcc').
  exists c'. split; [done |].
  split; [by destruct (generate_courseUpdater_id _ _ _ _ _ Hcc') as [-> _] |].
  by apply (generate_courseUpdater_lookup st text q c c' m).
Qed.

End GenerationFacts.

(** C5, as the specification states it, fails on a module that already
    holds content: asked to generate the completed module of [readyCourse]
    again, the handler drops its content and its quiz as soon as it enters
    [GENERATING], and a rejected gateway call leaves it [FAILED] without
    either. *)
Lemma C5_regeneration_counterexample :
  (λ m, (generationState m, content m, quiz m)) <$> modules readyCourse
  = [(READY, Some "text", Some 3)]
  ∧ (λ r, (λ c, (λ m, (generationState m, content m, quiz m)) <$> modules c)
            <$> App.courses r.1)
      <$> handleGenerateModule_call 0 readyCourseOpen
    = Some [[(GENERATING, None, None)]]
  ∧ (λ s', (λ c, (λ m, (generationState m, content m, quiz m)) <$> modules c)
             <$> App.courses s')
      <$> handleGenerateModule 0 (Rejected "Failed to generate module content and quiz.")
            readyCourseOpen
    = Some [[(FAILED, None, None)]].
Proof. vm_compute. done. Qed.

(** C5 (amended): a generation request sets the module to [GENERATING]
    before the gateway answers; when the gateway resolves, [content], [quiz]
    (a new quiz object) and [READY] are set in one update; when it rejects,
    the module is [FAILED].  The [GENERATING] and the [FAILED] update write
    [content] and [quiz] as undefined: a module that held neither still holds
    neither, and the other fields of the module are untouched.  This holds
    for the copy of the course in the courses and in every learning path. *)
Theorem C5_generation_transitions
    (s : App.State) (moduleIndex : nat) (ac : Course) :
  App.activeCourse s = Some ac →
  Js.truthy (App.apiKey s) = true →
  is_Some (modules ac !! moduleIndex) →
  inRange (Course_id ac) moduleIndex s →
  ∃ s1 p,
    handleGenerateModule_call moduleIndex s = Some (s1, Some p)
    ∧ (∀ k c m,
         allCourses s !! k = Some c → Course_id c = Course_id ac →
         modules c !! moduleIndex = Some m →
         ∃ c1, allCourses s1 !! k = Some c1
           ∧ modules c1 !! moduleIndex = Some (setModuleState GENERATING None None m)
           ∧ ∀ j, j ≠ moduleIndex → modules c1 !! j = modules c !! j)
    ∧ (∀ text q,
         ∃ s2 l,
           handleGenerateModule_settle p (Resolved (text, q)) s1 = Some s2
           ∧ App.heap s1 !! l = None ∧ App.heap s2 !! l = Some q
           ∧ ∀ k c m,
               allCourses s !! k = Some c → Course_id c = Course_id ac →
               modules c !! moduleIndex = Some m →
               ∃ c2, allCourses s2 !! k = Some c2
                 ∧ modules c2 !! moduleIndex
                   = Some (setModuleState READY (Some text) (Some l) m)
                 ∧ ∀ j, j ≠ moduleIndex → modules c2 !! j = modules c !! j)
    ∧ (∀ message,
         ∃ s2,
           handleGenerateModule_settle p (Rejected message) s1 = Some s2
           ∧ ∀ k c m,
               allCourses s !! k = Some c → Course_id c = Course_id ac →
               modules c !! moduleIndex = Some m →
               ∃ c2, allCourses s2 !! k = Some c2
                 ∧ modules c2 !! moduleIndex = Some (setModuleState FAILED None None m)
                 ∧ (content m = None → quiz m = None →
                    content (setModuleState FAILED None None m) = content m
                    ∧ quiz (setModuleState FAILED None None m) = quiz m)
                 ∧ ∀ j, j ≠ moduleIndex → modules c2 !! j = modules c !! j).
Proof.
  intros Hc Hkey [m0 Hm0] Hrange.
  destruct (updateModuleState_is_Some (Course_id ac) moduleIndex
              GENERATING None None s Hrange) as [s1 Hs1].
  pose proof (updateModuleState_inRange _ _ _ _ _ _ _ Hs1 Hrange) as Hrange1.
  exists s1, {| pending_course := ac; pending_index := moduleIndex |}.
  split.
  { unfold handleGenerateModule_call. rewrite Hc, Hkey, Hs1. simpl. by rewrite Hm0. }
  split.
  { intros k c m Hk Hid Hm.
    destruct (updateModuleState_module _ _ _ _ _ _ _ _ _ _ Hs1 Hk Hid Hm)
      as (c1 & Hk1 & _ & Hm1 & Hother).
    by exists c1. }
  split.
  - intros text q. cbn [handleGenerateModule_settle pending_course pending_index].
    set (l := fresh (dom (App.heap s1))).
    set (s1' := App.setHeap (<[l := q]> (App.heap s1)) s1).
    destruct (updateModuleState_is_Some (Course_id ac) moduleIndex
                READY (Some text) (Some l) s1' Hrange1) as [s2 Hs2].
    exists s2, l. split; [done |].
    split; [apply not_elem_of_dom, is_fresh |].
    destruct (updateModuleState_allCourses _ _ _ _ _ _ _ Hs2) as [_ Hheap].
    split; [rewrite Hheap; apply lookup_insert_eq |].
    intros k c m Hk Hid Hm.
    destruct (updateModuleState_module _ _ _ _ _ _ _ _ _ _ Hs1 Hk Hid Hm)
      as (c1 & Hk1 & Hid1 & Hm1 & Hother1).
    destruct (updateModuleState_module _ _ _ _ _ _ _ _ _ _ Hs2 Hk1 Hid1 Hm1)
      as (c2 & Hk2 & _ & Hm2 & Hother2).
    exists c2. split; [done |]. split; [done |].
    intros j Hj. by rewrite Hother2, Hother1.
  - intros message. cbn [handleGenerateModule_settle pending_course pending_index].
    destruct (updateModuleState_is_Some (Course_id ac) moduleIndex
                FAILED None None s1 Hrange1) as [s2 Hs2].
    exists s2. split; [done |].
    intros k c m Hk Hid Hm.
    destruct (updateModuleState_module _ _ _ _ _ _ _ _ _ _ Hs1 Hk Hid Hm)
      as (c1 & Hk1 & Hid1 & Hm1 & Hother1).
    destruct (updateModuleState_module _ _ _ _ _ _ _ _ _ _ Hs2 Hk1 Hid1 Hm1)
      as (c2 & Hk2 & _ & Hm2 & Hother2).
    exists c2. split; [done |]. split; [done |].
    split; [by intros -> -> |].
    intros j Hj. by rewrite Hother2, Hother1.
Qed.

(** C5 at work: the first module of a course that has just been created. *)
Lemma C5_generation_witness :
  let s := newCourseOpen in
  let ac := newCourse "2024-02-02T00:00:00.000Z" twoModuleOutline in
  (App.activeCourse s = Some ac ∧ Js.truthy (App.apiKey s) = true
   ∧ is_Some (modules ac !! 0) ∧ inRange (Course_id ac) 0 s)
  ∧ ∃ s1 p, handleGenerateModule_call 0 s = Some (s1, Some p)
      ∧ ∃ s2, handleGenerateModule_settle p (Rejected "no network") s1 = Some s2.
Proof.
  intros s ac.
  assert (H1 : App.activeCourse s = Some ac) by reflexivity.
  assert (H2 : Js.truthy (App.apiKey s) = true) by reflexivity.
  assert (H3 : is_Some (modules ac !! 0)) by (eexists; reflexivity).
  assert (H4 : inRange (Course_id ac) 0 s).
  { intros c Hc _. apply list_elem_of_singleton in Hc as ->. simpl. lia. }
  split; [exact (conj H1 (conj H2 (conj H3 H4))) |].
  destruct (C5_generation_transitions s 0 ac H1 H2 H3 H4)
    as (s1 & p & Hcall & _ & _ & Hrej).
  destruct (Hrej "no network") as (s2 & Hs2 & _).
  exists s1, p. split; [exact Hcall |]. by exists s2.
Defined.

Example generation_fails_then_succeeds :
  let summary (s' : App.State) :=
    (λ c, (λ m, (generationState m, content m, quiz m)) <$> modules c)
      <$> App.courses s' in
  (summary <$> handleGenerateModule 0 (Rejected "no network") newCourseOpen
   = Some [[(FAILED, None, None); (LOCKED, None, None)]])
  ∧ (summary <$> (handleGenerateModule 0 (Rejected "no network") newCourseOpen
                  ≫= handleGenerateModule 0 (Resolved ("text", quiz4)))
     = Some [[(READY, Some "text", Some 0); (LOCKED, None, None)]]).
Proof. vm_compute. done. Qed.


(** ** No learning path is ever active while a quiz is open *)

Section EventFacts.

Lemma setActiveCourse_each_view (l : list Course) (s : App.State) :
  App.view (App.setActiveCourse_each l s) = App.view s
  ∧ App.activePath (App.setActiveCourse_each l s) = App.activePath s.
Proof. unfold App.setActiveCourse_each. by destruct (last l). Qed.

Lemma updateModuleState_view
    (activeId : string) (moduleIndex : nat) (st : GenerationState)
    (text : option string) (q : option ref) (s s' : App.State) :
  updateModuleState activeId moduleIndex st text q s = Some s' →
  App.view s' = App.view s ∧ App.activePath s' = App.activePath s.
Proof.
  unfold updateModuleState.
  destruct (mapM _ (App.courses s)) as [cs|]; simpl; [|done].
  destruct (mapM _ (App.learningPaths s)) as [ps|]; simpl; [|done].
  intros [= <-].
  match goal with |- context [App.setActiveCourse_each ?l ?t] =>
    destruct (setActiveCourse_each_view l t) as [-> ->] end.
  done.
Qed.

Lemma updateActiveCourse_view (activeId : string) (f : Course → Course) (s : App.State) :
  App.view (updateActiveCourse activeId f s) = App.view s
  ∧ App.activePath (updateActiveCourse activeId f s) = App.activePath s.
Proof.
  unfold updateActiveCourse.
  match goal with |- context [App.setActiveCourse_each ?l ?t] =>
    destruct (setActiveCourse_each_view l t) as [-> ->] end.
  done.
Qed.

Lemma setAppView_quizHasNoPath (v : View) (s : App.State) :
  quizHasNoPath (setAppView v s).
Proof.
  intros Hv. rewrite setAppView_view in Hv. subst v.
  by apply setAppView_activePath.
Qed.

Lemma handleQuizSubmit_quizHasNoPath (answers : gmap nat (list string)) (s : App.State) :
  quizHasNoPath s → quizHasNoPath (handleQuizSubmit answers s).
Proof.
  intros Hs. unfold handleQuizSubmit.
  destruct (App.activeModule s) as [[m idx]|]; [|done].
  destruct (App.activeCourse s) as [ac|]; [|done].
  destruct (quiz m) as [l|]; [|done].
  destruct (App.heap s !! l) as [qz|]; [|done].
  intros Hv. discriminate Hv.
Qed.

Lemma handleMockTestSubmit_quizHasNoPath
    (today : string) (answers : gmap nat (list string)) (s : App.State) :
  quizHasNoPath s → quizHasNoPath (handleMockTestSubmit today answers s).
Proof.
  intros Hs. unfold handleMockTestSubmit.
  destruct (App.activeCourse s) as [ac|]; [|done].
  destruct (mockTest ac) as [l|]; [|done].
  destruct (App.heap s !! l) as [qz|]; [|done].
  intros Hv. discriminate Hv.
Qed.

(** Every event keeps [quizHasNoPath]. *)
Lemma step_quizHasNoPath (e : Event) (s s' : App.State) :
  quizHasNoPath s → step e s = Some s' → quizHasNoPath s'.
Proof.
  intros Hs Hstep. destruct e; simpl in Hstep.
  all: try (injection Hstep as <-).
  all: try (apply setAppView_quizHasNoPath).
  all: try (by (intros Hv; discriminate Hv)).
  - (* PathView_course *)
    unfold PathView_handleCourseClick.
    destruct (App.activePath s) as [ap|] eqn:Hap; [|done].
    destruct (courses ap !! index); [|done].
    destruct (_ && _); [apply setAppView_quizHasNoPath | done].
  - (* CourseView_module *)
    unfold CourseView_moduleClick.
    destruct (App.activeCourse s) as [ac|]; [|done].
    destruct (modules ac !! index); [|done].
    destruct (_ && _); [apply setAppView_quizHasNoPath | done].
  - (* CourseView_generateModule *)
    unfold handleGenerateModule_call in Hstep.
    destruct (App.activeCourse s) as [ac|]; [|by injection Hstep as <-].
    destruct (Js.truthy (App.apiKey s)); [|by injection Hstep as <-].
    destruct (updateModuleState _ _ GENERATING _ _ s) as [s1|] eqn:Hs1;
      simpl in Hstep; [|done].
    destruct (updateModuleState_view _ _ _ _ _ _ _ Hs1) as [Hv1 Hp1].
    destruct (modules ac !! index).
    + injection Hstep as <-. unfold quizHasNoPath. by rewrite Hv1, Hp1.
    + destruct (updateModuleState _ _ FAILED _ _ s1) as [s2|] eqn:Hs2;
        simpl in Hstep; [|done].
      destruct (updateModuleState_view _ _ _ _ _ _ _ Hs2) as [Hv2 Hp2].
      injection Hstep as <-. unfold quizHasNoPath. by rewrite Hv2, Hp2, Hv1, Hp1.
  - (* GenerateModule_settled *)
    unfold handleGenerateModule_settle in Hstep. destruct r as [[text q]|msg].
    + destruct (updateModuleState_view _ _ _ _ _ _ _ Hstep) as [Hv Hp].
      unfold quizHasNoPath. by rewrite Hv, Hp.
    + destruct (updateModuleState_view _ _ _ _ _ _ _ Hstep) as [Hv Hp].
      unfold quizHasNoPath. by rewrite Hv, Hp.
  - (* CourseView_generateMockTest *)
    unfold handleGenerateMockTest_call.
    destruct (App.activeCourse s) as [ac|]; [|done].
    destruct (Js.truthy (App.apiKey s)); [|done]. simpl.
    destruct (updateActiveCourse_view (Course_id ac)
                (Course_withMockTestState GENERATING) s) as [Hv Hp].
    unfold quizHasNoPath. by rewrite Hv, Hp.
  - (* GenerateMockTest_settled *)
    unfold handleGenerateMockTest_settle. destruct r as [q|msg].
    + match goal with |- quizHasNoPath (updateActiveCourse ?a ?f ?t) =>
        destruct (updateActiveCourse_view a f t) as [Hv Hp] end.
      unfold quizHasNoPath. by rewrite Hv, Hp.
    + destruct (updateActiveCourse_view (Course_id ac)
                  (Course_withMockTestState FAILED) s) as [Hv Hp].
      unfold quizHasNoPath. by rewrite Hv, Hp.
  - (* ModuleView_quiz *)
    unfold ModuleView_startQuiz.
    destruct (_ && _); [apply setAppView_quizHasNoPath | done].
  - (* QuizView_submitted *)
    unfold QuizView_submit.
    destruct (bool_decide _); [by apply handleQuizSubmit_quizHasNoPath | done].
  - (* MockTestView_submitted *)
    destruct (bool_decide _); [by apply handleMockTestSubmit_quizHasNoPath | done].
  - (* CreateCourse_called *)
    unfold handleCreateCourse_call.
    destruct (negb _); intros Hv; discriminate Hv.
  - (* CreateCourse_settled *)
    unfold handleCreateCourse_settle. destruct r; intros Hv; discriminate Hv.
  - (* CreateLearningPath_called *)
    unfold handleCreateLearningPath_call.
    destruct (negb _); intros Hv; discriminate Hv.
  - (* CreateLearningPath_settled *)
    unfold handleCreateLearningPath_settle. destruct r; intros Hv; discriminate Hv.
  - (* ProfileView_apiKey *) exact Hs.
Qed.

Lemma run_quizHasNoPath (es : list Event) (s s' : App.State) :
  quizHasNoPath s → run es s = Some s' → quizHasNoPath s'.
Proof.
  revert s. induction es as [|e es IH]; intros s Hs; simpl.
  - by intros [= <-].
  - destruct (step e s) as [s1|] eqn:Hstep; simpl; [|done].
    apply IH. by apply (step_quizHasNoPath e s).
Qed.

(** Whatever the user has done since the dashboard was shown, a submitted
    module quiz leaves the learning paths as they are. *)
Lemma quiz_never_grades_a_path
    (es : list Event) (s s' : App.State) (answers : gmap nat (list string)) :
  App.view s = dashboard → run es s = Some s' →
  App.learningPaths (QuizView_submit answers s') = App.learningPaths s'.
Proof.
  intros Hview Hrun.
  assert (Hinv : quizHasNoPath s') .
  { apply (run_quizHasNoPath es s); [|done]. intros Hq. by rewrite Hview in Hq. }
  unfold QuizView_submit. case_bool_decide as Hv; [|done].
  by apply handleQuizSubmit_without_activePath, Hinv.
Qed.

End EventFacts.

(** * Further properties of the handlers *)

(** ** Unanswered questions and the bounds of the score *)

Lemma sort_nil_iff (l : list string) : Js.sort l = [] ↔ l = [].
Proof.
  split; [|by intros ->].
  intros Hnil. apply Permutation_nil_r. rewrite <- Hnil. symmetry. apply sort_Permutation.
Qed.

Lemma countFrom_unanswered (index : nat) (qs : list Question) :
  countFrom index qs ∅ = length (filter (λ q, correctAnswers q = []) qs).
Proof.
  revert index. induction qs as [|q qs IH]; intros index; [done |].
  cbn [countFrom]. rewrite filter_cons, IH.
  unfold exactlyMatches, submitted. rewrite lookup_empty. cbn [default].
  change (Js.sort []) with (@nil string).
  destruct (decide (correctAnswers q = [])) as [Hq|Hq].
  - rewrite bool_decide_true by (by rewrite Hq). done.
  - rewrite bool_decide_false; [done |].
    intros Heq. by apply Hq, sort_nil_iff.
Qed.

(** X1: a question for which nothing is submitted (no entry, or an empty
    selection) counts as right exactly when its [correctAnswers] is empty;
    so a quiz submitted untouched scores the number of its questions without
    a correct answer. *)
Theorem unanswered_question_matches_iff_no_correct_answer
    (qz : Quiz) (answers : gmap nat (list string)) (index : nat) (q : Question) :
  (answers !! index = None ∨ answers !! index = Some []) →
  (exactlyMatches answers index q = true ↔ correctAnswers q = [])
  ∧ graded_score (gradeLoop qz ∅)
    = length (filter (λ q, correctAnswers q = []) (questions qz)).
Proof.
  intros Hnone. split.
  - unfold exactlyMatches, submitted.
    assert (Hsel : default [] (answers !! index) = []) by (by destruct Hnone as [-> | ->]).
    rewrite Hsel. change (Js.sort []) with (@nil string).
    rewrite bool_decide_eq_true. split.
    + intros Heq. by apply sort_nil_iff.
    + by intros ->.
  - rewrite gradeLoop_score, spec_score_countFrom. apply countFrom_unanswered.
Qed.

Lemma unanswered_question_witness :
  ((firstRight 2 !! 3 = None ∨ firstRight 2 !! 3 = Some []))
  ∧ exactlyMatches (firstRight 2) 3 questionA = false
  ∧ graded_score (gradeLoop quiz4 ∅) = 0.
Proof.
  assert (H : firstRight 2 !! 3 = None ∨ firstRight 2 !! 3 = Some [])
    by (left; vm_compute; reflexivity).
  destruct (unanswered_question_matches_iff_no_correct_answer quiz4 _ 3 questionA H)
    as [Hiff Hscore].
  split; [exact H |]. split.
  - destruct (exactlyMatches (firstRight 2) 3 questionA) eqn:Hm; [|reflexivity].
    discriminate (proj1 Hiff eq_refl).
  - etrans; [exact Hscore | vm_compute; reflexivity].
Defined.

Lemma countFrom_full (index : nat) (qs : list Question) (answers : gmap nat (list string)) :
  countFrom index qs answers = length qs
  ↔ ∀ i q, qs !! i = Some q → exactlyMatches answers (index + i) q = true.
Proof.
  revert index. induction qs as [|q qs IH]; intros index.
  - split; [intros _ i q Hq; by rewrite lookup_nil in Hq | done].
  - cbn [countFrom length]. pose proof (countFrom_le (S index) qs answers) as Hle.
    split.
    + intros Hfull i q' Hq'.
      destruct (exactlyMatches answers index q) eqn:Hm; [|lia].
      destruct i as [|i]; simpl in Hq'.
      * injection Hq' as <-. by rewrite Nat.add_0_r.
      * replace (index + S i) with (S index + i) by lia.
        apply (proj1 (IH (S index))); [lia | done].
    + intros Hall.
      rewrite (proj2 (IH (S index))).
      * specialize (Hall 0 q eq_refl). rewrite Nat.add_0_r in Hall. by rewrite Hall.
      * intros i q' Hq'. replace (S index + i) with (index + S i) by lia.
        by apply Hall.
Qed.

Lemma countFrom_none (index : nat) (qs : list Question) (answers : gmap nat (list string)) :
  countFrom index qs answers = 0
  ↔ ∀ i q, qs !! i = Some q → exactlyMatches answers (index + i) q = false.
Proof.
  revert index. induction qs as [|q qs IH]; intros index.
  - split; [intros _ i q Hq; by rewrite lookup_nil in Hq | done].
  - cbn [countFrom]. split.
    + intros Hzero i q' Hq'.
      destruct (exactlyMatches answers index q) eqn:Hm; [lia |].
      destruct i as [|i]; simpl in Hq'.
      * injection Hq' as <-. by rewrite Nat.add_0_r.
      * replace (index + S i) with (S index + i) by lia.
        apply (proj1 (IH (S index))); [lia | done].
    + intros Hall.
      rewrite (proj2 (IH (S index))).
      * specialize (Hall 0 q eq_refl). rewrite Nat.add_0_r in Hall. by rewrite Hall.
      * intros i q' Hq'. replace (S index + i) with (index + S i) by lia.
        by apply Hall.
Qed.


(** X2: the score lies between 0 and the number of questions; it is the
    number of questions exactly when every question matches, and 0 exactly
    when none does. *)
Theorem score_between_zero_and_total (qz : Quiz) (answers : gmap nat (list string)) :
  let sc := graded_score (gradeLoop qz answers) in
  sc ≤ length (questions qz)
  ∧ (sc = length (questions qz)
     ↔ ∀ i q, questions qz !! i = Some q → exactlyMatches answers i q = true)
  ∧ (sc = 0
     ↔ ∀ i q, questions qz !! i = Some q → exactlyMatches answers i q = false).
Proof.
  intros sc. subst sc. rewrite gradeLoop_score, spec_score_countFrom.
  split; [apply countFrom_le |].
  split; [apply (countFrom_full 0) | apply (countFrom_none 0)].
Qed.

(** ** How many right answers pass *)

Lemma thresholds_table :
  Forall (λ total, Forall (λ sc, thresholds_agree sc total) (seq 0 (S total)))
         (seq 1 39).
Proof. apply (bool_decide_unpack _). vm_compute. exact I. Qed.

(** X3: on a quiz of one to thirty-nine questions the tests on the
    percentage are tests on the score: [percentage >= 80] holds exactly from
    79.5 % of the questions on (four of five, five of six, six of seven),
    [>= 70] from 69.5 %, [>= 85] from 84.5 % and [>= 90] from 89.5 %. *)
Theorem pass_marks_on_small_quizzes (sc total : nat) :
  0 < total < 40 → sc ≤ total →
  (Js.ge (percentageOf sc total) (Js.of_Z 80) = true ↔ 159 * total ≤ 200 * sc)
  ∧ (Js.ge (percentageOf sc total) (Js.of_Z 70) = true ↔ 139 * total ≤ 200 * sc)
  ∧ (Js.ge (percentageOf sc total) (Js.of_Z 85) = true ↔ 169 * total ≤ 200 * sc)
  ∧ (Js.ge (percentageOf sc total) (Js.of_Z 90) = true ↔ 179 * total ≤ 200 * sc).
Proof.
  intros Htotal Hsc.
  pose proof thresholds_table as Htab.
  rewrite Forall_forall in Htab.
  specialize (Htab total). rewrite Forall_forall in Htab.
  destruct (Htab ltac:(apply elem_of_seq; lia) sc ltac:(apply elem_of_seq; lia))
    as (-> & -> & -> & ->).
  by rewrite !bool_decide_eq_true.
Qed.

Lemma pass_marks_witness :
  (0 < 5 < 40 ∧ 4 ≤ 5)
  ∧ Js.ge (percentageOf 4 5) (Js.of_Z 80) = true
  ∧ (Js.ge (percentageOf 3 5) (Js.of_Z 80) = true ↔ 159 * 5 ≤ 200 * 3).
Proof.
  assert (H1 : 0 < 5 < 40) by lia.
  split; [split; [exact H1 | lia] |].
  split.
  - apply (proj1 (pass_marks_on_small_quizzes 4 5 H1 ltac:(lia))). lia.
  - exact (proj1 (pass_marks_on_small_quizzes 3 5 H1 ltac:(lia))).
Defined.

(** ** What a run of gradings keeps *)

Section GradingInvariants.

Lemma grade_length (c : Course) (g : Grading) :
  length (modules (grade c g)) = length (modules c).
Proof.
  destruct g as [aid idx pct|aid pct nb]; simpl.
  - by destruct (quiz_courseUpdater_frame aid idx pct c) as (_ & _ & _ & _ & _ & _ & ->).
  - by destruct (mock_courseUpdater_frame aid pct nb c) as (_ & -> & _).
Qed.

Lemma gradeAll_length (gs : list Grading) (c : Course) :
  length (modules (gradeAll c gs)) = length (modules c).
Proof.
  revert c. induction gs as [|g gs IH]; intros c; [done |].
  unfold gradeAll in *. simpl. by rewrite IH, grade_length.
Qed.

Lemma graded_module_keeps_completion (percentage : Js.number) (b : bool) (m : CourseModule) :
  Module_isCompleted m = true →
  Module_isCompleted
    (if b then (if Js.ge percentage (Js.of_Z 80) then passModule percentage m
                else failModule m) else m) = true.
Proof. intros Hm. destruct b; [|done]. by destruct (Js.ge _ _). Qed.

Lemma grade_monotone (c : Course) (g : Grading) :
  (Course_isCompleted c = true → Course_isCompleted (grade c g) = true)
  ∧ unlockedModuleIndex c ≤ unlockedModuleIndex (grade c g)
  ∧ ∀ i m, modules c !! i = Some m →
      ∃ m', modules (grade c g) !! i = Some m'
        ∧ (Module_isCompleted m = true → Module_isCompleted m' = true).
Proof.
  destruct g as [aid idx pct|aid pct nb]; simpl.
  - destruct (decide (Course_id c = aid)) as [Hid|Hid].
    + split; [|split].
      * rewrite quiz_courseUpdater_isCompleted by done. intros ->. apply orb_true_r.
      * rewrite quiz_courseUpdater_unlocked by done. destruct (_ && _); lia.
      * intros i m Hm. rewrite quiz_courseUpdater_lookup, Hm by done. simpl.
        eexists. split; [done |]. apply graded_module_keeps_completion.
    + rewrite quiz_courseUpdater_other by done.
      split; [done |]. split; [done |]. intros i m Hm. by exists m.
  - destruct (mock_courseUpdater_frame aid pct nb c) as (_ & -> & -> & -> & _).
    split; [done |]. split; [done |]. intros i m Hm. by exists m.
Qed.

Lemma grade_prefix (c : Course) (g : Grading) :
  unlockedPrefixCompleted c → unlockedPrefixCompleted (grade c g).
Proof.
  intros Hpre. destruct g as [aid idx pct|aid pct nb]; simpl.
  - destruct (decide (Course_id c = aid)) as [Hid|Hid];
      [|by rewrite quiz_courseUpdater_other].
    intros i m'. rewrite quiz_courseUpdater_unlocked, quiz_courseUpdater_lookup by done.
    destruct (modules c !! i) as [m|] eqn:Hm; simpl; [|done].
    intros Hi [= <-].
    destruct (decide (i < unlockedModuleIndex c)) as [Hlt|Hge].
    + apply graded_module_keeps_completion. by apply (Hpre i).
    + destruct (Js.ge pct (Js.of_Z 80)) eqn:Hpass; simpl in Hi; [|lia].
      case_bool_decide as Hfront; [|lia].
      rewrite bool_decide_true by lia. done.
  - intros i m.
    destruct (mock_courseUpdater_frame aid pct nb c) as (_ & -> & _ & -> & _).
    apply Hpre.
Qed.

Lemma grade_bound (c : Course) (g : Grading) :
  addressesModules (length (modules c)) g →
  unlockedModuleIndex c ≤ length (modules c) →
  unlockedModuleIndex (grade c g) ≤ length (modules (grade c g)).
Proof.
  intros Hg Hle. rewrite grade_length.
  destruct g as [aid idx pct|aid pct nb]; simpl in *.
  - destruct (decide (Course_id c = aid)) as [Hid|Hid];
      [|by rewrite quiz_courseUpdater_other].
    rewrite quiz_courseUpdater_unlocked by done.
    destruct (Js.ge pct (Js.of_Z 80)); simpl; [|done].
    case_bool_decide; lia.
  - by destruct (mock_courseUpdater_frame aid pct nb c) as (_ & _ & _ & -> & _).
Qed.

End GradingInvariants.

(** X4: grading never takes progress back.  Over any run of gradings a
    completed module stays completed (whatever the later percentages), a
    completed course stays completed, [unlockedModuleIndex] never decreases
    and the number of modules stays. *)
Theorem progress_is_never_taken_back (c : Course) (gs : list Grading) :
  (Course_isCompleted c = true → Course_isCompleted (gradeAll c gs) = true)
  ∧ unlockedModuleIndex c ≤ unlockedModuleIndex (gradeAll c gs)
  ∧ length (modules (gradeAll c gs)) = length (modules c)
  ∧ ∀ i m, modules c !! i = Some m →
      ∃ m', modules (gradeAll c gs) !! i = Some m'
        ∧ (Module_isCompleted m = true → Module_isCompleted m' = true).
Proof.
  split; [|split; [|split; [apply gradeAll_length |]]]; revert c;
    induction gs as [|g gs IH]; intros c; try done.
  - intros Hc. apply (IH (grade c g)). by apply grade_monotone.
  - etrans; [|apply (IH (grade c g))]. apply grade_monotone.
  - intros i m Hm. by exists m.
  - intros i m Hm.
    destruct (proj2 (proj2 (grade_monotone c g)) i m Hm) as (m1 & Hm1 & Hkeep1).
    destruct (IH (grade c g) i m1 Hm1) as (m' & Hm' & Hkeep).
    exists m'. split; [done |]. auto.
Qed.

(** X5: from creation on, and through any run of gradings, every module
    below [unlockedModuleIndex] is completed: the index only moves past a
    module whose quiz was passed. *)
Theorem modules_below_the_unlock_index_are_completed
    (now : string) (outline : CourseOutline) (gs : list Grading) :
  unlockedPrefixCompleted (gradeAll (newCourse now outline) gs)
  ∧ unlockedPrefixCompleted (gradeAll (newPathCourse now outline) gs).
Proof.
  assert (Hall : ∀ c, unlockedPrefixCompleted c → unlockedPrefixCompleted (gradeAll c gs)).
  { induction gs as [|g gs IH]; intros c Hc; [done |].
    apply (IH (grade c g)). by apply grade_prefix. }
  split; apply Hall; intros i m Hi; simpl in Hi; lia.
Qed.

(** X6: as long as the module quizzes address modules of the course,
    [unlockedModuleIndex] stays within [0 .. modules.length]. *)
Theorem unlock_index_stays_in_bounds
    (now : string) (outline : CourseOutline) (gs : list Grading) :
  Forall (addressesModules (length (co_modules outline))) gs →
  unlockedModuleIndex (gradeAll (newCourse now outline) gs)
    ≤ length (modules (gradeAll (newCourse now outline) gs))
  ∧ unlockedModuleIndex (gradeAll (newPathCourse now outline) gs)
    ≤ length (modules (gradeAll (newPathCourse now outline) gs)).
Proof.
  intros Hgs.
  assert (Hall : ∀ c, length (modules c) = length (co_modules outline) →
                      unlockedModuleIndex c ≤ length (modules c) →
                      unlockedModuleIndex (gradeAll c gs) ≤ length (modules (gradeAll c gs))).
  { induction Hgs as [|g gs Hg _ IH]; intros c Hlen Hle; [done |].
    apply (IH (grade c g)).
    - by rewrite grade_length.
    - apply grade_bound; [by rewrite Hlen | done]. }
  split; apply Hall; simpl; rewrite ?length_map; lia.
Qed.

Lemma unlock_index_witness :
  let now := "2024-02-02T00:00:00.000Z" in
  let gs := [ModuleQuiz now 0 (Js.of_Z 100); ModuleQuiz now 1 (Js.of_Z 90);
             ModuleQuiz now 1 (Js.of_Z 95)] in
  Forall (addressesModules (length (co_modules twoModuleOutline))) gs
  ∧ unlockedModuleIndex (gradeAll (newCourse now twoModuleOutline) gs) = 2
  ∧ unlockedModuleIndex (gradeAll (newCourse now twoModuleOutline) gs)
    ≤ length (modules (gradeAll (newCourse now twoModuleOutline) gs)).
Proof.
  intros now gs.
  assert (H : Forall (addressesModules (length (co_modules twoModuleOutline))) gs).
  { repeat constructor; simpl; lia. }
  split; [exact H |]. split; [vm_compute; reflexivity |].
  exact (proj1 (unlock_index_stays_in_bounds now twoModuleOutline gs H)).
Defined.

(** ** What a module quiz leaves alone *)

Section QuizFrame.

Lemma setActiveCourse_each_rest (l : list Course) (s : App.State) :
  App.activeModule (App.setActiveCourse_each l s) = App.activeModule s
  ∧ App.apiKey (App.setActiveCourse_each l s) = App.apiKey s
  ∧ (is_Some (App.activeCourse s) → is_Some (App.activeCourse (App.setActiveCourse_each l s))).
Proof. unfold App.setActiveCourse_each. destruct (last l); simpl; eauto. Qed.

Lemma setActivePath_each_rest (l : list LearningPath) (s : App.State) :
  App.activeModule (App.setActivePath_each l s) = App.activeModule s
  ∧ App.apiKey (App.setActivePath_each l s) = App.apiKey s
  ∧ App.activeCourse (App.setActivePath_each l s) = App.activeCourse s.
Proof. unfold App.setActivePath_each. by destruct (last l). Qed.

Lemma handleQuizSubmit_rest (answers : gmap nat (list string)) (s : App.State) :
  App.activeModule (handleQuizSubmit answers s) = App.activeModule s
  ∧ App.apiKey (handleQuizSubmit answers s) = App.apiKey s
  ∧ (is_Some (App.activeCourse s) →
     is_Some (App.activeCourse (handleQuizSubmit answers s))).
Proof.
  unfold handleQuizSubmit.
  destruct (App.activeModule s) as [[m idx]|] eqn:Hm; [|done].
  destruct (App.activeCourse s) as [ac|] eqn:Hc; [|done].
  destruct (quiz m) as [l|]; [|by rewrite Hm, Hc].
  destruct (App.heap s !! l) as [qz|]; [|by rewrite Hm, Hc].
  destruct (App.activePath s) as [ap|]; cbn [App.activeModule App.apiKey
    App.activeCourse App.setView].
  - match goal with |- context [App.setActivePath_each ?l1 (App.setActiveCourse_each ?l2
                                 (App.setLearningPaths ?ps (App.setActiveCourse_each ?l3 ?t)))] =>
      destruct (setActivePath_each_rest l1
                  (App.setActiveCourse_each l2
                     (App.setLearningPaths ps (App.setActiveCourse_each l3 t))))
        as (-> & -> & ->);
      destruct (setActiveCourse_each_rest l2
                  (App.setLearningPaths ps (App.setActiveCourse_each l3 t)))
        as (-> & -> & H2);
      destruct (setActiveCourse_each_rest l3 t) as (H3a & H3b & H3)
    end.
    simpl in *. rewrite H3a, H3b. split; [by rewrite Hm|]. split; [done |].
    intros _. apply H2, H3. rewrite Hc. by eexists.
  - match goal with |- context [App.setActiveCourse_each ?l3 ?t] =>
      destruct (setActiveCourse_each_rest l3 t) as (-> & -> & H3) end.
    simpl. split; [by rewrite Hm |]. split; [done |]. intros _. apply H3.
    simpl. rewrite Hc. by eexists.
Qed.

(** Whatever the state, the courses go through one updater, or the handler
    returns at once. *)
Lemma handleQuizSubmit_courses_shape (answers : gmap nat (list string)) (s : App.State) :
  handleQuizSubmit answers s = s
  ∨ ∃ ac am idx pct,
      App.activeCourse s = Some ac ∧ App.activeModule s = Some (am, idx)
      ∧ App.courses (handleQuizSubmit answers s)
        = map (quiz_courseUpdater (Course_id ac) idx pct) (App.courses s).
Proof.
  destruct (App.activeModule s) as [[m idx]|] eqn:Hm;
    [|left; unfold handleQuizSubmit; by rewrite Hm].
  destruct (App.activeCourse s) as [ac|] eqn:Hc;
    [|left; unfold handleQuizSubmit; by rewrite Hm, Hc].
  destruct (quiz m) as [l|] eqn:Hq;
    [|left; unfold handleQuizSubmit; by rewrite Hm, Hc, Hq].
  destruct (App.heap s !! l) as [qz|] eqn:Hh;
    [|left; unfold handleQuizSubmit; by rewrite Hm, Hc, Hq, Hh].
  right. eexists ac, m, idx, _. split; [done |]. split; [done |].
  apply (handleQuizSubmit_courses s answers m idx ac l qz Hm Hc Hq Hh).
Qed.

Lemma quiz_courseUpdater_module_frame
    (aid : string) (idx : nat) (pct : Js.number) (c : Course) (j : nat) (m : CourseModule) :
  modules c !! j = Some m →
  ∃ m', modules (quiz_courseUpdater aid idx pct c) !! j = Some m'
    ∧ Module_title m' = Module_title m ∧ objective m' = objective m
    ∧ content m' = content m ∧ quiz m' = quiz m
    ∧ generationState m' = generationState m
    ∧ (j ≠ idx → m' = m).
Proof.
  intros Hm. destruct (decide (Course_id c = aid)) as [Hid|Hid].
  - rewrite quiz_courseUpdater_lookup, Hm by done. simpl.
    eexists. split; [done |].
    case_bool_decide as Hj; [|done].
    destruct (Js.ge pct (Js.of_Z 80)); repeat split; done.
  - rewrite quiz_courseUpdater_other by done. by exists m.
Qed.

End QuizFrame.

(** X7: whatever the state and the answers, [handleQuizSubmit] leaves the
    active module and the API key as they are, keeps every course in its
    place with its id, title, description, badge, mock test and mock test
    score, keeps every module in its place with its title, objective,
    content, quiz and generation state, and changes no module other than the
    one at the index of the active module and no course with another id than
    the active one. *)
Theorem module_quiz_touches_only_the_graded_module
    (s : App.State) (answers : gmap nat (list string)) :
  let s' := handleQuizSubmit answers s in
  App.activeModule s' = App.activeModule s
  ∧ App.apiKey s' = App.apiKey s
  ∧ length (App.courses s') = length (App.courses s)
  ∧ ∀ k c, App.courses s !! k = Some c →
      ∃ c', App.courses s' !! k = Some c'
        ∧ Course_id c' = Course_id c ∧ Course_title c' = Course_title c
        ∧ Course_description c' = Course_description c
        ∧ badge c' = badge c ∧ mockTest c' = mockTest c
        ∧ mockTestState c' = mockTestState c ∧ mockTestScore c' = mockTestScore c
        ∧ (∀ ac, App.activeCourse s = Some ac → Course_id c ≠ Course_id ac → c' = c)
        ∧ ∀ j m, modules c !! j = Some m →
            ∃ m', modules c' !! j = Some m'
              ∧ Module_title m' = Module_title m ∧ objective m' = objective m
              ∧ content m' = content m ∧ quiz m' = quiz m
              ∧ generationState m' = generationState m
              ∧ (∀ am idx, App.activeModule s = Some (am, idx) → j ≠ idx → m' = m).
Proof.
  intros s'. subst s'.
  destruct (handleQuizSubmit_rest answers s) as (Hm & Hk & _).
  split; [done |]. split; [done |].
  destruct (handleQuizSubmit_courses_shape answers s)
    as [-> | (ac & am & idx & pct & Hc & Ham & ->)].
  - split; [done |]. intros k c Hc. exists c. repeat split; try done.
    intros j m Hj. exists m. repeat split; done.
  - split; [by rewrite length_map |]. intros k c Hkc.
    exists (quiz_courseUpdater (Course_id ac) idx pct c).
    split; [by rewrite list_lookup_fmap, Hkc |].
    split; [apply quiz_courseUpdater_id |].
    destruct (quiz_courseUpdater_frame (Course_id ac) idx pct c)
      as (-> & -> & -> & -> & -> & -> & _).
    repeat (split; [done |]).
    split.
    + intros ac' Hac' Hne. rewrite Hc in Hac'. injection Hac' as <-.
      by apply quiz_courseUpdater_other.
    + intros j m Hj.
      destruct (quiz_courseUpdater_module_frame (Course_id ac) idx pct c j m Hj)
        as (m' & Hm' & H1 & H2 & H3 & H4 & H5 & Hother).
      exists m'. repeat (split; [done |]).
      intros am' idx' Ham' Hne. rewrite Ham in Ham'. injection Ham' as <- <-.
      by apply Hother.
Qed.

(** ** The quiz result view *)

(** X8: after a module quiz has been graded, the result view announces a
    pass exactly when the handler took its passing branch; the attempts it
    receives are those of the module as it was opened, one less than the
    attempts now stored after a failure, so that the offer to show the
    correct answers, made from three attempts on, is not made after the
    first three failures of a module opened with none. *)
Theorem quiz_result_view_lags_one_attempt
    (s : App.State) (answers : gmap nat (list string))
    (activeModule : CourseModule) (activeIndex : nat) (ac : Course)
    (l : ref) (qz : Quiz) :
  App.activeModule s = Some (activeModule, activeIndex) →
  App.activeCourse s = Some ac →
  quiz activeModule = Some l →
  App.heap s !! l = Some qz →
  let percentage :=
    percentageOf (spec_score (questions qz) answers) (length (questions qz)) in
  let s' := handleQuizSubmit answers s in
  QuizResultsView_passed s' = Js.ge percentage (Js.of_Z 80)
  ∧ QuizResultsView_attempts s' = quizAttempts activeModule
  ∧ (quizAttempts activeModule < 3 → QuizResultsView_offersAnswers s' = false)
  ∧ (Js.ge percentage (Js.of_Z 80) = false →
     ∀ k c, App.courses s !! k = Some c → Course_id c = Course_id ac →
            modules c !! activeIndex = Some activeModule →
            ∃ c' m', App.courses s' !! k = Some c'
              ∧ modules c' !! activeIndex = Some m'
              ∧ quizAttempts m' = QuizResultsView_attempts s' + 1).
Proof.
  intros Hm Hc Hq Hh percentage s'.
  assert (Hatt : QuizResultsView_attempts s' = quizAttempts activeModule).
  { unfold QuizResultsView_attempts. subst s'.
    destruct (handleQuizSubmit_rest answers s) as (-> & _).
    rewrite Hm. apply or_zero_id. }
  split.
  { unfold QuizResultsView_passed, QuizResultsView_percentage. subst s'.
    by rewrite (handleQuizSubmit_quizScore s answers _ _ _ _ _ Hm Hc Hq Hh). }
  split; [done |]. split.
  { intros Hlt. unfold QuizResultsView_offersAnswers. rewrite Hatt.
    rewrite (proj2 (Nat.leb_gt 3 _)) by lia. apply andb_false_r. }
  intros Hfail k c Hk Hid Hmod.
  exists (quiz_courseUpdater (Course_id ac) activeIndex percentage c), (failModule activeModule).
  split.
  { subst s'. rewrite (handleQuizSubmit_courses s answers _ _ _ _ _ Hm Hc Hq Hh).
    by rewrite list_lookup_fmap, Hk. }
  split.
  { rewrite quiz_courseUpdater_lookup, Hmod by done. simpl.
    by rewrite bool_decide_true, Hfail. }
  rewrite Hatt. simpl. by rewrite or_zero_id.
Qed.

Lemma quiz_result_view_witness :
  (App.activeModule quizState = Some (readyModule "Vectors" (Some 3), 0)
   ∧ App.activeCourse quizState = Some twoModuleCourse
   ∧ quiz (readyModule "Vectors" (Some 3)) = Some 3
   ∧ App.heap quizState !! 3 = Some quiz4)
  ∧ QuizResultsView_passed (handleQuizSubmit answers3of4 quizState) = false
  ∧ QuizResultsView_attempts (handleQuizSubmit answers3of4 quizState) = 0
  ∧ QuizResultsView_offersAnswers
      (submitQuizzes quizState [answers3of4; answers3of4; answers3of4]) = false
  ∧ (λ c, quizAttempts <$> modules c)
      <$> App.courses (submitQuizzes quizState [answers3of4; answers3of4; answers3of4])
    = [[3; 0]].
Proof.
  assert (H1 : App.activeModule quizState = Some (readyModule "Vectors" (Some 3), 0))
    by reflexivity.
  assert (H2 : App.activeCourse quizState = Some twoModuleCourse) by reflexivity.
  assert (H3 : quiz (readyModule "Vectors" (Some 3)) = Some 3) by reflexivity.
  assert (H4 : App.heap quizState !! 3 = Some quiz4) by (vm_compute; reflexivity).
  split; [exact (conj H1 (conj H2 (conj H3 H4))) |].
  destruct (quiz_result_view_lags_one_attempt quizState answers3of4 _ _ _ _ _ H1 H2 H3 H4)
    as (Hpass & Hatt & _ & _).
  split; [etrans; [exact Hpass | vm_compute; reflexivity] |].
  split; [exact Hatt |].
  split; vm_compute; reflexivity.
Defined.

(** ** Grading a quiz again *)

Section Regrading.

Lemma sortedQuestion_idemp (q : Question) :
  sortedQuestion (sortedQuestion q) = sortedQuestion q.
Proof. unfold sortedQuestion, Question_withCorrectAnswers. simpl. by rewrite sort_idemp. Qed.

Lemma countFrom_sorted (index : nat) (qs : list Question) (answers : gmap nat (list string)) :
  countFrom index (map sortedQuestion qs) answers = countFrom index qs answers.
Proof.
  revert index. induction qs as [|q qs IH]; intros index; [done |].
  simpl. rewrite IH. unfold exactlyMatches. simpl. by rewrite sort_idemp.
Qed.

End Regrading.

(** X9: grading sorts the quiz once and for all.  A second submission in
    the same quiz leaves the quiz object as the first one left it, and is
    scored as it would have been on the quiz as the gateway sent it. *)
Theorem regrading_leaves_the_sorted_quiz
    (s : App.State) (answers answers' : gmap nat (list string))
    (activeModule : CourseModule) (activeIndex : nat) (ac : Course)
    (l : ref) (qz : Quiz) :
  App.activeModule s = Some (activeModule, activeIndex) →
  App.activeCourse s = Some ac →
  quiz activeModule = Some l →
  App.heap s !! l = Some qz →
  let s1 := handleQuizSubmit answers s in
  let s2 := handleQuizSubmit answers' s1 in
  App.heap s2 = App.heap s1
  ∧ App.quizScore s2 = (spec_score (questions qz) answers', length (questions qz)).
Proof.
  intros Hm Hc Hq Hh s1 s2.
  assert (Hm1 : App.activeModule s1 = Some (activeModule, activeIndex)).
  { subst s1. destruct (handleQuizSubmit_rest answers s) as (-> & _). done. }
  assert (Hc1 : is_Some (App.activeCourse s1)).
  { subst s1. apply handleQuizSubmit_rest. rewrite Hc. by eexists. }
  destruct Hc1 as [ac1 Hc1].
  assert (Hh1 : App.heap s1
                = <[l := {| Quiz_title := Quiz_title qz;
                            questions := map sortedQuestion (questions qz) |}]>
                    (App.heap s))
    by apply (handleQuizSubmit_heap s answers _ _ _ _ _ Hm Hc Hq Hh).
  assert (Hl1 : App.heap s1 !! l
                = Some {| Quiz_title := Quiz_title qz;
                          questions := map sortedQuestion (questions qz) |})
    by (rewrite Hh1; apply lookup_insert_eq).
  split.
  - subst s2. rewrite (handleQuizSubmit_heap s1 answers' _ _ _ _ _ Hm1 Hc1 Hq Hl1).
    simpl. rewrite map_map.
    rewrite (map_ext _ sortedQuestion sortedQuestion_idemp).
    rewrite Hh1. apply insert_insert_eq.
  - subst s2.
    rewrite (handleQuizSubmit_quizScore s1 answers' _ _ _ _ _ Hm1 Hc1 Hq Hl1).
    simpl. by rewrite length_map, !spec_score_countFrom, countFrom_sorted.
Qed.

Lemma regrading_witness :
  (App.activeModule quizState = Some (readyModule "Vectors" (Some 3), 0)
   ∧ App.activeCourse quizState = Some twoModuleCourse
   ∧ quiz (readyModule "Vectors" (Some 3)) = Some 3
   ∧ App.heap quizState !! 3 = Some quiz4)
  ∧ App.heap (handleQuizSubmit answers4of4 (handleQuizSubmit answers3of4 quizState))
    = App.heap (handleQuizSubmit answers3of4 quizState)
  ∧ App.quizScore (handleQuizSubmit answers4of4 (handleQuizSubmit answers3of4 quizState))
    = (4, 4).
Proof.
  assert (H1 : App.activeModule quizState = Some (readyModule "Vectors" (Some 3), 0))
    by reflexivity.
  assert (H2 : App.activeCourse quizState = Some twoModuleCourse) by reflexivity.
  assert (H3 : quiz (readyModule "Vectors" (Some 3)) = Some 3) by reflexivity.
  assert (H4 : App.heap quizState !! 3 = Some quiz4) by (vm_compute; reflexivity).
  split; [exact (conj H1 (conj H2 (conj H3 H4))) |].
  destruct (regrading_leaves_the_sorted_quiz quizState answers3of4 answers4of4
              _ _ _ _ _ H1 H2 H3 H4) as [Hheap Hscore].
  split; [exact Hheap |]. etrans; [exact Hscore | vm_compute; reflexivity].
Defined.

(** ** A module quiz while a learning path is active *)

(** X10: when a learning path is active, the module quiz rebuilds the
    learning paths one for one.  A path with another id is returned as it
    is; in a path with the id of the active path every course goes through
    the course updater of the quiz, and [unlockedCourseIndex] stays or grows
    by one: it grows exactly when the first course with the id of the active
    course is completed after the grading and sits at [unlockedCourseIndex]. *)
Theorem module_quiz_with_active_path
    (s : App.State) (answers : gmap nat (list string))
    (activeModule : CourseModule) (activeIndex : nat) (ac : Course)
    (l : ref) (qz : Quiz) (ap : LearningPath) :
  App.activeModule s = Some (activeModule, activeIndex) →
  App.activeCourse s = Some ac →
  quiz activeModule = Some l →
  App.heap s !! l = Some qz →
  App.activePath s = Some ap →
  let percentage :=
    percentageOf (spec_score (questions qz) answers) (length (questions qz)) in
  let s' := handleQuizSubmit answers s in
  length (App.learningPaths s') = length (App.learningPaths s)
  ∧ ∀ k p, App.learningPaths s !! k = Some p →
      ∃ p', App.learningPaths s' !! k = Some p'
        ∧ Path_id p' = Path_id p
        ∧ (Path_id p ≠ Path_id ap → p' = p)
        ∧ (Path_id p = Path_id ap →
           let cs' := map (quiz_courseUpdater (Course_id ac) activeIndex percentage)
                          (courses p) in
           courses p' = cs'
           ∧ (unlockedCourseIndex p' = unlockedCourseIndex p
              ∨ unlockedCourseIndex p' = unlockedCourseIndex p + 1)
           ∧ (unlockedCourseIndex p' = unlockedCourseIndex p + 1
              ↔ ∃ i c', findIndex (hasId (Course_id ac)) cs' = Some i
                        ∧ cs' !! i = Some c'
                        ∧ Course_isCompleted c' = true
                        ∧ i = unlockedCourseIndex p)).
Proof.
  intros Hm Hc Hq Hh Hp percentage s'. subst s'.
  rewrite (handleQuizSubmit_learningPaths s answers _ _ _ _ _ Hm Hc Hq Hh), Hp.
  split; [apply length_map |].
  intros k p Hk. fold percentage.
  exists (quiz_pathUpdater (Path_id ap) (Course_id ac) activeIndex percentage p).
  split; [by rewrite list_lookup_fmap, Hk |].
  split.
  { unfold quiz_pathUpdater. by destruct (negb _). }
  split.
  { intros Hne. unfold quiz_pathUpdater.
    by rewrite (proj2 (String.eqb_neq _ _) Hne). }
  intros Hid cs'.
  destruct (quiz_pathUpdater_spec (Path_id ap) (Course_id ac) activeIndex percentage
              p Hid) as (Hcs & Hiff & Hor).
  split; [exact Hcs |]. split; [exact Hor | exact Hiff].
Qed.

Lemma module_quiz_with_active_path_witness :
  let s := App.setActivePath (Some demoPath) pathQuizOpen in
  (App.activeModule s = Some (readyModule "Introduction" (Some 3), 0)
   ∧ App.activeCourse s = Some basicsCourse
   ∧ quiz (readyModule "Introduction" (Some 3)) = Some 3
   ∧ App.heap s !! 3 = Some quiz4
   ∧ App.activePath s = Some demoPath)
  ∧ length (App.learningPaths (handleQuizSubmit answers4of4 s)) = 1.
Proof.
  intros s.
  assert (H1 : App.activeModule s = Some (readyModule "Introduction" (Some 3), 0))
    by reflexivity.
  assert (H2 : App.activeCourse s = Some basicsCourse) by reflexivity.
  assert (H3 : quiz (readyModule "Introduction" (Some 3)) = Some 3) by reflexivity.
  assert (H4 : App.heap s !! 3 = Some quiz4) by (vm_compute; reflexivity).
  assert (H5 : App.activePath s = Some demoPath) by reflexivity.
  split; [exact (conj H1 (conj H2 (conj H3 (conj H4 H5)))) |].
  destruct (module_quiz_with_active_path s answers4of4 _ _ _ _ _ _ H1 H2 H3 H4 H5)
    as [Hlen _].
  exact Hlen.
Defined.

(** ** The unlocked course of a learning path *)

Section PathProgress.

Lemma setAppView_pathProgress (v : View) (s : App.State) :
  pathProgress (setAppView v s) = pathProgress s.
Proof. unfold pathProgress. by rewrite setAppView_learningPaths. Qed.

Lemma Path_withCourses_pathProgress (f : LearningPath → list Course)
    (ps : list LearningPath) :
  (λ p, (Path_id p, unlockedCourseIndex p)) <$> map (λ p, Path_withCourses (f p) p) ps
  = (λ p, (Path_id p, unlockedCourseIndex p)) <$> ps.
Proof. induction ps as [|p ps IH]; [done |]. simpl. by f_equal. Qed.

Lemma mapM_paths_pathProgress
    (upd : Course → option Course) (ps ps' : list LearningPath) :
  mapM (λ p, pcs ← mapM upd (courses p); Some (Path_withCourses pcs p)) ps = Some ps' →
  (λ p, (Path_id p, unlockedCourseIndex p)) <$> ps'
  = (λ p, (Path_id p, unlockedCourseIndex p)) <$> ps.
Proof.
  rewrite mapM_Some. induction 1 as [|p p' ps ps' Hp _ IH]; [done |].
  rewrite !fmap_cons, IH. f_equal.
  destruct (mapM upd (courses p)) as [pcs|]; simpl in Hp; [|done].
  by injection Hp as <-.
Qed.

Lemma updateModuleState_pathProgress
    (activeId : string) (moduleIndex : nat) (st : GenerationState)
    (text : option string) (q : option ref) (s s' : App.State) :
  updateModuleState activeId moduleIndex st text q s = Some s' →
  pathProgress s' = pathProgress s.
Proof.
  unfold updateModuleState, pathProgress.
  destruct (mapM _ (App.courses s)) as [cs|]; simpl; [|done].
  destruct (mapM _ (App.learningPaths s)) as [ps|] eqn:Hps; simpl; [|done].
  intros [= <-]. state_proj. by apply mapM_paths_pathProgress in Hps.
Qed.

Lemma updateActiveCourse_pathProgress
    (activeId : string) (f : Course → Course) (s : App.State) :
  pathProgress (updateActiveCourse activeId f s) = pathProgress s.
Proof.
  unfold updateActiveCourse, pathProgress. state_proj.
  apply (Path_withCourses_pathProgress
           (λ p, map (λ c, if String.eqb (Course_id c) activeId then f c else c)
                     (courses p))).
Qed.

Lemma handleMockTestSubmit_pathProgress
    (today : string) (answers : gmap nat (list string)) (s : App.State) :
  pathProgress (handleMockTestSubmit today answers s) = pathProgress s.
Proof.
  unfold pathProgress.
  destruct (App.activeCourse s) as [ac|] eqn:Hc;
    [|by unfold handleMockTestSubmit; rewrite Hc].
  destruct (mockTest ac) as [l|] eqn:Ht;
    [|by unfold handleMockTestSubmit; rewrite Hc, Ht].
  destruct (App.heap s !! l) as [qz|] eqn:Hh;
    [|by unfold handleMockTestSubmit; rewrite Hc, Ht, Hh].
  rewrite (handleMockTestSubmit_learningPaths s today answers ac l qz Hc Ht Hh).
  apply (Path_withCourses_pathProgress (λ p, map _ (courses p))).
Qed.

(** What an event does to the progress in the learning paths: nothing,
    unless it adds a new path at the end. *)
Lemma step_pathProgress (e : Event) (s s' : App.State) :
  quizHasNoPath s → step e s = Some s' →
  pathProgress s `prefix_of` pathProgress s'.
Proof.
  intros Hs Hstep. destruct e; simpl in Hstep.
  all: try (injection Hstep as <-).
  all: try (unfold Dashboard_pathClick, Dashboard_courseClick;
            rewrite setAppView_pathProgress; reflexivity).
  - (* PathView_course *)
    unfold PathView_handleCourseClick.
    destruct (App.activePath s) as [ap|]; [|reflexivity].
    destruct (courses ap !! index); [|reflexivity].
    destruct (_ && _); [rewrite setAppView_pathProgress|]; reflexivity.
  - (* CourseView_module *)
    unfold CourseView_moduleClick.
    destruct (App.activeCourse s) as [ac|]; [|reflexivity].
    destruct (modules ac !! index); [|reflexivity].
    destruct (_ && _); [rewrite setAppView_pathProgress|]; reflexivity.
  - (* CourseView_generateModule *)
    unfold handleGenerateModule_call in Hstep.
    destruct (App.activeCourse s) as [ac|]; [|by injection Hstep as <-].
    destruct (Js.truthy (App.apiKey s)); [|by injection Hstep as <-].
    destruct (updateModuleState _ _ GENERATING _ _ s) as [s1|] eqn:Hs1;
      simpl in Hstep; [|done].
    apply updateModuleState_pathProgress in Hs1.
    destruct (modules ac !! index).
    + injection Hstep as <-. by rewrite Hs1.
    + destruct (updateModuleState _ _ FAILED _ _ s1) as [s2|] eqn:Hs2;
        simpl in Hstep; [|done].
      apply updateModuleState_pathProgress in Hs2.
      injection Hstep as <-. by rewrite Hs2, Hs1.
  - (* GenerateModule_settled *)
    unfold handleGenerateModule_settle in Hstep. destruct r as [[text q]|msg].
    + by rewrite (updateModuleState_pathProgress _ _ _ _ _ _ _ Hstep).
    + by rewrite (updateModuleState_pathProgress _ _ _ _ _ _ _ Hstep).
  - (* CourseView_generateMockTest *)
    unfold handleGenerateMockTest_call.
    destruct (App.activeCourse s) as [ac|]; [|reflexivity].
    destruct (Js.truthy (App.apiKey s)); [|reflexivity]. simpl.
    by rewrite updateActiveCourse_pathProgress.
  - (* GenerateMockTest_settled *)
    unfold handleGenerateMockTest_settle. destruct r as [q|msg];
      by rewrite updateActiveCourse_pathProgress.
  - (* ModuleView_quiz *)
    unfold ModuleView_startQuiz.
    destruct (_ && _); [rewrite setAppView_pathProgress|]; reflexivity.
  - (* QuizView_submitted *)
    unfold QuizView_submit. case_bool_decide as Hv; [|reflexivity].
    unfold pathProgress. by rewrite handleQuizSubmit_without_activePath by auto.
  - (* MockTestView_submitted *)
    destruct (bool_decide _); [by rewrite handleMockTestSubmit_pathProgress | done].
  - (* QuizResultsView_showAnswers *) reflexivity.
  - (* CreateCourse_called *)
    unfold handleCreateCourse_call. destruct (negb _); reflexivity.
  - (* CreateCourse_settled *)
    unfold handleCreateCourse_settle. destruct r; reflexivity.
  - (* CreateLearningPath_called *)
    unfold handleCreateLearningPath_call. destruct (negb _); reflexivity.
  - (* CreateLearningPath_settled *)
    unfold handleCreateLearningPath_settle, pathProgress. destruct r; [|reflexivity].
    simpl. rewrite fmap_app. by apply prefix_app_r.
  - (* ProfileView_apiKey *) reflexivity.
Qed.

(** The same, with what a new path starts with. *)
Lemma step_pathProgress_new (e : Event) (s s' : App.State) :
  quizHasNoPath s → step e s = Some s' →
  ∃ rest, pathProgress s' = pathProgress s ++ rest ∧ Forall (λ x, x.2 = 0) rest.
Proof.
  assert (Hsame : ∀ l l' : list (string * nat), l' = l →
            ∃ rest, l' = l ++ rest ∧ Forall (λ x, x.2 = 0) rest).
  { intros l l' ->. exists []. split; [by rewrite app_nil_r | constructor]. }
  intros Hs Hstep. destruct e; simpl in Hstep.
  all: try (injection Hstep as <-).
  all: try (unfold Dashboard_pathClick, Dashboard_courseClick;
            apply Hsame; rewrite setAppView_pathProgress; reflexivity).
  - (* PathView_course *)
    unfold PathView_handleCourseClick.
    destruct (App.activePath s) as [ap|]; [|by apply Hsame].
    destruct (courses ap !! index); [|by apply Hsame].
    destruct (_ && _); apply Hsame; [rewrite setAppView_pathProgress|]; reflexivity.
  - (* CourseView_module *)
    unfold CourseView_moduleClick.
    destruct (App.activeCourse s) as [ac|]; [|by apply Hsame].
    destruct (modules ac !! index); [|by apply Hsame].
    destruct (_ && _); apply Hsame; [rewrite setAppView_pathProgress|]; reflexivity.
  - (* CourseView_generateModule *)
    unfold handleGenerateModule_call in Hstep.
    destruct (App.activeCourse s) as [ac|]; [|injection Hstep as <-; by apply Hsame].
    destruct (Js.truthy (App.apiKey s)); [|injection Hstep as <-; by apply Hsame].
    destruct (updateModuleState _ _ GENERATING _ _ s) as [s1|] eqn:Hs1;
      simpl in Hstep; [|done].
    apply updateModuleState_pathProgress in Hs1.
    destruct (modules ac !! index).
    + injection Hstep as <-. by apply Hsame.
    + destruct (updateModuleState _ _ FAILED _ _ s1) as [s2|] eqn:Hs2;
        simpl in Hstep; [|done].
      apply updateModuleState_pathProgress in Hs2.
      injection Hstep as <-. apply Hsame. by rewrite Hs2, Hs1.
  - (* GenerateModule_settled *)
    unfold handleGenerateModule_settle in Hstep. destruct r as [[text q]|msg].
    + apply Hsame. by rewrite (updateModuleState_pathProgress _ _ _ _ _ _ _ Hstep).
    + apply Hsame. by rewrite (updateModuleState_pathProgress _ _ _ _ _ _ _ Hstep).
  - (* CourseView_generateMockTest *)
    unfold handleGenerateMockTest_call.
    destruct (App.activeCourse s) as [ac|]; [|by apply Hsame].
    destruct (Js.truthy (App.apiKey s)); [|by apply Hsame]. simpl.
    apply Hsame. by rewrite updateActiveCourse_pathProgress.
  - (* GenerateMockTest_settled *)
    unfold handleGenerateMockTest_settle. destruct r as [q|msg];
      apply Hsame; by rewrite updateActiveCourse_pathProgress.
  - (* ModuleView_quiz *)
    unfold ModuleView_startQuiz.
    destruct (_ && _); apply Hsame; [rewrite setAppView_pathProgress|]; reflexivity.
  - (* QuizView_submitted *)
    unfold QuizView_submit. case_bool_decide as Hv; [|by apply Hsame].
    apply Hsame. unfold pathProgress. by rewrite handleQuizSubmit_without_activePath by auto.
  - (* MockTestView_submitted *)
    destruct (bool_decide _); apply Hsame; [by rewrite handleMockTestSubmit_pathProgress | done].
  - (* QuizResultsView_showAnswers *) by apply Hsame.
  - (* CreateCourse_called *)
    unfold handleCreateCourse_call. destruct (negb _); by apply Hsame.
  - (* CreateCourse_settled *)
    unfold handleCreateCourse_settle. destruct r; by apply Hsame.
  - (* CreateLearningPath_called *)
    unfold handleCreateLearningPath_call. destruct (negb _); by apply Hsame.
  - (* CreateLearningPath_settled *)
    unfold handleCreateLearningPath_settle, pathProgress. destruct r; [|by apply Hsame].
    simpl. rewrite fmap_app. eexists. split; [reflexivity |].
    by apply Forall_singleton.
  - (* ProfileView_apiKey *) by apply Hsame.
Qed.

End PathProgress.

(** X11: whatever the user does from the dashboard on, no course of a
    learning path is ever unlocked: every event leaves the id and the
    [unlockedCourseIndex] of each learning path as they were, the creation
    of a path adding a new one at the end.  A path that is created on the
    way starts at 0 and is still at 0 afterwards. *)
Theorem no_event_unlocks_a_path_course
    (es : list Event) (s s' : App.State) :
  App.view s = dashboard → run es s = Some s' →
  pathProgress s `prefix_of` pathProgress s'
  ∧ (∀ k p p', App.learningPaths s !! k = Some p → App.learningPaths s' !! k = Some p' →
       Path_id p' = Path_id p ∧ unlockedCourseIndex p' = unlockedCourseIndex p)
  ∧ (∀ k p', length (App.learningPaths s) ≤ k → App.learningPaths s' !! k = Some p' →
       unlockedCourseIndex p' = 0).
Proof.
  intros Hview Hrun.
  assert (Hinv : quizHasNoPath s) by (intros Hq; by rewrite Hview in Hq).
  clear Hview.
  assert (Hnew : ∃ rest, pathProgress s' = pathProgress s ++ rest
                         ∧ Forall (λ x, x.2 = 0) rest).
  { revert s Hinv Hrun. induction es as [|e es IH]; intros s Hinv; simpl.
    - intros [= <-]. exists []. split; [by rewrite app_nil_r | constructor].
    - destruct (step e s) as [s1|] eqn:Hstep; simpl; [|done]. intros Hrun.
      destruct (step_pathProgress_new e s s1 Hinv Hstep) as (rest1 & Hs1 & Hz1).
      destruct (IH s1 (step_quizHasNoPath e s s1 Hinv Hstep) Hrun)
        as (rest2 & Hs2 & Hz2).
      exists (rest1 ++ rest2). split; [by rewrite Hs2, Hs1, app_assoc |].
      by apply Forall_app. }
  assert (Hpre : pathProgress s `prefix_of` pathProgress s').
  { destruct Hnew as (rest & -> & _). by apply prefix_app_r. }
  split; [done |]. split.
  - intros k p p' Hk Hk'.
    assert (Hl : pathProgress s !! k = Some (Path_id p, unlockedCourseIndex p))
      by (unfold pathProgress; by rewrite list_lookup_fmap, Hk).
    apply (prefix_lookup_Some _ _ _ _ Hl) in Hpre.
    unfold pathProgress in Hpre. rewrite list_lookup_fmap, Hk' in Hpre.
    simpl in Hpre. by injection Hpre as -> ->.
  - intros k p' Hk Hk'. destruct Hnew as (rest & Hs' & Hzero).
    assert (Hl : pathProgress s' !! k = Some (Path_id p', unlockedCourseIndex p'))
      by (unfold pathProgress; by rewrite list_lookup_fmap, Hk').
    rewrite Hs', lookup_app_r in Hl
      by (unfold pathProgress; by rewrite length_fmap).
    apply (Forall_lookup_1 _ _ _ _ Hzero Hl).
Qed.

Lemma no_event_unlocks_witness :
  let es := [Dashboard_path demoPath; PathView_course 0; CourseView_module 0;
             ModuleView_quiz; QuizView_submitted answers4of4] in
  App.view pathHome = dashboard
  ∧ (∃ s', run es pathHome = Some s'
       ∧ App.quizScore s' = (4, 4)
       ∧ pathProgress pathHome `prefix_of` pathProgress s')
  ∧ pathProgress pathHome = [("2024-04-04T00:00:00.000Z", 0)].
Proof.
  intros es.
  assert (H1 : App.view pathHome = dashboard) by reflexivity.
  assert (H2 : run es pathHome = Some (QuizView_submit answers4of4 pathQuizOpen))
    by (vm_compute; reflexivity).
  split; [exact H1 |]. split; [|reflexivity].
  exists (QuizView_submit answers4of4 pathQuizOpen).
  split; [exact H2 |]. split; [vm_compute; reflexivity |].
  exact (proj1 (no_event_unlocks_a_path_course es pathHome _ H1 H2)).
Defined.

(** ** What a mock test leaves alone *)

Section MockFrame.

Lemma mock_paths_courses
    (upd : Course → Course) (ps : list LearningPath) :
  concat (map courses (map (λ p, Path_withCourses (map upd (courses p)) p) ps))
  = map upd (concat (map courses ps)).
Proof.
  induction ps as [|p ps IH]; [done |]. simpl. by rewrite IH, map_app.
Qed.

Lemma filter_hasId_map (activeId : string) (upd : Course → Course) (cs : list Course) :
  (∀ c, Course_id (upd c) = Course_id c) →
  filter (λ c, hasId activeId c = true) (map upd cs)
  = map upd (filter (λ c, hasId activeId c = true) cs).
Proof.
  intros Hid. induction cs as [|c cs IH]; [done |]. simpl.
  rewrite !filter_cons.
  assert (Hsame : hasId activeId (upd c) = hasId activeId c)
    by (unfold hasId; by rewrite Hid).
  rewrite Hsame.
  destruct (decide (hasId activeId c = true)); simpl; by rewrite IH.
Qed.

Lemma last_map {A B : Type} (f : A → B) (l : list A) : last (map f l) = f <$> last l.
Proof.
  induction l as [|x l IH]; [done |]. destruct l as [|y l]; [done |].
  exact IH.
Qed.

Lemma last_filter_hasId (activeId : string) (cs : list Course) (c0 : Course) :
  c0 ∈ cs → Course_id c0 = activeId →
  ∃ c, last (filter (λ c, hasId activeId c = true) cs) = Some c
       ∧ c ∈ cs ∧ Course_id c = activeId.
Proof.
  intros Hin Hid.
  assert (Hin' : c0 ∈ filter (λ c, hasId activeId c = true) cs).
  { apply list_elem_of_filter. split; [|done]. unfold hasId.
    by apply String.eqb_eq. }
  destruct (last (filter (λ c, hasId activeId c = true) cs)) as [c|] eqn:Hlast.
  - exists c. split; [done |].
    apply last_Some_elem_of, list_elem_of_filter in Hlast as [Hc Hcs].
    split; [done |]. by apply String.eqb_eq.
  - apply last_None in Hlast. rewrite Hlast in Hin'. by apply elem_of_nil in Hin'.
Qed.

(** The course that is active when the mock test has been graded. *)
Lemma handleMockTestSubmit_activeCourse
    (s : App.State) (today : string) (answers : gmap nat (list string))
    (ac : Course) (l : ref) (qz : Quiz) :
  App.activeCourse s = Some ac →
  mockTest ac = Some l →
  App.heap s !! l = Some qz →
  let percentage :=
    percentageOf (spec_score (questions qz) answers) (length (questions qz)) in
  let upd := mock_courseUpdater (Course_id ac) percentage
               (newBadgeOf (Course_title ac) today percentage) in
  App.activeCourse (handleMockTestSubmit today answers s)
  = match last (filter (λ c, hasId (Course_id ac) c = true) (allCourses s)) with
    | Some c => Some (upd c)
    | None => Some ac
    end.
Proof.
  intros Hc Ht Hh percentage upd. unfold handleMockTestSubmit.
  rewrite Hc, Ht, Hh, gradeLoop_total, gradeLoop_score.
  fold percentage. fold upd. cbn [App.setView App.activeCourse].
  cbn [App.courses App.learningPaths App.setMockTestScore App.setHeap].
  rewrite mock_paths_courses, <- map_app.
  rewrite filter_hasId_map by (intros c; apply mock_courseUpdater_frame).
  unfold App.setActiveCourse_each. rewrite last_map. fold (allCourses s).
  destruct (last _); simpl; [done | exact Hc].
Qed.

Lemma handleMockTestSubmit_rest
    (today : string) (answers : gmap nat (list string)) (s : App.State) :
  App.activeModule (handleMockTestSubmit today answers s) = App.activeModule s
  ∧ App.activePath (handleMockTestSubmit today answers s) = App.activePath s
  ∧ App.quizScore (handleMockTestSubmit today answers s) = App.quizScore s
  ∧ App.apiKey (handleMockTestSubmit today answers s) = App.apiKey s.
Proof.
  unfold handleMockTestSubmit.
  destruct (App.activeCourse s) as [ac|]; [|done].
  destruct (mockTest ac) as [l|]; [|done].
  destruct (App.heap s !! l) as [qz|]; [|done].
  cbn [App.setView App.activeModule App.activePath App.quizScore App.apiKey].
  match goal with |- context [App.setActiveCourse_each ?l1 ?t] =>
    destruct (setActiveCourse_each_rest l1 t) as (-> & -> & _);
    destruct (setActiveCourse_each_view l1 t) as (_ & ->);
    rewrite (setActiveCourse_each_quizScore l1 t)
  end.
  done.
Qed.

(** Whatever the state, the courses and the courses of the learning paths
    go through one mock-test updater, or the handler returns at once. *)
Lemma handleMockTestSubmit_shape
    (today : string) (answers : gmap nat (list string)) (s : App.State) :
  handleMockTestSubmit today answers s = s
  ∨ ∃ aid pct nb,
      App.courses (handleMockTestSubmit today answers s)
      = map (mock_courseUpdater aid pct nb) (App.courses s)
      ∧ App.learningPaths (handleMockTestSubmit today answers s)
        = map (λ p, Path_withCourses (map (mock_courseUpdater aid pct nb) (courses p)) p)
              (App.learningPaths s).
Proof.
  destruct (App.activeCourse s) as [ac|] eqn:Hc;
    [|left; unfold handleMockTestSubmit; by rewrite Hc].
  destruct (mockTest ac) as [l|] eqn:Ht;
    [|left; unfold handleMockTestSubmit; by rewrite Hc, Ht].
  destruct (App.heap s !! l) as [qz|] eqn:Hh;
    [|left; unfold handleMockTestSubmit; by rewrite Hc, Ht, Hh].
  right. eexists _, _, _. split.
  - apply (handleMockTestSubmit_courses s today answers ac l qz Hc Ht Hh).
  - apply (handleMockTestSubmit_learningPaths s today answers ac l qz Hc Ht Hh).
Qed.

End MockFrame.

(** X12: a mock test changes no progress.  Whatever the state and the
    answers, every course, in the courses and in the learning paths, keeps
    its id, its modules, its completion, its unlocked module and its mock
    test, and a course with another id than the active one is returned as it
    is; every learning path keeps its id and its unlocked course; the active
    module, the active path and the score of the last module quiz stay. *)
Theorem mock_test_changes_no_progress
    (today : string) (answers : gmap nat (list string)) (s : App.State) :
  let s' := handleMockTestSubmit today answers s in
  let kept (c c' : Course) :=
    Course_id c' = Course_id c ∧ modules c' = modules c
    ∧ Course_isCompleted c' = Course_isCompleted c
    ∧ unlockedModuleIndex c' = unlockedModuleIndex c
    ∧ mockTest c' = mockTest c
    ∧ (∀ ac, App.activeCourse s = Some ac → Course_id c ≠ Course_id ac → c' = c) in
  (∀ k c, App.courses s !! k = Some c →
     ∃ c', App.courses s' !! k = Some c' ∧ kept c c')
  ∧ (∀ i p, App.learningPaths s !! i = Some p →
       ∃ p', App.learningPaths s' !! i = Some p'
         ∧ Path_id p' = Path_id p
         ∧ unlockedCourseIndex p' = unlockedCourseIndex p
         ∧ length (courses p') = length (courses p)
         ∧ ∀ k c, courses p !! k = Some c →
             ∃ c', courses p' !! k = Some c' ∧ kept c c')
  ∧ App.activeModule s' = App.activeModule s
  ∧ App.activePath s' = App.activePath s
  ∧ App.quizScore s' = App.quizScore s.
Proof.
  intros s' kept.
  assert (Hkept : ∀ c, kept c c).
  { intros c. unfold kept. by repeat split. }
  destruct (handleMockTestSubmit_rest today answers s) as (Hm & Hp & Hq & _).
  split; [|split; [|by split; [|split]]].
  - intros k c Hk.
    destruct (App.activeCourse s) as [ac|] eqn:Hc;
      [|exists c; subst s'; unfold handleMockTestSubmit; by rewrite Hc].
    destruct (mockTest ac) as [l|] eqn:Ht;
      [|exists c; subst s'; unfold handleMockTestSubmit; by rewrite Hc, Ht].
    destruct (App.heap s !! l) as [qz|] eqn:Hh;
      [|exists c; subst s'; unfold handleMockTestSubmit; by rewrite Hc, Ht, Hh].
    eexists. split.
    { subst s'. rewrite (handleMockTestSubmit_courses s today answers ac l qz Hc Ht Hh).
      by rewrite list_lookup_fmap, Hk. }
    unfold kept.
    match goal with |- context [mock_courseUpdater ?a ?b ?n c] =>
      destruct (mock_courseUpdater_frame a b n c) as (-> & -> & -> & -> & ->) end.
    repeat split. intros ac' [= <-] Hne. by apply mock_courseUpdater_other.
  - intros i p Hi.
    destruct (App.activeCourse s) as [ac|] eqn:Hc;
      [|exists p; subst s'; unfold handleMockTestSubmit; rewrite Hc; eauto 10].
    destruct (mockTest ac) as [l|] eqn:Ht;
      [|exists p; subst s'; unfold handleMockTestSubmit; rewrite Hc, Ht; eauto 10].
    destruct (App.heap s !! l) as [qz|] eqn:Hh;
      [|exists p; subst s'; unfold handleMockTestSubmit; rewrite Hc, Ht, Hh; eauto 10].
    eexists. split.
    { subst s'.
      rewrite (handleMockTestSubmit_learningPaths s today answers ac l qz Hc Ht Hh).
      by rewrite list_lookup_fmap, Hi. }
    cbn [Path_withCourses Path_id unlockedCourseIndex courses].
    split; [done |]. split; [done |]. split; [apply length_map |].
    intros k c Hk. eexists. split; [by rewrite list_lookup_fmap, Hk |].
    unfold kept.
    match goal with |- context [mock_courseUpdater ?a ?b ?n c] =>
      destruct (mock_courseUpdater_frame a b n c) as (-> & -> & -> & -> & ->) end.
    repeat split. intros ac' [= <-] Hne. by apply mock_courseUpdater_other.
Qed.

(** ** The mock test result view *)

(** X13: the badge that the result view of a mock test announces.  When
    the active course is one of the user's courses and its copies hold the
    same badge, the view announces, below 70, no badge, also when the course
    holds one; from 70 to 79, where no badge is created, the badge that the
    course held before, as if it had just been earned; from 80 on, the new
    badge, with the tier of the percentage. *)
Theorem mock_test_result_view_badge
    (s : App.State) (today : string) (answers : gmap nat (list string))
    (ac : Course) (l : ref) (qz : Quiz) :
  App.activeCourse s = Some ac →
  mockTest ac = Some l →
  App.heap s !! l = Some qz →
  (∃ c, c ∈ allCourses s ∧ Course_id c = Course_id ac) →
  (∀ c, c ∈ allCourses s → Course_id c = Course_id ac → badge c = badge ac) →
  let percentage :=
    percentageOf (spec_score (questions qz) answers) (length (questions qz)) in
  let s' := handleMockTestSubmit today answers s in
  MockTestResultsView_passed s' = Js.ge percentage (Js.of_Z 70)
  ∧ (Js.ge percentage (Js.of_Z 70) = false → MockTestResultsView_badge s' = None)
  ∧ (Js.ge percentage (Js.of_Z 70) = true → Js.ge percentage (Js.of_Z 80) = false →
     MockTestResultsView_badge s' = (λ b, getBadgeStyling (score b)) <$> badge ac)
  ∧ (Js.ge percentage (Js.of_Z 80) = true →
     MockTestResultsView_badge s' = Some (getBadgeStyling percentage)).
Proof.
  intros Hc Ht Hh (c0 & Hin0 & Hid0) Hagree percentage s'.
  assert (Hpass : MockTestResultsView_passed s' = Js.ge percentage (Js.of_Z 70)).
  { unfold MockTestResultsView_passed, MockTestResultsView_percentage. subst s'.
    by rewrite (handleMockTestSubmit_mockTestScore s today answers _ _ _ Hc Ht Hh). }
  destruct (last_filter_hasId (Course_id ac) (allCourses s) c0 Hin0 Hid0)
    as (c & Hlast & Hin & Hid).
  assert (Hactive : App.activeCourse s'
                    = Some (mock_courseUpdater (Course_id ac) percentage
                              (newBadgeOf (Course_title ac) today percentage) c)).
  { subst s'. rewrite (handleMockTestSubmit_activeCourse s today answers _ _ _ Hc Ht Hh).
    by rewrite Hlast. }
  split; [exact Hpass |].
  unfold MockTestResultsView_badge. rewrite Hpass, Hactive. simpl.
  rewrite mock_courseUpdater_badge by done.
  split; [by intros -> |]. split.
  - intros -> Hlow. rewrite newBadgeOf_None by done.
    rewrite (Hagree c Hin Hid). by destruct (badge ac).
  - intros Hhigh. rewrite (ge_80_70 _ Hhigh). by rewrite newBadgeOf_Some.
Qed.

Lemma mock_test_result_view_witness :
  let s := mockTestState_of awardedCourse quiz4 in
  (App.activeCourse s = Some awardedCourse ∧ mockTest awardedCourse = Some 7
   ∧ App.heap s !! 7 = Some quiz4)
  ∧ percentageOf (spec_score (questions quiz4) answers3of4) (length (questions quiz4))
    = Js.of_Z 75
  ∧ MockTestResultsView_passed (handleMockTestSubmit "2/1/2024" answers3of4 s) = true
  ∧ MockTestResultsView_badge (handleMockTestSubmit "2/1/2024" answers3of4 s) = Some Gold.
Proof.
  intros s.
  assert (H1 : App.activeCourse s = Some awardedCourse) by reflexivity.
  assert (H2 : mockTest awardedCourse = Some 7) by reflexivity.
  assert (H3 : App.heap s !! 7 = Some quiz4) by (vm_compute; reflexivity).
  assert (H4 : ∃ c, c ∈ allCourses s ∧ Course_id c = Course_id awardedCourse).
  { exists awardedCourse. split; [apply list_elem_of_singleton; reflexivity | reflexivity]. }
  assert (H5 : ∀ c, c ∈ allCourses s → Course_id c = Course_id awardedCourse →
                    badge c = badge awardedCourse).
  { intros c Hin _. apply list_elem_of_singleton in Hin. rewrite Hin. reflexivity. }
  assert (Hpct : percentageOf (spec_score (questions quiz4) answers3of4)
                   (length (questions quiz4)) = Js.of_Z 75)
    by (vm_compute; reflexivity).
  split; [exact (conj H1 (conj H2 H3)) |]. split; [exact Hpct |].
  destruct (mock_test_result_view_badge s "2/1/2024" answers3of4 _ _ _ H1 H2 H3 H4 H5)
    as (Hpass & _ & Hmid & _).
  rewrite Hpct in Hpass, Hmid.
  split; [etrans; [exact Hpass | vm_compute; reflexivity] |].
  etrans; [apply Hmid; vm_compute; reflexivity | vm_compute; reflexivity].
Defined.

(** ** Mock test generation *)

Section MockGeneration.

Lemma updateActiveCourse_allCourses
    (activeId : string) (f : Course → Course) (s : App.State) :
  allCourses (updateActiveCourse activeId f s)
  = map (λ c, if String.eqb (Course_id c) activeId then f c else c) (allCourses s)
  ∧ App.heap (updateActiveCourse activeId f s) = App.heap s
  ∧ App.apiKey (updateActiveCourse activeId f s) = App.apiKey s.
Proof.
  unfold updateActiveCourse, allCourses.
  match goal with |- context [App.setActiveCourse_each ?l1 ?t] =>
    destruct (setActiveCourse_each_rest l1 t) as (_ & -> & _) end.
  state_proj. by rewrite mock_paths_courses, map_app.
Qed.

End MockGeneration.

(** X14: the mock test is generated.  With an active course and an API key
    the handler marks the copies of the active course [GENERATING] before
    the gateway answers.  When the gateway resolves, the quiz is a new
    object and the copies hold it, [READY]; when it rejects, the copies are
    [FAILED] and keep the mock test they held, if any.  Nothing else of a
    course changes, and a course with another id is returned as it is. *)
Theorem mock_test_generation_transitions (s : App.State) (ac : Course) :
  App.activeCourse s = Some ac →
  Js.truthy (App.apiKey s) = true →
  let mark (f : Course → Course) (c : Course) :=
    if String.eqb (Course_id c) (Course_id ac) then f c else c in
  let s1 := (handleGenerateMockTest_call s).1 in
  (handleGenerateMockTest_call s).2 = Some ac
  ∧ allCourses s1 = map (mark (Course_withMockTestState GENERATING)) (allCourses s)
  ∧ App.heap s1 = App.heap s
  ∧ (∀ q, ∃ l,
       let s2 := handleGenerateMockTest_settle ac (Resolved q) s1 in
       App.heap s !! l = None
       ∧ App.heap s2 = <[l := q]> (App.heap s)
       ∧ allCourses s2 = map (mark (Course_withMockTest l)) (allCourses s))
  ∧ (∀ message,
       let s2 := handleGenerateMockTest_settle ac (Rejected message) s1 in
       App.heap s2 = App.heap s
       ∧ allCourses s2 = map (mark (Course_withMockTestState FAILED)) (allCourses s)
       ∧ ∀ k c c2, allCourses s !! k = Some c → allCourses s2 !! k = Some c2 →
           mockTest c2 = mockTest c ∧ mockTestScore c2 = mockTestScore c
           ∧ badge c2 = badge c ∧ modules c2 = modules c).
Proof.
  intros Hc Hkey mark s1. subst s1. unfold handleGenerateMockTest_call.
  rewrite Hc, Hkey. cbn [fst snd].
  destruct (updateActiveCourse_allCourses (Course_id ac)
              (Course_withMockTestState GENERATING) s) as (Hall1 & Hheap1 & _).
  split; [done |]. split; [exact Hall1 |]. split; [exact Hheap1 |].
  assert (Hcomp : ∀ f, (∀ c, Course_id (f c) = Course_id c) →
            (∀ c, f (Course_withMockTestState GENERATING c) = f c) →
            map (mark f) (map (mark (Course_withMockTestState GENERATING)) (allCourses s))
            = map (mark f) (allCourses s)).
  { intros f Hfid Hf. rewrite map_map. apply map_ext. intros c. unfold mark.
    destruct (String.eqb (Course_id c) (Course_id ac)) eqn:Hid; simpl.
    - by rewrite Hid, Hf.
    - by rewrite Hid. }
  split.
  - intros q. exists (fresh (dom (App.heap s))).
    cbn [handleGenerateMockTest_settle]. rewrite Hheap1.
    set (l := fresh (dom (App.heap s))).
    destruct (updateActiveCourse_allCourses (Course_id ac) (Course_withMockTest l)
                (App.setHeap (<[l := q]> (App.heap s))
                   (updateActiveCourse (Course_id ac)
                      (Course_withMockTestState GENERATING) s)))
      as (Hall2 & Hheap2 & _).
    split; [apply not_elem_of_dom, is_fresh |].
    split; [exact Hheap2 |].
    rewrite Hall2.
    change (allCourses (App.setHeap ?h ?t)) with (allCourses t).
    rewrite Hall1. by apply Hcomp.
  - intros message. cbn [handleGenerateMockTest_settle].
    destruct (updateActiveCourse_allCourses (Course_id ac)
                (Course_withMockTestState FAILED)
                (updateActiveCourse (Course_id ac)
                   (Course_withMockTestState GENERATING) s))
      as (Hall2 & Hheap2 & _).
    split; [by rewrite Hheap2 |].
    assert (Hall : allCourses
                     (updateActiveCourse (Course_id ac) (Course_withMockTestState FAILED)
                        (updateActiveCourse (Course_id ac)
                           (Course_withMockTestState GENERATING) s))
                   = map (mark (Course_withMockTestState FAILED)) (allCourses s)).
    { rewrite Hall2, Hall1. by apply Hcomp. }
    split; [exact Hall |].
    intros k c c2 Hk Hk2. rewrite Hall, list_lookup_fmap, Hk in Hk2.
    injection Hk2 as <-. unfold mark.
    by destruct (String.eqb (Course_id c) (Course_id ac)).
Qed.

Lemma mock_test_generation_witness :
  let s := mockTestState_of awardedCourse quiz5 in
  (App.activeCourse s = Some awardedCourse ∧ Js.truthy (App.apiKey s) = true)
  ∧ (λ c, (mockTestState c, mockTest c))
      <$> App.courses
            (handleGenerateMockTest_settle awardedCourse (Rejected "no network")
               (handleGenerateMockTest_call s).1)
    = [(Some FAILED, Some 7)]
  ∧ App.heap
      (handleGenerateMockTest_settle awardedCourse (Rejected "no network")
         (handleGenerateMockTest_call s).1)
    = App.heap s.
Proof.
  intros s.
  assert (H1 : App.activeCourse s = Some awardedCourse) by reflexivity.
  assert (H2 : Js.truthy (App.apiKey s) = true) by reflexivity.
  split; [exact (conj H1 H2) |].
  destruct (mock_test_generation_transitions s awardedCourse H1 H2)
    as (_ & _ & _ & _ & Hrej).
  destruct (Hrej "no network") as (Hheap & _ & _).
  split; [vm_compute; reflexivity | exact Hheap].
Defined.

(** ** A module is [READY] exactly when it holds its text and its quiz *)

Section Consistency.

Lemma Forall_concat_map {A B : Type} (P : B → Prop) (f : A → list B) (l : list A) :
  Forall P (concat (map f l)) ↔ Forall (λ x, Forall P (f x)) l.
Proof.
  induction l as [|x l IH]; simpl.
  - split; constructor.
  - rewrite Forall_app, Forall_cons. by rewrite IH.
Qed.

Lemma coursesConsistent_split (s : App.State) :
  coursesConsistent s
  ↔ Forall courseConsistent (App.courses s)
    ∧ Forall (λ p, Forall courseConsistent (courses p)) (App.learningPaths s).
Proof. unfold coursesConsistent, allCourses. by rewrite Forall_app, Forall_concat_map. Qed.

Lemma coursesConsistent_ext (s s' : App.State) :
  App.courses s' = App.courses s → App.learningPaths s' = App.learningPaths s →
  coursesConsistent s → coursesConsistent s'.
Proof. unfold coursesConsistent, allCourses. by intros -> ->. Qed.

Lemma setAppView_courses (v : View) (s : App.State) :
  App.courses (setAppView v s) = App.courses s.
Proof.
  unfold setAppView.
  destruct (bool_decide (v = dashboard)), (bool_decide (v ≠ path)),
    (negb (keepsCourse v)); reflexivity.
Qed.

Lemma setAppView_coursesConsistent (v : View) (s : App.State) :
  coursesConsistent s → coursesConsistent (setAppView v s).
Proof.
  apply coursesConsistent_ext; [apply setAppView_courses | apply setAppView_learningPaths].
Qed.

Lemma newModule_consistent (m : ModuleOutline) : moduleConsistent (newModule m).
Proof. by split. Qed.

Lemma newCourse_consistent (now : string) (outline : CourseOutline) :
  courseConsistent (newCourse now outline).
Proof.
  unfold courseConsistent. simpl. apply Forall_fmap, Forall_true.
  intros m. apply newModule_consistent.
Qed.

Lemma newPath_consistent (now : string) (nows : nat → string) (outline : PathOutline) :
  Forall courseConsistent (courses (newPath now nows outline)).
Proof.
  simpl. apply Forall_lookup. intros i c. rewrite list_lookup_imap.
  destruct (po_courses outline !! i) as [co|]; simpl; [|done].
  intros [= <-]. unfold courseConsistent. simpl. apply Forall_fmap, Forall_true.
  intros m. apply newModule_consistent.
Qed.

Lemma quiz_courseUpdater_consistent
    (aid : string) (idx : nat) (pct : Js.number) (c : Course) :
  courseConsistent c → courseConsistent (quiz_courseUpdater aid idx pct c).
Proof.
  unfold courseConsistent. intros Hc.
  destruct (decide (Course_id c = aid)) as [Hid|Hid];
    [|by rewrite quiz_courseUpdater_other].
  apply Forall_lookup. intros j m'.
  rewrite quiz_courseUpdater_lookup by done.
  destruct (modules c !! j) as [m|] eqn:Hj; simpl; [|done].
  intros [= <-]. pose proof (Forall_lookup_1 _ _ _ _ Hc Hj) as Hm.
  destruct (bool_decide (j = idx)); [|done].
  by destruct (Js.ge pct (Js.of_Z 80)).
Qed.

Lemma quiz_pathUpdater_consistent
    (pid aid : string) (idx : nat) (pct : Js.number) (p : LearningPath) :
  Forall courseConsistent (courses p) →
  Forall courseConsistent (courses (quiz_pathUpdater pid aid idx pct p)).
Proof.
  intros Hp. unfold quiz_pathUpdater. destruct (negb _); [done |]. simpl.
  apply Forall_fmap. eapply Forall_impl; [exact Hp |].
  intros c. apply quiz_courseUpdater_consistent.
Qed.

Lemma mock_courseUpdater_consistent
    (aid : string) (pct : Js.number) (nb : option Badge) (c : Course) :
  courseConsistent c → courseConsistent (mock_courseUpdater aid pct nb c).
Proof.
  unfold courseConsistent.
  by destruct (mock_courseUpdater_frame aid pct nb c) as (_ & -> & _).
Qed.

Lemma generate_courseUpdater_consistent
    (aid : string) (idx : nat) (st : GenerationState)
    (text : option string) (q : option ref) (c c' : Course) :
  (∀ m, moduleConsistent (setModuleState st text q m)) →
  generate_courseUpdater aid idx st text q c = Some c' →
  courseConsistent c → courseConsistent c'.
Proof.
  intros Hargs. unfold generate_courseUpdater, courseConsistent.
  destruct (String.eqb _ _); [|by intros [= <-]].
  destruct (modules c !! idx) as [m|]; [|done].
  intros [= <-] Hc. simpl. by apply Forall_insert.
Qed.

Lemma updateModuleState_consistent
    (aid : string) (idx : nat) (st : GenerationState)
    (text : option string) (q : option ref) (s s' : App.State) :
  (∀ m, moduleConsistent (setModuleState st text q m)) →
  updateModuleState aid idx st text q s = Some s' →
  coursesConsistent s → coursesConsistent s'.
Proof.
  intros Hargs Hupd Hs.
  destruct (updateModuleState_allCourses _ _ _ _ _ _ _ Hupd) as [Hall _].
  unfold coursesConsistent in *. apply Forall_lookup. intros k c' Hk.
  destruct (Forall2_lookup_r _ _ _ _ _ Hall Hk) as (c & Hc & Hcc').
  apply (generate_courseUpdater_consistent _ _ _ _ _ _ _ Hargs Hcc').
  by apply (Forall_lookup_1 _ _ _ _ Hs Hc).
Qed.

Lemma updateActiveCourse_consistent
    (aid : string) (f : Course → Course) (s : App.State) :
  (∀ c, modules (f c) = modules c) →
  coursesConsistent s → coursesConsistent (updateActiveCourse aid f s).
Proof.
  intros Hf Hs. unfold coursesConsistent.
  destruct (updateActiveCourse_allCourses aid f s) as (-> & _).
  apply Forall_fmap. eapply Forall_impl; [exact Hs |].
  intros c Hc. simpl. destruct (String.eqb _ _); [|done].
  unfold courseConsistent. by rewrite Hf.
Qed.

Lemma handleQuizSubmit_consistent (answers : gmap nat (list string)) (s : App.State) :
  coursesConsistent s → coursesConsistent (handleQuizSubmit answers s).
Proof.
  intros Hs.
  destruct (App.activeModule s) as [[m idx]|] eqn:Hm;
    [|unfold handleQuizSubmit; by rewrite Hm].
  destruct (App.activeCourse s) as [ac|] eqn:Hc;
    [|unfold handleQuizSubmit; by rewrite Hm, Hc].
  destruct (quiz m) as [l|] eqn:Hq;
    [|unfold handleQuizSubmit; by rewrite Hm, Hc, Hq].
  destruct (App.heap s !! l) as [qz|] eqn:Hh;
    [|unfold handleQuizSubmit; by rewrite Hm, Hc, Hq, Hh].
  apply coursesConsistent_split in Hs as [Hcs Hps].
  apply coursesConsistent_split.
  rewrite (handleQuizSubmit_courses s answers _ _ _ _ _ Hm Hc Hq Hh).
  rewrite (handleQuizSubmit_learningPaths s answers _ _ _ _ _ Hm Hc Hq Hh).
  split.
  - apply Forall_fmap. eapply Forall_impl; [exact Hcs |].
    intros c. apply quiz_courseUpdater_consistent.
  - destruct (App.activePath s) as [ap|]; [|done].
    apply Forall_fmap. eapply Forall_impl; [exact Hps |].
    intros p. apply quiz_pathUpdater_consistent.
Qed.

Lemma handleMockTestSubmit_consistent
    (today : string) (answers : gmap nat (list string)) (s : App.State) :
  coursesConsistent s → coursesConsistent (handleMockTestSubmit today answers s).
Proof.
  intros Hs.
  destruct (handleMockTestSubmit_shape today answers s)
    as [-> | (aid & pct & nb & Hcs & Hps)]; [done |].
  apply coursesConsistent_split in Hs as [Hcs0 Hps0].
  apply coursesConsistent_split. rewrite Hcs, Hps. split.
  - apply Forall_fmap. eapply Forall_impl; [exact Hcs0 |].
    intros c. apply mock_courseUpdater_consistent.
  - apply Forall_fmap. eapply Forall_impl; [exact Hps0 |].
    intros p Hp. simpl. apply Forall_fmap. eapply Forall_impl; [exact Hp |].
    intros c. apply mock_courseUpdater_consistent.
Qed.

Lemma step_coursesConsistent (e : Event) (s s' : App.State) :
  coursesConsistent s → step e s = Some s' → coursesConsistent s'.
Proof.
  intros Hs Hstep. destruct e; simpl in Hstep.
  all: try (injection Hstep as <-).
  all: try (unfold Dashboard_pathClick, Dashboard_courseClick;
            apply setAppView_coursesConsistent; exact Hs).
  - (* PathView_course *)
    unfold PathView_handleCourseClick.
    destruct (App.activePath s) as [ap|]; [|done].
    destruct (courses ap !! index); [|done].
    destruct (_ && _); [by apply setAppView_coursesConsistent | done].
  - (* CourseView_module *)
    unfold CourseView_moduleClick.
    destruct (App.activeCourse s) as [ac|]; [|done].
    destruct (modules ac !! index); [|done].
    destruct (_ && _); [by apply setAppView_coursesConsistent | done].
  - (* CourseView_generateModule *)
    unfold handleGenerateModule_call in Hstep.
    destruct (App.activeCourse s) as [ac|]; [|by injection Hstep as <-].
    destruct (Js.truthy (App.apiKey s)); [|by injection Hstep as <-].
    destruct (updateModuleState _ _ GENERATING _ _ s) as [s1|] eqn:Hs1;
      simpl in Hstep; [|done].
    apply updateModuleState_consistent in Hs1; [|done|done].
    destruct (modules ac !! index).
    + by injection Hstep as <-.
    + destruct (updateModuleState _ _ FAILED _ _ s1) as [s2|] eqn:Hs2;
        simpl in Hstep; [|done].
      apply updateModuleState_consistent in Hs2; [|done|done].
      by injection Hstep as <-.
  - (* GenerateModule_settled *)
    unfold handleGenerateModule_settle in Hstep. destruct r as [[text q]|msg].
    + apply updateModuleState_consistent in Hstep; [done| |done].
      intros m. split; by eexists.
    + by apply updateModuleState_consistent in Hstep.
  - (* CourseView_generateMockTest *)
    unfold handleGenerateMockTest_call.
    destruct (App.activeCourse s) as [ac|]; [|done].
    destruct (Js.truthy (App.apiKey s)); [|done]. simpl.
    by apply updateActiveCourse_consistent.
  - (* GenerateMockTest_settled *)
    unfold handleGenerateMockTest_settle. destruct r as [q|msg];
      by apply updateActiveCourse_consistent.
  - (* ModuleView_quiz *)
    unfold ModuleView_startQuiz.
    destruct (_ && _); [by apply setAppView_coursesConsistent | done].
  - (* QuizView_submitted *)
    unfold QuizView_submit.
    destruct (bool_decide _); [by apply handleQuizSubmit_consistent | done].
  - (* MockTestView_submitted *)
    destruct (bool_decide _); [by apply handleMockTestSubmit_consistent | done].
  - (* QuizResultsView_showAnswers *) exact Hs.
  - (* CreateCourse_called *)
    unfold handleCreateCourse_call. by destruct (negb _).
  - (* CreateCourse_settled *)
    unfold handleCreateCourse_settle. destruct r as [outline|msg]; [|done].
    apply coursesConsistent_split in Hs as [Hcs Hps].
    apply coursesConsistent_split. simpl. split; [|done].
    apply Forall_app. split; [done |].
    apply Forall_singleton, newCourse_consistent.
  - (* CreateLearningPath_called *)
    unfold handleCreateLearningPath_call. by destruct (negb _).
  - (* CreateLearningPath_settled *)
    unfold handleCreateLearningPath_settle. destruct r as [outline|msg]; [|done].
    apply coursesConsistent_split in Hs as [Hcs Hps].
    apply coursesConsistent_split. simpl. split; [done |].
    apply Forall_app. split; [done |].
    apply Forall_singleton, newPath_consistent.
  - (* ProfileView_apiKey *) exact Hs.
Qed.

End Consistency.

(** X15: in every course of the state, whatever the user does and whatever
    the gateway answers, a module holds a text and a quiz exactly when it is
    [READY]: a module that is locked, being generated or failed holds
    neither.  The courses and learning paths that are created satisfy this
    from the start. *)
Theorem ready_modules_hold_text_and_quiz
    (es : list Event) (s s' : App.State) :
  coursesConsistent s → run es s = Some s' →
  ∀ c m, c ∈ allCourses s' → m ∈ modules c →
    (generationState m = READY ↔ is_Some (content m))
    ∧ (generationState m = READY ↔ is_Some (quiz m)).
Proof.
  intros Hs Hrun.
  assert (Hs' : coursesConsistent s').
  { revert s Hs Hrun. induction es as [|e es IH]; intros s Hs; simpl.
    - by intros [= <-].
    - destruct (step e s) as [s1|] eqn:Hstep; simpl; [|done].
      apply IH. by apply (step_coursesConsistent e s). }
  intros c m Hc Hm.
  pose proof (proj1 (Forall_forall _ _) Hs' c Hc) as Hcc.
  pose proof (proj1 (Forall_forall _ _) Hcc m Hm) as Hmc.
  unfold moduleConsistent in Hmc.
  destruct (generationState m); destruct Hmc as [Hx Hy];
    try (rewrite Hx, Hy; split; split; [done | by intros [? ?] | done | by intros [? ?]]).
  by split; split.
Qed.

Lemma ready_modules_witness :
  let es := [CreateCourse_settled "2024-02-02T00:00:00.000Z" (Resolved twoModuleOutline);
             CourseView_generateModule 0;
             GenerateModule_settled
               {| pending_course := newCourse "2024-02-02T00:00:00.000Z" twoModuleOutline;
                  pending_index := 0 |}
               (Resolved ("text", quiz4))] in
  coursesConsistent emptyState
  ∧ ∃ s', run es emptyState = Some s'
      ∧ (λ c, (λ m, (generationState m, content m, quiz m)) <$> modules c)
          <$> allCourses s'
        = [[(READY, Some "text", Some 0); (LOCKED, None, None)]]
      ∧ ∀ c m, c ∈ allCourses s' → m ∈ modules c →
          (generationState m = READY ↔ is_Some (content m))
          ∧ (generationState m = READY ↔ is_Some (quiz m)).
Proof.
  intros es.
  assert (H1 : coursesConsistent emptyState) by constructor.
  split; [exact H1 |].
  destruct (run es emptyState) as [s'|] eqn:Hrun; [|vm_compute in Hrun; discriminate Hrun].
  exists s'. split; [reflexivity |].
  split; [vm_compute in Hrun; injection Hrun as <-; vm_compute; reflexivity |].
  exact (ready_modules_hold_text_and_quiz es emptyState s' H1 Hrun).
Defined.

(** ** An error message stays *)

Section ErrorFacts.

Lemma setActiveCourse_each_error (l : list Course) (s : App.State) :
  App.error (App.setActiveCourse_each l s) = App.error s
  ∧ App.loading (App.setActiveCourse_each l s) = App.loading s.
Proof. unfold App.setActiveCourse_each. by destruct (last l). Qed.

Lemma setActivePath_each_error (l : list LearningPath) (s : App.State) :
  App.error (App.setActivePath_each l s) = App.error s
  ∧ App.loading (App.setActivePath_each l s) = App.loading s.
Proof. unfold App.setActivePath_each. by destruct (last l). Qed.

Ltac error_proj :=
  repeat first
    [ progress cbn [App.error App.loading App.setView App.setCourses App.setLearningPaths
                    App.setHeap App.setQuizScore App.setMockTestScore App.setActiveCourse
                    App.setActivePath App.setActiveModule]
    | match goal with
      | |- context [App.error (App.setActiveCourse_each ?l ?t)] =>
          rewrite (proj1 (setActiveCourse_each_error l t))
      | |- context [App.loading (App.setActiveCourse_each ?l ?t)] =>
          rewrite (proj2 (setActiveCourse_each_error l t))
      | |- context [App.error (App.setActivePath_each ?l ?t)] =>
          rewrite (proj1 (setActivePath_each_error l t))
      | |- context [App.loading (App.setActivePath_each ?l ?t)] =>
          rewrite (proj2 (setActivePath_each_error l t))
      end ].

Lemma setAppView_error (v : View) (s : App.State) :
  App.error (setAppView v s) = App.error s
  ∧ App.loading (setAppView v s) = App.loading s.
Proof.
  unfold setAppView.
  destruct (bool_decide (v = dashboard)), (bool_decide (v ≠ path)),
    (negb (keepsCourse v)); by split.
Qed.

Lemma updateModuleState_error
    (aid : string) (idx : nat) (st : GenerationState)
    (text : option string) (q : option ref) (s s' : App.State) :
  updateModuleState aid idx st text q s = Some s' →
  App.error s' = App.error s ∧ App.loading s' = App.loading s.
Proof.
  unfold updateModuleState.
  destruct (mapM _ (App.courses s)) as [cs|]; simpl; [|done].
  destruct (mapM _ (App.learningPaths s)) as [ps|]; simpl; [|done].
  intros [= <-]. by error_proj.
Qed.

Lemma updateActiveCourse_error (aid : string) (f : Course → Course) (s : App.State) :
  App.error (updateActiveCourse aid f s) = App.error s
  ∧ App.loading (updateActiveCourse aid f s) = App.loading s.
Proof. unfold updateActiveCourse. by error_proj. Qed.

Lemma handleQuizSubmit_error (answers : gmap nat (list string)) (s : App.State) :
  App.error (handleQuizSubmit answers s) = App.error s
  ∧ App.loading (handleQuizSubmit answers s) = App.loading s.
Proof.
  unfold handleQuizSubmit.
  destruct (App.activeModule s) as [[m idx]|]; [|done].
  destruct (App.activeCourse s) as [ac|]; [|done].
  destruct (quiz m) as [l|]; [|done].
  destruct (App.heap s !! l) as [qz|]; [|done].
  destruct (App.activePath s) as [ap|]; by error_proj.
Qed.

Lemma handleMockTestSubmit_error
    (today : string) (answers : gmap nat (list string)) (s : App.State) :
  App.error (handleMockTestSubmit today answers s) = App.error s
  ∧ App.loading (handleMockTestSubmit today answers s) = App.loading s.
Proof.
  unfold handleMockTestSubmit.
  destruct (App.activeCourse s) as [ac|]; [|done].
  destruct (mockTest ac) as [l|]; [|done].
  destruct (App.heap s !! l) as [qz|]; [|done].
  by error_proj.
Qed.

(** Only the creation handlers write [error] and [loading]. *)
Lemma step_error (e : Event) (s s' : App.State) :
  step e s = Some s' →
  match e with
  | CreateCourse_called | CreateCourse_settled _ _
  | CreateLearningPath_called | CreateLearningPath_settled _ _ _ => True
  | _ => App.error s' = App.error s ∧ App.loading s' = App.loading s
  end.
Proof.
  intros Hstep. destruct e; simpl in Hstep; try exact I.
  all: try (injection Hstep as <-).
  all: try (unfold Dashboard_pathClick, Dashboard_courseClick;
            match goal with |- context [setAppView ?v ?t] =>
              destruct (setAppView_error v t) as [-> ->] end; by split).
  - (* PathView_course *)
    unfold PathView_handleCourseClick.
    destruct (App.activePath s) as [ap|]; [|done].
    destruct (courses ap !! index); [|done].
    destruct (_ && _); [|done].
    match goal with |- context [setAppView ?v ?t] =>
      destruct (setAppView_error v t) as [-> ->] end; by split.
  - (* CourseView_module *)
    unfold CourseView_moduleClick.
    destruct (App.activeCourse s) as [ac|]; [|done].
    destruct (modules ac !! index); [|done].
    destruct (_ && _); [|done].
    match goal with |- context [setAppView ?v ?t] =>
      destruct (setAppView_error v t) as [-> ->] end; by split.
  - (* CourseView_generateModule *)
    unfold handleGenerateModule_call in Hstep.
    destruct (App.activeCourse s) as [ac|]; [|by injection Hstep as <-].
    destruct (Js.truthy (App.apiKey s)); [|by injection Hstep as <-].
    destruct (updateModuleState _ _ GENERATING _ _ s) as [s1|] eqn:Hs1;
      simpl in Hstep; [|done].
    apply updateModuleState_error in Hs1 as [He1 Hl1].
    destruct (modules ac !! index).
    + by injection Hstep as <-.
    + destruct (updateModuleState _ _ FAILED _ _ s1) as [s2|] eqn:Hs2;
        simpl in Hstep; [|done].
      apply updateModuleState_error in Hs2 as [He2 Hl2].
      injection Hstep as <-. by rewrite He2, Hl2.
  - (* GenerateModule_settled *)
    unfold handleGenerateModule_settle in Hstep. destruct r as [[text q]|msg];
      by apply updateModuleState_error in Hstep.
  - (* CourseView_generateMockTest *)
    unfold handleGenerateMockTest_call.
    destruct (App.activeCourse s) as [ac|]; [|done].
    destruct (Js.truthy (App.apiKey s)); [|done]. simpl.
    apply updateActiveCourse_error.
  - (* GenerateMockTest_settled *)
    unfold handleGenerateMockTest_settle. destruct r as [q|msg].
    + match goal with |- context [updateActiveCourse ?a ?f ?t] =>
        destruct (updateActiveCourse_error a f t) as [-> ->] end. by split.
    + apply updateActiveCourse_error.
  - (* ModuleView_quiz *)
    unfold ModuleView_startQuiz.
    destruct (_ && _); [apply setAppView_error | done].
  - (* QuizView_submitted *)
    unfold QuizView_submit.
    destruct (bool_decide _); [apply handleQuizSubmit_error | done].
  - (* MockTestView_submitted *)
    destruct (bool_decide _); [apply handleMockTestSubmit_error | done].
  - (* QuizResultsView_showAnswers *) by split.
  - (* ProfileView_apiKey *) by split.
Qed.

(** While an error is shown, none of the creators is mounted. *)
Lemma errorShown_render (σ : Session) :
  errorShown σ →
  MainApp_render (app σ) = ApiKeySetup
  ∨ MainApp_render (app σ) = WorldLoader
  ∨ MainApp_render (app σ) = ErrorMessage (default EmptyString (App.error (app σ))).
Proof.
  intros (_ & _ & _ & Hl & He). unfold MainApp_render, renderContent.
  rewrite Hl, He. destruct (negb _); [by left |]. simpl.
  destruct (bool_decide _); [right; by left | right; by right].
Qed.

Lemma Session_step_errorShown (e : SessionEvent) (σ σ' : Session) :
  errorShown σ → Session_step e σ = Some σ' →
  errorShown σ' ∧ App.error (app σ') = App.error (app σ).
Proof.
  intros Hσ Hstep.
  pose proof (errorShown_render σ Hσ) as Hrender.
  destruct Hσ as (Hpr & Hpc & Hpp & Hl & He).
  destruct e as [e| | |i|i message]; cbn [Session_step] in Hstep.
  - destruct e; rewrite ?Hpc, ?Hpp in Hstep; try done.
    all: try match type of Hstep with
         | context [step ?e ?t] =>
             destruct (step e t) as [s'|] eqn:Hs; simpl in Hstep; [|done];
             apply step_error in Hs as [Hes Hls]; injection Hstep as <-;
             unfold errorShown; simpl; by rewrite Hes, Hls
         end.
    + by (destruct Hrender as [Hr | [Hr | Hr]]; rewrite Hr in Hstep).
    + by (destruct Hrender as [Hr | [Hr | Hr]]; rewrite Hr in Hstep).
  - by (destruct Hrender as [Hr | [Hr | Hr]]; rewrite Hr in Hstep).
  - by (destruct Hrender as [Hr | [Hr | Hr]]; rewrite Hr in Hstep).
  - by rewrite Hpr in Hstep.
  - by rewrite Hpr in Hstep.
Qed.

End ErrorFacts.

(** X16: once an error is shown and nothing is under way, it stays.
    Whatever the user does in the components that are mounted and whatever
    the gateway answers to the generations under way, the error is the same
    afterwards, no creation and no file read has been started, and the main
    area shows the error message in place of the component of the view
    (in every view but [loading], where it shows the loader).  Only the
    creation handlers clear the error, and the components that call them
    are not mounted while it is set. *)
Theorem error_message_stays (es : list SessionEvent) (σ σ' : Session) :
  errorShown σ → Session_run es σ = Some σ' →
  errorShown σ'
  ∧ App.error (app σ') = App.error (app σ)
  ∧ (App.view (app σ') ≠ loading_view →
     renderContent (app σ') = ErrorMessage (default EmptyString (App.error (app σ)))).
Proof.
  intros Hσ Hrun.
  assert (H : errorShown σ' ∧ App.error (app σ') = App.error (app σ)).
  { revert σ Hσ Hrun. induction es as [|e es IH]; intros σ Hσ; simpl.
    - by intros [= <-].
    - destruct (Session_step e σ) as [σ1|] eqn:Hstep; simpl; [|done]. intros Hrun.
      destruct (Session_step_errorShown e σ σ1 Hσ Hstep) as [Hσ1 He1].
      destruct (IH σ1 Hσ1 Hrun) as [Hσ' He']. split; [done |]. by rewrite He'. }
  destruct H as [Hσ' He]. split; [done |]. split; [done |].
  intros Hview. destruct Hσ' as (_ & _ & _ & Hl & Ht).
  unfold renderContent. rewrite Hl, Ht, He, bool_decide_false by done. done.
Qed.

Lemma error_message_witness :
  let es := [Ui (Navigate create_hub); Ui (Navigate create_topic); Creator_submittedEmpty] in
  let es' := [Ui Sidebar_dashboard; Ui (Navigate create_hub); Ui (Navigate create_topic)] in
  ∃ σ, Session_run es (Session_of emptyState) = Some σ
    ∧ errorShown σ
    ∧ (∃ σ', Session_run es' σ = Some σ'
         ∧ App.view (app σ') = create_topic
         ∧ renderContent (app σ')
           = ErrorMessage "Please provide a course topic or exam name.")
    ∧ Session_run (es' ++ [Ui CreateCourse_called]) σ = None.
Proof.
  intros es es'.
  destruct (Session_run es (Session_of emptyState)) as [σ|] eqn:Hσ;
    [|vm_compute in Hσ; discriminate Hσ].
  exists σ. split; [reflexivity |].
  assert (H1 : errorShown σ)
    by (vm_compute in Hσ; injection Hσ as <-; repeat split).
  split; [exact H1 |].
  destruct (Session_run es' σ) as [σ'|] eqn:Hrun;
    [|vm_compute in Hσ; injection Hσ as <-; vm_compute in Hrun; discriminate Hrun].
  assert (Hview : App.view (app σ') = create_topic).
  { vm_compute in Hσ. injection Hσ as <-. vm_compute in Hrun. injection Hrun as <-.
    reflexivity. }
  assert (Herr : App.error (app σ) = Some "Please provide a course topic or exam name.")
    by (vm_compute in Hσ; injection Hσ as <-; reflexivity).
  split.
  - exists σ'. split; [reflexivity |]. split; [exact Hview |].
    destruct (error_message_stays es' σ σ' H1 Hrun) as (_ & _ & Hshown).
    rewrite Herr in Hshown. apply Hshown. rewrite Hview. discriminate.
  - vm_compute in Hσ. injection Hσ as <-. vm_compute. reflexivity.
Defined.

(** ** The quiz form *)

Section QuizViewFacts.

Lemma includes_elem_of (l : list string) (x : string) : includes l x = true ↔ x ∈ l.
Proof.
  unfold includes. rewrite existsb_exists. split.
  - intros (y & Hy & Heq). apply String.eqb_eq in Heq as ->. by apply list_elem_of_In.
  - intros Hx. exists x. split; [by apply list_elem_of_In | apply String.eqb_refl].
Qed.

Lemma includes_app (l1 l2 : list string) (x : string) :
  includes (l1 ++ l2) x = includes l1 x || includes l2 x.
Proof. apply existsb_app. Qed.

Lemma includes_filter_ne (l : list string) (a x : string) :
  includes (filter (λ b, b ≠ a) l) x = includes l x && negb (bool_decide (x = a)).
Proof.
  induction l as [|b l IH]; [done |].
  rewrite filter_cons. destruct (decide (b ≠ a)) as [Hb|Hb].
  - unfold includes in *. simpl. rewrite IH.
    destruct (String.eqb_spec x b) as [->|Hxb]; simpl; [|done].
    by rewrite bool_decide_false.
  - apply dec_stable in Hb as ->. unfold includes in *. simpl. rewrite IH.
    destruct (String.eqb_spec x a) as [->|Hxa]; simpl; [|done].
    rewrite bool_decide_true by done. simpl. apply andb_false_r.
Qed.

(** One click on an option of a multi-select question turns it over. *)
Lemma handleAnswerChange_MSQ
    (qIndex : nat) (a : string) (prev : gmap nat (list string)) :
  let sel := default [] (prev !! qIndex) in
  let sel' := default [] (handleAnswerChange qIndex a MSQ prev !! qIndex) in
  (NoDup sel → NoDup sel')
  ∧ (∀ x, includes sel' x = xorb (includes sel x) (bool_decide (x = a)))
  ∧ (∀ j, j ≠ qIndex → handleAnswerChange qIndex a MSQ prev !! j = prev !! j).
Proof.
  intros sel sel'. subst sel'. unfold handleAnswerChange. fold sel.
  destruct (includes sel a) eqn:Hin.
  - rewrite lookup_insert_eq. cbn [from_option id]. split; [apply NoDup_filter |]. split.
    + intros x. rewrite includes_filter_ne. case_bool_decide as Hx.
      * subst x. rewrite Hin. done.
      * by destruct (includes sel x).
    + intros j Hj. by rewrite lookup_insert_ne.
  - rewrite lookup_insert_eq. cbn [from_option id]. split; [|split].
    + intros Hnd. apply NoDup_app. split; [done |]. split; [|apply NoDup_singleton].
      intros x Hx Hxa. apply list_elem_of_singleton in Hxa as ->.
      apply includes_elem_of in Hx. congruence.
    + intros x. rewrite includes_app. case_bool_decide as Hx.
      * subst x. rewrite Hin. unfold includes. simpl. by rewrite String.eqb_refl.
      * unfold includes at 2. simpl.
        rewrite (proj2 (String.eqb_neq _ _) Hx). by destruct (includes sel x).
    + intros j Hj. by rewrite lookup_insert_ne.
Qed.

Lemma tickAll_from
    (qIndex : nat) (clicks : list string) (prev : gmap nat (list string)) :
  let final := foldl (λ answers a, handleAnswerChange qIndex a MSQ answers) prev clicks in
  (NoDup (default [] (prev !! qIndex)) → NoDup (default [] (final !! qIndex)))
  ∧ (∀ x, includes (default [] (final !! qIndex)) x
          = xorb (includes (default [] (prev !! qIndex)) x)
                 (Nat.odd (length (filter (λ a, a = x) clicks))))
  ∧ (∀ j, j ≠ qIndex → final !! j = prev !! j).
Proof.
  revert prev. induction clicks as [|a clicks IH]; intros prev final; subst final.
  - simpl. split; [done |]. split; [|done]. intros x. by rewrite xorb_false_r.
  - cbn [foldl].
    destruct (handleAnswerChange_MSQ qIndex a prev) as (Hnd1 & Hin1 & Hother1).
    destruct (IH (handleAnswerChange qIndex a MSQ prev)) as (Hnd & Hin & Hother).
    split; [auto |]. split.
    + intros x. rewrite Hin, Hin1, filter_cons.
      destruct (decide (a = x)) as [->|Hax].
      * rewrite bool_decide_true by done. cbn [length]. rewrite Nat.odd_succ.
        rewrite <- Nat.negb_odd. by destruct (includes _ x), (Nat.odd _).
      * rewrite bool_decide_false by congruence. by rewrite xorb_false_r.
    + intros j Hj. by rewrite Hother, Hother1.
Qed.





End QuizViewFacts.

(** X17: the boxes of a multi-select question.  After any clicks on the
    options of one question, an option is selected exactly when it was
    clicked an odd number of times, no option is selected twice, and the
    other questions are untouched. *)
Theorem selected_iff_clicked_an_odd_number_of_times
    (qIndex : nat) (clicks : list string) :
  let selection := default [] (tickAll qIndex clicks !! qIndex) in
  NoDup selection
  ∧ (∀ x, x ∈ selection ↔ Nat.odd (length (filter (λ a, a = x) clicks)) = true)
  ∧ (∀ j, j ≠ qIndex → tickAll qIndex clicks !! j = None).
Proof.
  intros selection. subst selection. unfold tickAll.
  destruct (tickAll_from qIndex clicks ∅) as (Hnd & Hin & Hother).
  rewrite lookup_empty in Hnd, Hin. cbn [from_option id] in Hnd, Hin.
  split; [apply Hnd, NoDup_nil_2 |]. split.
  - intros x. rewrite <- includes_elem_of, Hin. done.
  - intros j Hj. by rewrite Hother, lookup_empty.
Qed.



(** ** Creations under way *)

Section CreationFacts.

Lemma offersCourseCreation_inv (s : App.State) :
  offersCourseCreation (MainApp_render s) = true →
  Js.truthy (App.apiKey s) = true ∧ App.loading s = false
  ∧ Js.truthy (App.error s) = false
  ∧ (App.view s = create_topic ∨ App.view s = create_document).
Proof.
  unfold MainApp_render, renderContent.
  destruct (Js.truthy (App.apiKey s)); simpl; [|done].
  destruct (App.loading s); simpl; [done |].
  destruct (bool_decide (App.view s = loading_view)); [done |].
  destruct (Js.truthy (App.error s)); [done |].
  destruct (App.view s); simpl; try done; eauto.
  - by destruct (App.activePath s).
  - by destruct (App.activeCourse s).
  - by destruct (App.activeModule s) as [[? ?]|].
  - by destruct (App.activeModule s ≫= _).
  - by destruct (App.activeModule s ≫= _).
  - by destruct (App.activeCourse s ≫= _).
Qed.

Lemma offersPathCreation_inv (s : App.State) :
  offersPathCreation (MainApp_render s) = true →
  Js.truthy (App.apiKey s) = true ∧ App.loading s = false
  ∧ Js.truthy (App.error s) = false ∧ App.view s = create_path.
Proof.
  unfold MainApp_render, renderContent.
  destruct (Js.truthy (App.apiKey s)); simpl; [|done].
  destruct (App.loading s); simpl; [done |].
  destruct (bool_decide (App.view s = loading_view)); [done |].
  destruct (Js.truthy (App.error s)); [done |].
  destruct (App.view s); simpl; try done.
  - by destruct (App.activePath s).
  - by destruct (App.activeCourse s).
  - by destruct (App.activeModule s) as [[? ?]|].
  - by destruct (App.activeModule s ≫= _).
  - by destruct (App.activeModule s ≫= _).
  - by destruct (App.activeCourse s ≫= _).
Qed.

Lemma Session_step_creationsAgree (e : SessionEvent) (σ σ' : Session) :
  e ≠ DocumentCreator_submittedFile →
  creationsAgree σ → Session_step e σ = Some σ' → creationsAgree σ'.
Proof.
  unfold creationsAgree. intros Hfile [Hpr Hσ] Hstep.
  destruct e as [e| | |i|i message]; cbn [Session_step] in Hstep.
  - destruct e.
    all: try match type of Hstep with
         | (step ?e ?t ≫= _) = _ =>
             destruct (step e t) as [s'|] eqn:Hs; simpl in Hstep; [|done];
             apply step_error in Hs as [_ Hls]; injection Hstep as <-;
             simpl; by rewrite Hls
         end.
    + (* CreateCourse_called *)
      destruct (offersCourseCreation _) eqn:Hoff; [|done].
      apply offersCourseCreation_inv in Hoff as (Hkey & Hl & _).
      injection Hstep as <-. unfold handleCreateCourse_call.
      rewrite Hkey. simpl. rewrite Hl in Hσ. split; [done | lia].
    + (* CreateCourse_settled *)
      destruct (pendingCourses σ) as [|n]; [done |].
      simpl in Hstep. injection Hstep as <-. simpl.
      split; [done |]. destruct (App.loading (app σ)); lia.
    + (* CreateLearningPath_called *)
      destruct (offersPathCreation _) eqn:Hoff; [|done].
      apply offersPathCreation_inv in Hoff as (Hkey & Hl & _).
      injection Hstep as <-. unfold handleCreateLearningPath_call.
      rewrite Hkey. simpl. rewrite Hl in Hσ. split; [done | lia].
    + (* CreateLearningPath_settled *)
      destruct (pendingPaths σ) as [|n]; [done |].
      simpl in Hstep. injection Hstep as <-. simpl.
      split; [done |]. destruct (App.loading (app σ)); lia.
  - destruct (MainApp_render (app σ)); try done; by injection Hstep as <-.
  - done.
  - by rewrite Hpr in Hstep.
  - by rewrite Hpr in Hstep.
Qed.

End CreationFacts.

(** X19: as long as no file is submitted in [DocumentCreator], at most one
    creation is under way, and [loading] is set exactly while there is one.
    Whenever a creator is mounted, no creation is under way and the handler
    it calls reaches the gateway: its branch for a missing API key is not
    taken. *)
Theorem one_creation_at_a_time (es : list SessionEvent) (σ σ' : Session) :
  creationsAgree σ → DocumentCreator_submittedFile ∉ es →
  Session_run es σ = Some σ' →
  creationsAgree σ'
  ∧ pendingCourses σ' + pendingPaths σ' ≤ 1
  ∧ (offersCourseCreation (MainApp_render (app σ')) = true →
     (handleCreateCourse_call (app σ')).2 = true
     ∧ pendingCourses σ' + pendingPaths σ' = 0)
  ∧ (offersPathCreation (MainApp_render (app σ')) = true →
     (handleCreateLearningPath_call (app σ')).2 = true
     ∧ pendingCourses σ' + pendingPaths σ' = 0).
Proof.
  intros Hσ Hfile Hrun.
  assert (Hσ' : creationsAgree σ').
  { revert σ Hσ Hrun. induction es as [|e es IH]; intros σ Hσ; simpl.
    - by intros [= <-].
    - destruct (Session_step e σ) as [σ1|] eqn:Hstep; simpl; [|done].
      apply not_elem_of_cons in Hfile as [Hne Hfile].
      apply (IH Hfile). by apply (Session_step_creationsAgree e σ). }
  split; [done |]. destruct Hσ' as [_ Hσ'].
  split; [destruct (App.loading (app σ')); lia |]. split.
  - intros Hoff. apply offersCourseCreation_inv in Hoff as (Hkey & Hl & _).
    unfold handleCreateCourse_call. rewrite Hkey. simpl. by rewrite Hl in Hσ'.
  - intros Hoff. apply offersPathCreation_inv in Hoff as (Hkey & Hl & _).
    unfold handleCreateLearningPath_call. rewrite Hkey. simpl. by rewrite Hl in Hσ'.
Qed.

Lemma one_creation_witness :
  let es := [Ui (Navigate create_hub); Ui (Navigate create_topic); Ui CreateCourse_called;
             Ui Sidebar_dashboard] in
  (creationsAgree (Session_of emptyState) ∧ DocumentCreator_submittedFile ∉ es)
  ∧ (∃ σ', Session_run es (Session_of emptyState) = Some σ'
       ∧ pendingCourses σ' = 1
       ∧ MainApp_render (app σ') = WorldLoader
       ∧ creationsAgree σ')
  ∧ Session_run (es ++ [Ui (Navigate create_topic); Ui CreateCourse_called])
      (Session_of emptyState) = None.
Proof.
  intros es.
  assert (H1 : creationsAgree (Session_of emptyState)) by (split; reflexivity).
  assert (H2 : DocumentCreator_submittedFile ∉ es).
  { intros Hin. repeat (apply elem_of_cons in Hin as [Hin|Hin]; [discriminate Hin |]).
    by apply elem_of_nil in Hin. }
  split; [exact (conj H1 H2) |].
  destruct (Session_run es (Session_of emptyState)) as [σ'|] eqn:Hrun;
    [|vm_compute in Hrun; discriminate Hrun].
  split; [|vm_compute; reflexivity].
  exists σ'. split; [reflexivity |].
  split; [vm_compute in Hrun; injection Hrun as <-; reflexivity |].
  split; [vm_compute in Hrun; injection Hrun as <-; reflexivity |].
  exact (proj1 (one_creation_at_a_time es (Session_of emptyState) σ' H1 H2 Hrun)).
Defined.

(** A file submitted twice while it is read starts two creations: the
    second answer of the gateway arrives when [loading] is off again. *)
Example two_file_submissions_start_two_creations :
  let es := [Ui (Navigate create_document); DocumentCreator_submittedFile;
             DocumentCreator_submittedFile; FileRead_resolved 0; FileRead_resolved 0] in
  (λ σ, (pendingCourses σ, App.loading (app σ)))
    <$> Session_run es (Session_of emptyState) = Some (2, true)
  ∧ (λ σ, (pendingCourses σ, App.loading (app σ), length (App.courses (app σ))))
      <$> Session_run
            (es ++ [Ui (CreateCourse_settled "2024-02-02T00:00:00.000Z"
                          (Resolved twoModuleOutline))])
            (Session_of emptyState)
    = Some (1, false, 1).
Proof. vm_compute. done. Qed.

(** ** The course that a settled generation makes active *)

Section SettledGeneration.

Lemma updateModuleState_activeCourse
    (aid : string) (idx : nat) (st : GenerationState)
    (text : option string) (q : option ref) (s s' : App.State) :
  updateModuleState aid idx st text q s = Some s' →
  App.activeCourse s'
  = match last (filter (λ c, hasId aid c = true) (allCourses s')) with
    | Some c => Some c
    | None => App.activeCourse s
    end
  ∧ App.activeModule s' = App.activeModule s
  ∧ App.loading s' = App.loading s ∧ App.error s' = App.error s.
Proof.
  intros Hupd.
  destruct (updateModuleState_error _ _ _ _ _ _ _ Hupd) as [He Hl].
  revert Hupd. unfold updateModuleState, allCourses.
  destruct (mapM _ (App.courses s)) as [cs|]; simpl; [|done].
  destruct (mapM _ (App.learningPaths s)) as [ps|]; simpl; [|done].
  intros [= <-]. rewrite <- He, <- Hl.
  match goal with |- context [App.setActiveCourse_each ?l ?t] =>
    destruct (setActiveCourse_each_rest l t) as (-> & _);
    rewrite (setActiveCourse_each_courses l t), (setActiveCourse_each_learningPaths l t)
  end.
  split; [|done]. simpl. unfold App.setActiveCourse_each.
  by destruct (last _).
Qed.

End SettledGeneration.

(** X20: when the gateway answers a module generation, the course of that
    generation becomes the active course, whichever course the user has
    opened in the meantime: if one of the user's courses has the id, the
    active course is afterwards a course of the state with that id, while
    the view, the active module and the active path are as before; so the
    course view shows the course of the generation. *)
Theorem settled_generation_activates_its_course
    (p : Pending) (r : Settled (string * Quiz)) (s s' : App.State) (c0 : Course) :
  handleGenerateModule_settle p r s = Some s' →
  c0 ∈ allCourses s →
  Course_id c0 = Course_id (pending_course p) →
  ∃ c', App.activeCourse s' = Some c'
    ∧ c' ∈ allCourses s'
    ∧ Course_id c' = Course_id (pending_course p)
    ∧ App.view s' = App.view s
    ∧ App.activeModule s' = App.activeModule s
    ∧ App.activePath s' = App.activePath s
    ∧ (App.loading s = false → Js.truthy (App.error s) = false →
       App.view s = course →
       renderContent s' = CourseView c').
Proof.
  intros Hsettle Hin Hid.
  assert (Hupd : ∃ st text q t,
            updateModuleState (Course_id (pending_course p)) (pending_index p)
              st text q t = Some s'
            ∧ allCourses t = allCourses s ∧ App.view t = App.view s
            ∧ App.activeModule t = App.activeModule s
            ∧ App.activePath t = App.activePath s
            ∧ App.loading t = App.loading s ∧ App.error t = App.error s).
  { unfold handleGenerateModule_settle in Hsettle. destruct r as [[text q]|msg].
    - eexists _, _, _, _. split; [exact Hsettle |]. by repeat split.
    - eexists _, _, _, _. split; [exact Hsettle |]. by repeat split. }
  destruct Hupd as (st & text & q & t & Hupd & Hall & Hview & Hmod & Hpath & Hload & Herr).
  destruct (updateModuleState_allCourses _ _ _ _ _ _ _ Hupd) as [Hrel _].
  rewrite Hall in Hrel.
  apply list_elem_of_lookup in Hin as [k Hk].
  destruct (Forall2_lookup_l _ _ _ _ _ Hrel Hk) as (c0' & Hk' & Hc0').
  destruct (generate_courseUpdater_id _ _ _ _ _ _ _ Hc0') as [Hid' _].
  assert (Hin' : c0' ∈ allCourses s') by (by apply list_elem_of_lookup_2 in Hk').
  destruct (last_filter_hasId (Course_id (pending_course p)) (allCourses s') c0' Hin')
    as (c' & Hlast & Hc' & Hidc'); [congruence |].
  destruct (updateModuleState_activeCourse _ _ _ _ _ _ _ Hupd) as (Hac & Ham & Hl & He).
  destruct (updateModuleState_view _ _ _ _ _ _ _ Hupd) as [Hv Hp].
  rewrite Hlast in Hac.
  exists c'. split; [done |]. split; [done |]. split; [done |].
  split; [congruence |]. split; [congruence |]. split; [congruence |].
  intros Hloading Herror Hcourse. unfold renderContent.
  by rewrite Hv, Hl, He, Hview, Hload, Herr, Hcourse, Hac, Hloading, Herror.
Qed.

Lemma settled_generation_witness :
  let p := {| pending_course := newCourse "2024-02-02T00:00:00.000Z" twoModuleOutline;
              pending_index := 0 |} in
  let s := otherCourseOpen in
  renderContent s = CourseView readyCourse
  ∧ ∃ s' c', handleGenerateModule_settle p (Rejected "no network") s = Some s'
      ∧ App.activeCourse s' = Some c'
      ∧ Course_title c' = "Linear algebra"
      ∧ renderContent s' = CourseView c'.
Proof.
  intros p s.
  assert (H0 : renderContent s = CourseView readyCourse) by reflexivity.
  split; [exact H0 |].
  destruct (handleGenerateModule_settle p (Rejected "no network") s) as [s'|] eqn:Hs;
    [|vm_compute in Hs; discriminate Hs].
  assert (H1 : newCourse "2024-02-02T00:00:00.000Z" twoModuleOutline ∈ allCourses s)
    by (apply list_elem_of_here).
  destruct (settled_generation_activates_its_course p _ s s' _ Hs H1 eq_refl)
    as (c' & Hac & _ & _ & _ & _ & _ & Hrender).
  exists s', c'. split; [reflexivity |]. split; [exact Hac |].
  split.
  - vm_compute in Hs. injection Hs as <-. vm_compute in Hac. injection Hac as <-.
    reflexivity.
  - apply Hrender; reflexivity.
Defined.

(** * The accounts *)

Section AuthFacts.

Lemma find_lookup {A : Type} (p : A → bool) (l : list A) (k : nat) (x : A) :
  l !! k = Some x → p x = true →
  (∀ j y, j < k → l !! j = Some y → p y = false) →
  find p l = Some x.
Proof.
  revert k. induction l as [|y l IH]; intros k Hk Hx Hbefore; [done |].
  destruct k as [|k]; simpl in *.
  - injection Hk as ->. by rewrite Hx.
  - rewrite (Hbefore 0 y) by (done || lia).
    apply (IH k); [done | done |]. intros j z Hj. apply (Hbefore (S j)). lia.
Qed.

Lemma findIndex_lookup {A : Type} (p : A → bool) (l : list A) (k : nat) (x : A) :
  l !! k = Some x → p x = true →
  (∀ j y, j < k → l !! j = Some y → p y = false) →
  findIndex p l = Some k.
Proof.
  revert k. induction l as [|y l IH]; intros k Hk Hx Hbefore; [done |].
  destruct k as [|k]; simpl in *.
  - injection Hk as ->. by rewrite Hx.
  - rewrite (Hbefore 0 y) by (done || lia).
    rewrite (IH k); [done | done | done |]. intros j z Hj. apply (Hbefore (S j)). lia.
Qed.

Lemma find_None_Forall {A : Type} (p : A → bool) (l : list A) :
  find p l = None ↔ Forall (λ x, p x = false) l.
Proof.
  induction l as [|x l IH]; simpl; [by split; [constructor |] |].
  destruct (p x) eqn:Hx.
  - split; [done |]. intros H. apply Forall_cons in H as [H _]. congruence.
  - rewrite IH. split; [by constructor |]. by intros [_ H]%Forall_cons.
Qed.

Lemma JSON_User_idemp (u : Auth.User) :
  Auth.JSON_User (Auth.JSON_User u) = Auth.JSON_User u.
Proof.
  unfold Auth.JSON_User. simpl. f_equal.
  destruct (Auth.User_age u) as [[| | |]|]; done.
Qed.

Lemma emails_JSON (db : list Auth.AuthUser) :
  Auth.emails (Auth.JSON_AuthUser <$> db) = Auth.emails db.
Proof. unfold Auth.emails. rewrite <- list_fmap_compose. by apply list_fmap_ext. Qed.

Lemma ids_JSON (db : list Auth.AuthUser) :
  Auth.ids (Auth.JSON_AuthUser <$> db) = Auth.ids db.
Proof. unfold Auth.ids. rewrite <- list_fmap_compose. by apply list_fmap_ext. Qed.

Lemma NoDup_fmap_lookup {A B : Type} (f : A → B) (l : list A) (j k : nat) (x y : A) :
  NoDup (f <$> l) → l !! j = Some x → l !! k = Some y → f x = f y → j = k.
Proof.
  intros Hnd Hj Hk Hf.
  apply (NoDup_lookup (f <$> l) j k (f x)); [done | |].
  - by rewrite list_lookup_fmap, Hj.
  - by rewrite list_lookup_fmap, Hk, Hf.
Qed.

End AuthFacts.

(** X21: signing up and logging in.  When no account has the email, the
    signup stores the new account without logging in; a login with the same
    email and password then succeeds, and the user it sets is the one that
    was signed up, without the password.  A login with another password and
    a second signup with the email throw; the emails of the accounts stay
    distinct. *)
Theorem signup_then_login
    (name email password now : string) (st : Auth.State) :
  find (λ u, bool_decide (Auth.User_email (Auth.account u) = email)) (Auth.users_db st)
  = None →
  let newUser :=
    {| Auth.User_id := now; Auth.User_email := email; Auth.User_name := Some name;
       Auth.User_age := None; Auth.User_bio := None; Auth.User_apiKey := None |} in
  ∃ st1,
    Auth.signup name email password now st = Auth.Returns st1
    ∧ Auth.user st1 = Auth.user st
    ∧ (∃ st2, Auth.login email password st1 = Auth.Returns st2
         ∧ Auth.user st2 = Some newUser
         ∧ Auth.quanta_user (Auth.localStorage st2) = Some newUser
         ∧ Auth.users_db st2 = Auth.users_db st1)
    ∧ (∀ password', password' ≠ password →
         Auth.login email password' st1 = Auth.Throws "Invalid email or password.")
    ∧ (∀ name' password' now',
         Auth.signup name' email password' now' st1
         = Auth.Throws "An account with this email already exists.")
    ∧ (NoDup (Auth.emails (Auth.users_db st)) → NoDup (Auth.emails (Auth.users_db st1))).
Proof.
  intros Hfree newUser. unfold Auth.signup. rewrite Hfree.
  eexists. split; [reflexivity |]. split; [reflexivity |].
  set (db := Auth.users_db st) in *.
  set (new := {| Auth.account := newUser; Auth.AuthUser_password := Some password |}).
  assert (Hdb1 : ∀ u q, Auth.users_db {| Auth.user := u;
                   Auth.localStorage :=
                     {| Auth.quanta_users_db := Some (Auth.JSON_AuthUser <$> (db ++ [new]));
                        Auth.quanta_user := q |} |}
                 = (Auth.JSON_AuthUser <$> db) ++ [new]).
  { intros u q. unfold Auth.users_db. simpl. by rewrite fmap_app. }
  apply find_None_Forall in Hfree.
  assert (Hlen : length (Auth.JSON_AuthUser <$> db) = length db) by apply length_fmap.
  assert (Hlast : ((Auth.JSON_AuthUser <$> db) ++ [new]) !! length db = Some new).
  { rewrite lookup_app_r by lia. by rewrite Hlen, Nat.sub_diag. }
  assert (Hbefore : ∀ j y, j < length db →
            ((Auth.JSON_AuthUser <$> db) ++ [new]) !! j = Some y →
            bool_decide (Auth.User_email (Auth.account y) = email) = false).
  { intros j y Hj. rewrite lookup_app_l by lia. rewrite list_lookup_fmap.
    destruct (db !! j) as [a|] eqn:Ha; simpl; [|done]. intros [= <-].
    apply (Forall_lookup_1 _ _ _ _ Hfree Ha). }
  split; [|split; [|split]].
  - unfold Auth.login. rewrite Hdb1.
    rewrite (find_lookup _ _ (length db) new Hlast).
    + eexists. split; [reflexivity |]. simpl. split; [done |]. split; [done |].
      unfold Auth.users_db. simpl. by rewrite fmap_app.
    + simpl. by rewrite !bool_decide_true.
    + intros j y Hj Hy. by rewrite (Hbefore j y Hj Hy).
  - intros password' Hne. unfold Auth.login. rewrite Hdb1.
    rewrite (proj2 (find_None_Forall _ _)); [done |].
    apply Forall_lookup. intros j y Hy.
    destruct (decide (j < length db)) as [Hj|Hj].
    + by rewrite (Hbefore j y Hj Hy).
    + assert (j = length db) as ->.
      { apply lookup_lt_Some in Hy. rewrite length_app, Hlen in Hy. simpl in Hy. lia. }
      rewrite Hlast in Hy. injection Hy as <-. simpl.
      rewrite (bool_decide_false (Some password = Some password')) by congruence.
      apply andb_false_r.
  - intros name' password' now'. unfold Auth.signup. rewrite Hdb1.
    rewrite (find_lookup _ _ (length db) new Hlast); [done | |].
    + simpl. by rewrite bool_decide_true.
    + intros j y Hj Hy. by apply (Hbefore j y Hj Hy).
  - intros Hnd. rewrite Hdb1. unfold Auth.emails. rewrite fmap_app.
    fold (Auth.emails (Auth.JSON_AuthUser <$> db)). rewrite emails_JSON. simpl.
    apply NoDup_app. split; [done |]. split; [|apply NoDup_singleton].
    intros e He Hnew. apply list_elem_of_singleton in Hnew as ->.
    apply list_elem_of_fmap in He as (a & Hea & Ha).
    pose proof (proj1 (Forall_forall _ _) Hfree a Ha) as Hdiff. simpl in Hdiff.
    apply bool_decide_eq_false in Hdiff. congruence.
Qed.

Lemma signup_then_login_witness :
  find (λ u, bool_decide (Auth.User_email (Auth.account u) = "ada@example.org"))
       (Auth.users_db Auth.noStorage) = None
  ∧ ∃ st1 st2,
      Auth.signup "Ada" "ada@example.org" "secret" "2024-06-06T00:00:00.000Z" Auth.noStorage
      = Auth.Returns st1
      ∧ Auth.login "ada@example.org" "secret" st1 = Auth.Returns st2
      ∧ st2 = Auth.adaLoggedIn.
Proof.
  assert (H : find (λ u, bool_decide (Auth.User_email (Auth.account u) = "ada@example.org"))
                (Auth.users_db Auth.noStorage) = None) by reflexivity.
  split; [exact H |].
  destruct (signup_then_login "Ada" "ada@example.org" "secret" "2024-06-06T00:00:00.000Z"
              Auth.noStorage H) as (st1 & Hs & _ & (st2 & Hl & _) & _).
  exists st1, st2. split; [exact Hs |]. split; [exact Hl |].
  vm_compute in Hs. injection Hs as <-. vm_compute in Hl. injection Hl as <-.
  reflexivity.
Defined.

(** X22: a saved profile survives logging out.  When the accounts have
    distinct ids and distinct emails and the user who is logged in is one of
    them, [updateUser] with an object that names neither [id] nor [email]
    (as the profile and the API key forms do) keeps the password of the
    account; after a logout, the login with the same email and password
    succeeds and sets the updated user, as the storage gives it back. *)
Theorem profile_survives_logout_and_login
    (d : Auth.Partial) (st : Auth.State) (u : Auth.User) (k : nat) (r : Auth.AuthUser)
    (password : string) :
  Auth.user st = Some u →
  Auth.users_db st !! k = Some r →
  Auth.User_id (Auth.account r) = Auth.User_id u →
  Auth.User_email (Auth.account r) = Auth.User_email u →
  Auth.AuthUser_password r = Some password →
  NoDup (Auth.ids (Auth.users_db st)) →
  NoDup (Auth.emails (Auth.users_db st)) →
  Auth.with_id d = None → Auth.with_email d = None →
  let st1 := Auth.updateUser d st in
  Auth.user st1 = Some (Auth.merge u d)
  ∧ Auth.quanta_user (Auth.localStorage st1) = Some (Auth.JSON_User (Auth.merge u d))
  ∧ Auth.ids (Auth.users_db st1) = Auth.ids (Auth.users_db st)
  ∧ Auth.emails (Auth.users_db st1) = Auth.emails (Auth.users_db st)
  ∧ ∃ st2, Auth.login (Auth.User_email u) password (Auth.logout st1) = Auth.Returns st2
      ∧ Auth.user st2 = Some (Auth.JSON_User (Auth.merge u d)).
Proof.
  intros Hu Hk Hid Hemail Hpw Hids Hemails Hdid Hdemail st1.
  set (db := Auth.users_db st) in *.
  assert (Hindex : findIndex (λ a, bool_decide (Auth.User_id (Auth.account a) = Auth.User_id u))
                     db = Some k).
  { apply (findIndex_lookup _ _ k r Hk); [by apply bool_decide_eq_true |].
    intros j y Hj Hy. apply bool_decide_eq_false. intros Hsame.
    assert (j = k); [|lia].
    apply (NoDup_fmap_lookup _ db j k y r Hids Hy Hk). congruence. }
  set (new := {| Auth.account := Auth.merge u d; Auth.AuthUser_password := Some password |}).
  assert (Hdb1 : Auth.users_db st1 = Auth.JSON_AuthUser <$> <[k := new]> db).
  { subst st1. unfold Auth.updateUser. rewrite Hu. unfold Auth.users_db at 1. simpl.
    fold db. rewrite Hindex. simpl. rewrite Hk. simpl. by rewrite Hpw. }
  assert (Hmerge_id : Auth.User_id (Auth.merge u d) = Auth.User_id u)
    by (unfold Auth.merge; simpl; by rewrite Hdid).
  assert (Hmerge_email : Auth.User_email (Auth.merge u d) = Auth.User_email u)
    by (unfold Auth.merge; simpl; by rewrite Hdemail).
  assert (Hkeep : ∀ (f : Auth.AuthUser → string),
            f new = f r → f <$> <[k := new]> db = f <$> db).
  { intros f Hf. rewrite list_fmap_insert, Hf. apply list_insert_id.
    by rewrite list_lookup_fmap, Hk. }
  split; [subst st1; unfold Auth.updateUser; by rewrite Hu |].
  split; [subst st1; unfold Auth.updateUser; by rewrite Hu |].
  split.
  { rewrite Hdb1, ids_JSON. apply Hkeep.
    change (Auth.User_id (Auth.merge u d) = Auth.User_id (Auth.account r)). congruence. }
  split.
  { rewrite Hdb1, emails_JSON. apply Hkeep.
    change (Auth.User_email (Auth.merge u d) = Auth.User_email (Auth.account r)).
    congruence. }
  unfold Auth.login.
  assert (Hout : Auth.users_db (Auth.logout st1) = Auth.JSON_AuthUser <$> <[k := new]> db).
  { rewrite <- Hdb1. reflexivity. }
  rewrite Hout.
  assert (Hat : (Auth.JSON_AuthUser <$> <[k := new]> db) !! k
                = Some (Auth.JSON_AuthUser new)).
  { rewrite list_lookup_fmap, list_lookup_insert_eq; [done |].
    by apply lookup_lt_Some in Hk. }
  rewrite (find_lookup _ _ k _ Hat).
  - eexists. split; [reflexivity |]. done.
  - change (bool_decide (Auth.User_email (Auth.merge u d) = Auth.User_email u)
            && bool_decide (Some password = Some password) = true).
    rewrite Hmerge_email. by rewrite !bool_decide_true.
  - intros j y Hj. rewrite list_lookup_fmap, list_lookup_insert_ne by lia.
    destruct (db !! j) as [a|] eqn:Ha; simpl; [|done]. intros [= <-]. simpl.
    rewrite bool_decide_false; [done |]. intros Hsame.
    assert (j = k); [|lia].
    apply (NoDup_fmap_lookup _ db j k a r Hemails Ha Hk). congruence.
Qed.

Lemma profile_survives_witness :
  let d := Auth.ProfileView_handleSave "Ada L." (Some (Js.of_Z 36)) "Engines" "key" in
  ∃ st2,
    Auth.login "ada@example.org" "secret" (Auth.logout (Auth.updateUser d Auth.adaLoggedIn))
    = Auth.Returns st2
    ∧ Auth.user st2
      = Some {| Auth.User_id := "2024-06-06T00:00:00.000Z";
                Auth.User_email := "ada@example.org"; Auth.User_name := Some "Ada L.";
                Auth.User_age := Some (Js.of_Z 36); Auth.User_bio := Some "Engines";
                Auth.User_apiKey := Some "key" |}.
Proof.
  intros d.
  assert (H1 : Auth.user Auth.adaLoggedIn = Some Auth.ada) by reflexivity.
  assert (H2 : Auth.users_db Auth.adaLoggedIn !! 0
               = Some {| Auth.account := Auth.ada; Auth.AuthUser_password := Some "secret" |})
    by reflexivity.
  assert (H3 : NoDup (Auth.ids (Auth.users_db Auth.adaLoggedIn)))
    by (apply NoDup_singleton).
  assert (H4 : NoDup (Auth.emails (Auth.users_db Auth.adaLoggedIn)))
    by (apply NoDup_singleton).
  destruct (profile_survives_logout_and_login d Auth.adaLoggedIn Auth.ada 0 _ "secret"
              H1 H2 eq_refl eq_refl eq_refl H3 H4 eq_refl eq_refl)
    as (_ & _ & _ & _ & st2 & Hlogin & Huser).
  exists st2. split; [exact Hlogin |].
  etrans; [exact Huser | vm_compute; reflexivity].
Defined.

(** ** The quiz of a course that is not among the courses *)

Section OutsideCourses.

Lemma filter_hasId_none (aid : string) (cs : list Course) :
  Forall (λ c, Course_id c ≠ aid) cs →
  filter (λ c, hasId aid c = true) cs = [].
Proof.
  induction 1 as [|c cs Hc _ IH]; [done |].
  rewrite filter_cons, IH. unfold hasId.
  by rewrite (proj2 (String.eqb_neq _ _) Hc).
Qed.

Lemma map_quiz_courseUpdater_none
    (aid : string) (idx : nat) (pct : Js.number) (cs : list Course) :
  Forall (λ c, Course_id c ≠ aid) cs →
  map (quiz_courseUpdater aid idx pct) cs = cs.
Proof.
  induction 1 as [|c cs Hc _ IH]; [done |].
  simpl. by rewrite IH, quiz_courseUpdater_other.
Qed.

End OutsideCourses.

(** X23: the quiz of a course of a learning path records nothing.  When
    no learning path is active (as in every quiz, see above) and no course
    of the courses has the id of the active course (the ids of the courses
    of a path are made differently), the handler leaves the courses, the
    learning paths, the active course and the active module as they are:
    the module is not completed, no attempt is counted and nothing is
    unlocked, whatever the result view reports. *)
Theorem quiz_outside_the_courses_records_nothing
    (s : App.State) (answers : gmap nat (list string))
    (activeModule : CourseModule) (activeIndex : nat) (ac : Course)
    (l : ref) (qz : Quiz) :
  App.activeModule s = Some (activeModule, activeIndex) →
  App.activeCourse s = Some ac →
  quiz activeModule = Some l →
  App.heap s !! l = Some qz →
  App.activePath s = None →
  Forall (λ c, Course_id c ≠ Course_id ac) (App.courses s) →
  let s' := handleQuizSubmit answers s in
  App.courses s' = App.courses s
  ∧ App.learningPaths s' = App.learningPaths s
  ∧ App.activeCourse s' = Some ac
  ∧ App.activeModule s' = Some (activeModule, activeIndex)
  ∧ App.view s' = quiz_results
  ∧ QuizResultsView_passed s'
    = Js.ge (percentageOf (spec_score (questions qz) answers) (length (questions qz)))
            (Js.of_Z 80).
Proof.
  intros Hm Hc Hq Hh Hp Hout s'.
  assert (Hcs : App.courses s' = App.courses s).
  { subst s'. rewrite (handleQuizSubmit_courses s answers _ _ _ _ _ Hm Hc Hq Hh).
    by apply map_quiz_courseUpdater_none. }
  split; [exact Hcs |].
  split; [by apply handleQuizSubmit_without_activePath |].
  split.
  { subst s'. unfold handleQuizSubmit. rewrite Hm, Hc, Hq, Hh, Hp.
    cbn [App.setView App.activeCourse App.courses App.setQuizScore App.setHeap].
    rewrite map_quiz_courseUpdater_none, filter_hasId_none by done.
    exact Hc. }
  split.
  { subst s'. destruct (handleQuizSubmit_rest answers s) as (-> & _). exact Hm. }
  split.
  { subst s'. unfold handleQuizSubmit. by rewrite Hm, Hc, Hq, Hh, Hp. }
  unfold QuizResultsView_passed, QuizResultsView_percentage. subst s'.
  by rewrite (handleQuizSubmit_quizScore s answers _ _ _ _ _ Hm Hc Hq Hh).
Qed.

Lemma quiz_outside_the_courses_witness :
  let s := pathQuizOpen in
  (App.activeModule s = Some (readyModule "Introduction" (Some 3), 0)
   ∧ App.activeCourse s = Some basicsCourse
   ∧ quiz (readyModule "Introduction" (Some 3)) = Some 3
   ∧ App.heap s !! 3 = Some quiz4
   ∧ App.activePath s = None)
  ∧ QuizResultsView_passed (handleQuizSubmit answers4of4 s) = true
  ∧ App.activeCourse (handleQuizSubmit answers4of4 s) = Some basicsCourse
  ∧ App.learningPaths (handleQuizSubmit answers4of4 s) = [demoPath].
Proof.
  intros s.
  assert (H1 : App.activeModule s = Some (readyModule "Introduction" (Some 3), 0))
    by reflexivity.
  assert (H2 : App.activeCourse s = Some basicsCourse) by reflexivity.
  assert (H3 : quiz (readyModule "Introduction" (Some 3)) = Some 3) by reflexivity.
  assert (H4 : App.heap s !! 3 = Some quiz4) by (vm_compute; reflexivity).
  assert (H5 : App.activePath s = None) by reflexivity.
  assert (H6 : Forall (λ c, Course_id c ≠ Course_id basicsCourse) (App.courses s))
    by constructor.
  split; [exact (conj H1 (conj H2 (conj H3 (conj H4 H5)))) |].
  destruct (quiz_outside_the_courses_records_nothing s answers4of4 _ _ _ _ _
              H1 H2 H3 H4 H5 H6) as (_ & Hps & Hac & _ & _ & Hpass).
  split; [etrans; [exact Hpass | vm_compute; reflexivity] |].
  split; [exact Hac |]. exact Hps.
Defined.

(** ** Every creation reaches the gateway *)

Section GatewayFacts.

Lemma Session_step_counts (e : SessionEvent) (σ σ' : Session) :
  readsHaveKeys σ → Session_step e σ = Some σ' →
  readsHaveKeys σ'
  ∧ pendingCourses σ' + pendingPaths σ' + (if settlesCreation e then 1 else 0)
    = pendingCourses σ + pendingPaths σ + (if startsCreation e then 1 else 0).
Proof.
  unfold readsHaveKeys. intros Hkeys Hstep.
  destruct e as [e| | |i|i message]; cbn [Session_step] in Hstep.
  - destruct e.
    all: try match type of Hstep with
         | (step ?e ?t ≫= _) = _ =>
             destruct (step e t) as [s'|] eqn:Hs; simpl in Hstep; [|done];
             injection Hstep as <-; simpl; split; [done | lia]
         end.
    + (* CreateCourse_called *)
      destruct (offersCourseCreation _) eqn:Hoff; [|done].
      apply offersCourseCreation_inv in Hoff as (Hkey & _).
      injection Hstep as <-. unfold handleCreateCourse_call.
      rewrite Hkey. simpl. split; [done | lia].
    + (* CreateCourse_settled *)
      destruct (pendingCourses σ) as [|n]; [done |].
      simpl in Hstep. injection Hstep as <-. simpl. split; [done | lia].
    + (* CreateLearningPath_called *)
      destruct (offersPathCreation _) eqn:Hoff; [|done].
      apply offersPathCreation_inv in Hoff as (Hkey & _).
      injection Hstep as <-. unfold handleCreateLearningPath_call.
      rewrite Hkey. simpl. split; [done | lia].
    + (* CreateLearningPath_settled *)
      destruct (pendingPaths σ) as [|n]; [done |].
      simpl in Hstep. injection Hstep as <-. simpl. split; [done | lia].
  - destruct (MainApp_render (app σ)); try done; injection Hstep as <-;
      simpl; split; (done || lia).
  - destruct (MainApp_render (app σ)) eqn:Hrender; try done.
    assert (Hoff : offersCourseCreation (MainApp_render (app σ)) = true)
      by (by rewrite Hrender).
    apply offersCourseCreation_inv in Hoff as (Hkey & _).
    injection Hstep as <-. simpl. split; [|lia].
    apply Forall_app. split; [done |]. by apply Forall_singleton.
  - destruct (pendingReads σ !! i) as [key|] eqn:Hi; simpl in Hstep; [|done].
    pose proof (Forall_lookup_1 _ _ _ _ Hkeys Hi) as Hkey. simpl in Hkey.
    injection Hstep as <-. unfold handleCreateCourse_call.
    cbn [App.apiKey setApiKey]. rewrite Hkey. simpl.
    split; [by apply Forall_delete | lia].
  - destruct (pendingReads σ !! i) as [key|] eqn:Hi; simpl in Hstep; [|done].
    injection Hstep as <-. simpl. split; [by apply Forall_delete | lia].
Qed.

End GatewayFacts.

(** X24: every creation that is started reaches the gateway.  Over any
    events of a session, files included, the creations under way are those
    that were started and have not been answered: each call of a creation
    handler adds one, so none of them takes the branch for a missing API
    key, which the handlers check first. *)
Theorem every_creation_reaches_the_gateway
    (es : list SessionEvent) (σ σ' : Session) :
  readsHaveKeys σ → Session_run es σ = Some σ' →
  readsHaveKeys σ'
  ∧ pendingCourses σ' + pendingPaths σ'
    + length (filter (λ e, settlesCreation e = true) es)
    = pendingCourses σ + pendingPaths σ
      + length (filter (λ e, startsCreation e = true) es).
Proof.
  revert σ. induction es as [|e es IH]; intros σ Hσ; simpl.
  - intros [= <-]. split; [done | lia].
  - destruct (Session_step e σ) as [σ1|] eqn:Hstep; simpl; [|done]. intros Hrun.
    destruct (Session_step_counts e σ σ1 Hσ Hstep) as [Hσ1 Hcount].
    destruct (IH σ1 Hσ1 Hrun) as [Hσ' Hrest]. split; [done |].
    rewrite !filter_cons.
    destruct (settlesCreation e), (startsCreation e); simpl in *; lia.
Qed.

Lemma every_creation_witness :
  let es := [Ui (Navigate create_document); DocumentCreator_submittedFile;
             Ui (ProfileView_apiKey None); FileRead_resolved 0] in
  readsHaveKeys (Session_of emptyState)
  ∧ ∃ σ', Session_run es (Session_of emptyState) = Some σ'
      ∧ MainApp_render (app σ') = ApiKeySetup
      ∧ pendingCourses σ' + pendingPaths σ' = 1.
Proof.
  intros es.
  assert (H1 : readsHaveKeys (Session_of emptyState)) by constructor.
  split; [exact H1 |].
  destruct (Session_run es (Session_of emptyState)) as [σ'|] eqn:Hrun;
    [|vm_compute in Hrun; discriminate Hrun].
  exists σ'. split; [reflexivity |].
  split; [vm_compute in Hrun; injection Hrun as <-; reflexivity |].
  destruct (every_creation_reaches_the_gateway es (Session_of emptyState) σ' H1 Hrun)
    as [_ Hcount].
  simpl in Hcount. lia.
Defined.
